(** * The transaction participant of a tablet

    A shallow embedding of [src/yb/tablet/transaction_participant.cc]:
    the per-tablet table of running transactions, the cached remote status
    of each of them with the coalescing of status and abort requests, the
    lazy load of persisted metadata and the apply path.

    The code is embedded at two grains.  [RunningTransaction] and [Impl]
    give each member function as one step on the state of the participant:
    what the function does from its entry to its return when nothing else
    runs in between.  What it does outside the state (an RPC it starts, a
    callback it invokes, a line it logs) is recorded, in program order, in
    the list of events the step returns.  [Thread] and [Concurrent] take
    the same functions section by section, as the mutex of the participant
    divides them: a call holds the mutex from a lock to an unlock only, the
    handles are written and the callbacks run outside it, so the sections
    of the calls and completions that are under way interleave.  Run
    alone, the sections of a call make the step.  Deadlines (real time) are
    left out of the requests. *)

From Stdlib Require Import NArith ZArith String Ascii List Bool Sorted Lia.
From stdpp Require Import gmap strings list fin_maps.

Local Open Scope string_scope.
Local Open Scope N_scope.
Local Open Scope list_scope.

(** ** Values exchanged with the collaborators *)

(** [HybridTime] wraps a [uint64_t]; the code only compares the values. *)
Definition HybridTime : Type := N.

(** [TransactionId] is a [boost::uuids::uuid], sixteen raw bytes; protobuf
    [bytes] fields and tablet ids are [std::string]s. *)
Definition TransactionId : Type := string.
Definition TabletId : Type := string.

(** A protobuf enum the file never names a value of: the underlying
    integer, as the C++ enum holds it. *)
Definition IsolationLevel : Type := Z.

(** [tserver::TransactionStatus], a protobuf enum declared outside this
    file: the four values the file names and, by its number, any other
    value a variable of the enum type can hold. *)
Inductive TransactionStatus : Type :=
| PENDING
| COMMITTED
| APPLIED_IN_ONE_OF_INVOLVED_TABLETS
| ABORTED
| TransactionStatus_other (number : Z).

Inductive ProcessingMode : Type := LEADER | FOLLOWER.

Inductive FormatArg : Type :=
| ArgId (id : TransactionId)
| ArgTime (t : HybridTime)
| ArgStatus (s : TransactionStatus).

(** [yb::Status]: OK, or a code with a message.  [STATUS_FORMAT] keeps the
    format string and its arguments apart; statuses made elsewhere (a failed
    RPC, a failed decode) carry an opaque code. *)
Inductive StatusCode : Type :=
| NotFound
| TryAgain
| Corruption
| OtherCode (c : N).

Inductive Status : Type :=
| OK
| Bad (code : StatusCode) (format : string) (args : list FormatArg).

Definition ok (s : Status) : bool :=
  match s with OK => true | Bad _ _ _ => false end.

(** [Result<T>]: a value or a status that is not OK. *)
Inductive Result (T : Type) : Type :=
| Value (v : T)
| Failure (s : Status).
Arguments Value {T} v.
Arguments Failure {T} s.

Record TransactionStatusResult : Type := {
  status : TransactionStatus;
  status_time : HybridTime
}.

(** A [TransactionStatusCallback] is a closure of the caller; the model
    names it and records each invocation with its argument. *)
Definition TransactionStatusCallback : Type := nat.

Record TransactionMetadataPB : Type := {
  pb_transaction_id : string;
  pb_isolation : IsolationLevel;
  pb_status_tablet : TabletId;
  pb_priority : N;
  pb_start_hybrid_time : N
}.

(** The responses of the status tablet; [None] stands for an absent
    optional field. *)
Record GetTransactionStatusResponsePB : Type := {
  gs_status : TransactionStatus;
  gs_status_hybrid_time : option N
}.

Record AbortTransactionResponsePB : Type := {
  ab_status : TransactionStatus;
  ab_status_hybrid_time : option N
}.

(** The requests the participant sends. *)
Inductive Rpc : Type :=
| GetTransactionStatus (tablet_id : TabletId) (txn : TransactionId)
| AbortTransaction (tablet_id : TabletId) (txn : TransactionId)
| UpdateTransaction (tablet_id : TabletId) (txn : TransactionId)
    (state_status : TransactionStatus) (state_tablets : list TabletId).

Inductive Severity : Type := WARNING | DFATAL.

(** What a step does outside the participant's own state. *)
Inductive Event : Type :=
| RpcSent (handle : nat) (rpc : Rpc)
| Invoke (callback : TransactionStatusCallback)
    (result : Result TransactionStatusResult)
| Log (severity : Severity) (text : string).

(** Ways the process stops: [LOG(FATAL)], a failed [CHECK], a failed
    [DCHECK] or [LOG(DFATAL)] in a build that has them on, and the read of
    a member that was never assigned. *)
Inductive Fatal : Type :=
| InvalidEnumValue (s : TransactionStatus)
| CheckFailed (s : Status)
| DCheckFailed (what : string)
| DFatalLogged (what : string)
| IndeterminateRead.

Inductive Outcome (A : Type) : Type :=
| Done (a : A)
| Crash (why : Fatal).
Arguments Done {A} a.
Arguments Crash {A} why.

(** ** What the sources leave to other files

    Constants, generated protobuf code and helpers whose definitions are
    outside [transaction_participant.cc].  Nothing is assumed of them. *)
Class External : Type := {
  (** [HybridTime::kMin], [kMax] and [kInvalidHybridTime]. *)
  kMin : HybridTime;
  kMax : HybridTime;
  kInvalidHybridTime : HybridTime;
  (** [docdb::ValueType::kIntentPrefix] and [kTransactionId]. *)
  kIntentPrefix : ascii;
  kTransactionId : ascii;
  (** [DecodeTransactionId] of yb/common. *)
  DecodeTransactionId : string -> Result TransactionId;
  (** [SerializeAsString] and [ParseFromArray] of [TransactionMetadataPB],
      and [IsolationLevel_IsValid]: the integers that are values of the
      enum. *)
  SerializeAsString : TransactionMetadataPB -> string;
  ParseFromArray : string -> option TransactionMetadataPB;
  IsolationLevel_IsValid : Z -> bool;
  (** Whether [DCHECK]s are compiled in and [LOG(DFATAL)] is fatal. *)
  dcheck_is_on : bool
}.

(** ** A monad for the steps: state, events, and a way to stop *)

Definition M (S A : Type) : Type := S -> Outcome (A * S * list Event).

Definition ret {S A} (a : A) : M S A := fun s => Done (a, s, []).

Definition bind {S A B} (m : M S A) (k : A -> M S B) : M S B :=
  fun s =>
    match m s with
    | Crash w => Crash w
    | Done (a, s1, l1) =>
        match k a s1 with
        | Crash w => Crash w
        | Done (b, s2, l2) => Done (b, s2, l1 ++ l2)
        end
    end.

Definition get {S} : M S S := fun s => Done (s, s, []).
Definition emit {S} (e : Event) : M S unit := fun s => Done (tt, s, [e]).
Definition fatal {S A} (w : Fatal) : M S A := fun _ => Crash w.

Definition lift {S A} (o : Outcome A) : M S A :=
  fun s => match o with Done a => Done (a, s, []) | Crash w => Crash w end.

Declare Scope step_scope.
Delimit Scope step_scope with step.
Notation "x <~ m ;; k" := (bind m (fun x => k))
  (at level 100, m at next level, right associativity) : step_scope.
Notation "m ;;; k" := (bind m (fun _ => k))
  (at level 100, right associativity) : step_scope.

(** [for (const auto& x : xs) body(x);] *)
Fixpoint for_each {S A} (xs : list A) (body : A -> M S unit) : M S unit :=
  match xs with
  | [] => ret tt
  | x :: rest => bind (body x) (fun _ => for_each rest body)
  end.

(** [DCHECK(cond)] and [LOG(DFATAL)]. *)
Definition DCHECK `{E : External} {S} (cond : bool) (what : string) : M S unit :=
  if dcheck_is_on && negb cond then fatal (DCheckFailed what) else ret tt.

Definition LOG_DFATAL `{E : External} {S} (what : string) : M S unit :=
  if dcheck_is_on then fatal (DFatalLogged what) else emit (Log DFATAL what).

(** ** The RPC registry *)
Module Rpcs.

(** Modelled from the spec: the handles of [rpc::Rpcs] (yb/rpc/rpc.h, not
    among the sources).  Section 4.3: a handle names one outstanding RPC,
    and invalid handles compare equal to a well-known sentinel. *)
Definition Handle : Type := option nat.
Definition InvalidHandle : Handle := None.

(** Modelled from the spec: the state of [rpc::Rpcs], the outstanding RPCs
    by handle and the next handle to give out. *)
Record t : Type := {
  calls : gmap nat Rpc;
  next : nat
}.

Definition empty : t := {| calls := ∅; next := 0 |}.

(** Modelled from the spec: what [prepare] and [register_and_start] of
    section 4.3 do to the registry; they reserve a slot for an RPC and
    register it under a new handle. *)
Definition Register (rpc : Rpc) (r : t) : nat * t :=
  (next r, {| calls := <[next r := rpc]> (calls r); next := S (next r) |}).

(** Modelled from the spec: [unregister] of section 4.3 removes the
    handle; nothing is registered under the invalid one. *)
Definition Unregister (h : Handle) (r : t) : t :=
  match h with
  | None => r
  | Some n => {| calls := delete n (calls r); next := next r |}
  end.

End Rpcs.

(** ** Transaction metadata *)
Module TransactionMetadata.

Record t : Type := {
  transaction_id : TransactionId;
  isolation : IsolationLevel;
  status_tablet : TabletId;
  priority : N;
  start_time : HybridTime
}.

(** [RETURN_NOT_OK(id)] leaves with the status of the failed decode; the
    four other members are copied from the message as they are. *)
Definition FromPB `{E : External} (source : TransactionMetadataPB) : Result t :=
  match DecodeTransactionId (pb_transaction_id source) with
  | Failure s => Failure s
  | Value id =>
      Value {| transaction_id := id;
               isolation := pb_isolation source;
               status_tablet := pb_status_tablet source;
               priority := pb_priority source;
               start_time := pb_start_hybrid_time source |}
  end.

(** [operator==] *)
Definition eqb (lhs rhs : t) : bool :=
  String.eqb (transaction_id lhs) (transaction_id rhs) &&
  Z.eqb (isolation lhs) (isolation rhs) &&
  String.eqb (status_tablet lhs) (status_tablet rhs) &&
  N.eqb (priority lhs) (priority rhs) &&
  N.eqb (start_time lhs) (start_time rhs).

End TransactionMetadata.

(** [AppendTransactionKeyPrefix], on the bytes of the key so far. *)
Definition AppendTransactionKeyPrefix `{E : External}
    (transaction_id : TransactionId) (out : string) : string :=
  out ++ String kIntentPrefix (String kTransactionId transaction_id).

(** ** One running transaction *)
Module RunningTransaction.

Record StatusWaiter : Type := {
  callback : TransactionStatusCallback;
  time : HybridTime
}.

(** The members of the class, but [rpcs_]: the registry is shared, it is
    threaded next to the entry.  [last_known_status_] has no initialiser in
    the class; [None] is the value never assigned. *)
Record t : Type := {
  metadata_ : TransactionMetadata.t;
  local_commit_time_ : HybridTime;
  last_known_status_ : option TransactionStatus;
  last_known_status_hybrid_time_ : HybridTime;
  status_waiters_ : list StatusWaiter;
  get_status_handle_ : Rpcs.Handle;
  abort_handle_ : Rpcs.Handle;
  abort_waiters_ : list TransactionStatusCallback
}.

Definition set_local_commit_time_ (v : HybridTime) (x : t) : t :=
  {| metadata_ := metadata_ x; local_commit_time_ := v;
     last_known_status_ := last_known_status_ x;
     last_known_status_hybrid_time_ := last_known_status_hybrid_time_ x;
     status_waiters_ := status_waiters_ x;
     get_status_handle_ := get_status_handle_ x;
     abort_handle_ := abort_handle_ x;
     abort_waiters_ := abort_waiters_ x |}.

Definition set_last_known (s : TransactionStatus) (v : HybridTime) (x : t) : t :=
  {| metadata_ := metadata_ x; local_commit_time_ := local_commit_time_ x;
     last_known_status_ := Some s;
     last_known_status_hybrid_time_ := v;
     status_waiters_ := status_waiters_ x;
     get_status_handle_ := get_status_handle_ x;
     abort_handle_ := abort_handle_ x;
     abort_waiters_ := abort_waiters_ x |}.

Definition set_status_waiters_ (v : list StatusWaiter) (x : t) : t :=
  {| metadata_ := metadata_ x; local_commit_time_ := local_commit_time_ x;
     last_known_status_ := last_known_status_ x;
     last_known_status_hybrid_time_ := last_known_status_hybrid_time_ x;
     status_waiters_ := v;
     get_status_handle_ := get_status_handle_ x;
     abort_handle_ := abort_handle_ x;
     abort_waiters_ := abort_waiters_ x |}.

Definition set_get_status_handle_ (v : Rpcs.Handle) (x : t) : t :=
  {| metadata_ := metadata_ x; local_commit_time_ := local_commit_time_ x;
     last_known_status_ := last_known_status_ x;
     last_known_status_hybrid_time_ := last_known_status_hybrid_time_ x;
     status_waiters_ := status_waiters_ x;
     get_status_handle_ := v;
     abort_handle_ := abort_handle_ x;
     abort_waiters_ := abort_waiters_ x |}.

Definition set_abort_handle_ (v : Rpcs.Handle) (x : t) : t :=
  {| metadata_ := metadata_ x; local_commit_time_ := local_commit_time_ x;
     last_known_status_ := last_known_status_ x;
     last_known_status_hybrid_time_ := last_known_status_hybrid_time_ x;
     status_waiters_ := status_waiters_ x;
     get_status_handle_ := get_status_handle_ x;
     abort_handle_ := v;
     abort_waiters_ := abort_waiters_ x |}.

Definition set_abort_waiters_ (v : list TransactionStatusCallback) (x : t) : t :=
  {| metadata_ := metadata_ x; local_commit_time_ := local_commit_time_ x;
     last_known_status_ := last_known_status_ x;
     last_known_status_hybrid_time_ := last_known_status_hybrid_time_ x;
     status_waiters_ := status_waiters_ x;
     get_status_handle_ := get_status_handle_ x;
     abort_handle_ := abort_handle_ x;
     abort_waiters_ := v |}.

Section Methods.
Context `{E : External}.
Local Open Scope step_scope.

(** The constructor. *)
Definition new (metadata : TransactionMetadata.t) : t :=
  {| metadata_ := metadata;
     local_commit_time_ := kInvalidHybridTime;
     last_known_status_ := None;
     last_known_status_hybrid_time_ := kMin;
     status_waiters_ := [];
     get_status_handle_ := Rpcs.InvalidHandle;
     abort_handle_ := Rpcs.InvalidHandle;
     abort_waiters_ := [] |}.

Definition id (x : t) : TransactionId :=
  TransactionMetadata.transaction_id (metadata_ x).

Definition metadata (x : t) : TransactionMetadata.t := metadata_ x.

Definition local_commit_time (x : t) : HybridTime := local_commit_time_ x.

Definition SetLocalCommitTime (time : HybridTime) (x : t) : t :=
  set_local_commit_time_ time x.

(** The state a method sees: the shared registry and [*this]. *)
Definition Self : Type := Rpcs.t * t.

Definition this : M Self t := fun s => Done (snd s, s, []).

Definition update (f : t -> t) : M Self unit :=
  fun s => Done (tt, (fst s, f (snd s)), []).

(** [rpcs_.RegisterAndStart(rpc, &handle)] *)
Definition RegisterAndStart (rpc : Rpc) (set_handle : Rpcs.Handle -> t -> t)
  : M Self unit :=
  fun s =>
    let '(h, rpcs) := Rpcs.Register rpc (fst s) in
    Done (tt, (rpcs, set_handle (Some h) (snd s)), [RpcSent h rpc]).

(** [rpcs_.Unregister(&handle)] *)
Definition Unregister (handle : t -> Rpcs.Handle)
    (set_handle : Rpcs.Handle -> t -> t) : M Self unit :=
  fun s =>
    Done (tt, (Rpcs.Unregister (handle (snd s)) (fst s),
               set_handle Rpcs.InvalidHandle (snd s)), []).

Definition GetStatusAt
    (time last_known_status_hybrid_time : HybridTime)
    (last_known_status : TransactionStatus)
  : Outcome (option TransactionStatus) :=
  match last_known_status with
  | ABORTED => Done (Some ABORTED)
  | COMMITTED =>
      Done (Some (if time <? last_known_status_hybrid_time
                  then PENDING
                  else COMMITTED))
  | PENDING =>
      if time <=? last_known_status_hybrid_time
      then Done (Some PENDING)
      else Done None
  | other => Crash (InvalidEnumValue other)
  end.

(** [GetStatusAt] on a status read from a member. *)
Definition GetStatusAtMember
    (time last_known_status_hybrid_time : HybridTime)
    (last_known_status : option TransactionStatus)
  : Outcome (option TransactionStatus) :=
  match last_known_status with
  | None => Crash IndeterminateRead
  | Some s => GetStatusAt time last_known_status_hybrid_time s
  end.

Definition RequestStatusAt (time : HybridTime)
    (callback : TransactionStatusCallback) : M Self unit :=
  x <~ this ;;
  transaction_status <~
    (if kMin <? last_known_status_hybrid_time_ x
     then lift (GetStatusAtMember time (last_known_status_hybrid_time_ x)
                  (last_known_status_ x))
     else ret None) ;;
  match transaction_status with
  | Some st =>
      emit (Invoke callback
              (Value {| status := st;
                        status_time := last_known_status_hybrid_time_ x |}))
  | None =>
      let was_empty :=
        match status_waiters_ x with [] => true | _ => false end in
      update (set_status_waiters_
                (status_waiters_ x ++
                 [{| callback := callback; time := time |}])) ;;;
      if negb was_empty then ret tt
      else
        RegisterAndStart
          (GetTransactionStatus
             (TransactionMetadata.status_tablet (metadata_ x))
             (TransactionMetadata.transaction_id (metadata_ x)))
          set_get_status_handle_
  end.

Definition Abort (callback : TransactionStatusCallback) : M Self unit :=
  x <~ this ;;
  let was_empty := match abort_waiters_ x with [] => true | _ => false end in
  update (set_abort_waiters_ (abort_waiters_ x ++ [callback])) ;;;
  if negb was_empty then ret tt
  else
    RegisterAndStart
      (AbortTransaction
         (TransactionMetadata.status_tablet (metadata_ x))
         (TransactionMetadata.transaction_id (metadata_ x)))
      set_abort_handle_.

(** The body of the second loop of [StatusReceived]. *)
Definition answer_waiter (time : HybridTime)
    (transaction_status : option TransactionStatus) (waiter : StatusWaiter)
  : M Self unit :=
  status_for_waiter <~
    lift (GetStatusAtMember (RunningTransaction.time waiter) time
            transaction_status) ;;
  match status_for_waiter, transaction_status with
  | Some st, _ =>
      emit (Invoke (callback waiter)
              (Value {| status := st; status_time := time |}))
  | None, Some last =>
      emit (Invoke (callback waiter)
              (Failure
                 (Bad TryAgain
                    "Cannot determine transaction status at $0, last known: $1 at $2"
                    [ArgTime (RunningTransaction.time waiter);
                     ArgStatus last; ArgTime time])))
  | None, None => fatal IndeterminateRead
  end.

Definition StatusReceived (status : Status)
    (response : GetTransactionStatusResponsePB) : M Self unit :=
  Unregister get_status_handle_ set_get_status_handle_ ;;;
  x <~ this ;;
  let status_waiters := status_waiters_ x in
  update (set_status_waiters_ []) ;;;
  if ok status then
    DCHECK (match gs_status_hybrid_time response, gs_status response with
            | Some _, _ | None, ABORTED => true
            | None, _ => false
            end)
           "response.has_status_hybrid_time() || response.status() == ABORTED" ;;;
    let time :=
      match gs_status_hybrid_time response with
      | Some v => v
      | None => kMax
      end in
    (if last_known_status_hybrid_time_ x <=? time
     then update (set_last_known (gs_status response) time)
     else ret tt) ;;;
    x <~ this ;;
    let time := last_known_status_hybrid_time_ x in
    let transaction_status := last_known_status_ x in
    for_each status_waiters (answer_waiter time transaction_status)
  else
    for_each status_waiters
      (fun waiter => emit (Invoke (callback waiter) (Failure status))).

Definition MakeAbortResult (status : Status)
    (response : AbortTransactionResponsePB) : Result TransactionStatusResult :=
  if negb (ok status) then Failure status
  else
    let status_time :=
      match ab_status_hybrid_time response with
      | Some v => v
      | None => kInvalidHybridTime
      end in
    Value {| status := ab_status response; status_time := status_time |}.

Definition AbortReceived (status : Status)
    (response : AbortTransactionResponsePB) : M Self unit :=
  Unregister abort_handle_ set_abort_handle_ ;;;
  x <~ this ;;
  let abort_waiters := abort_waiters_ x in
  update (set_abort_waiters_ []) ;;;
  let result := MakeAbortResult status response in
  for_each abort_waiters (fun waiter => emit (Invoke waiter result)).

End Methods.
End RunningTransaction.

(** ** The persistent store and the write batch *)
Module rocksdb.

(** Modelled from the spec: the store of section 6, one record per key,
    kept here in the bytewise order of the keys (rocksdb is not among the
    sources). *)
Definition DB : Type := list (string * string).

(** Modelled from the spec: a write batch, as the sequence of the records
    put into it; the caller owns and flushes it. *)
Definition WriteBatch : Type := list (string * string).

(** Modelled from the spec: the seekable key-value iterator of section 6.
    [Seek] leaves the iterator on the first record whose key is not below
    the target; [None] is an iterator that is not valid. *)
Definition Seek (db : DB) (target : string) : option (string * string) :=
  List.find (fun record => String.leb target (fst record)) db.

(** Modelled from the spec: [Put] enqueues a record into the batch. *)
Definition Put (key value : string) (batch : WriteBatch) : WriteBatch :=
  batch ++ [(key, value)].

End rocksdb.

(** [TransactionApplyData]; its [applier] is the collaborator that
    materialises the intents, seen through the status it returns for the
    plain members of the data. *)
Module TransactionApplyData.

Record t : Type := {
  mode : ProcessingMode;
  applier : ProcessingMode -> TransactionId -> HybridTime -> TabletId -> Status;
  transaction_id : TransactionId;
  commit_time : HybridTime;
  status_tablet : TabletId
}.

Definition ApplyIntents (data : t) : Status :=
  applier data (mode data) (transaction_id data) (commit_time data)
    (status_tablet data).

End TransactionApplyData.

Record TransactionParticipantContext : Type := {
  tablet_id : TabletId
}.

(** ** The participant *)
Module Impl.

Record t : Type := {
  context_ : TransactionParticipantContext;
  rpcs_ : Rpcs.t;
  transactions_ : gmap TransactionId RunningTransaction.t
}.

Definition new (context : TransactionParticipantContext) : t :=
  {| context_ := context; rpcs_ := Rpcs.empty; transactions_ := ∅ |}.

Section Methods.
Context `{E : External}.
Local Open Scope step_scope.

(** An iterator of the table that is not [transactions_.end()]: the
    position (the id the hashed index holds the entry under) and the entry
    there. *)
Definition iterator : Type := TransactionId * RunningTransaction.t.

(** [transactions_.find(id)]; [None] is [transactions_.end()]. *)
Definition find (id : TransactionId) : M t (option iterator) :=
  fun impl =>
    Done (match transactions_ impl !! id with
          | Some x => Some (id, x)
          | None => None
          end, impl, []).

(** [transactions_.emplace(metadata, &rpcs_)]: the index is unique on the
    id, so nothing is inserted when an entry has the id; the iterator to
    the entry with that id and whether it was inserted. *)
Definition emplace (metadata : TransactionMetadata.t)
  : M t (iterator * bool) :=
  fun impl =>
    let id := TransactionMetadata.transaction_id metadata in
    match transactions_ impl !! id with
    | Some x => Done (((id, x), false), impl, [])
    | None =>
        let x := RunningTransaction.new metadata in
        Done (((id, x), true),
              {| context_ := context_ impl; rpcs_ := rpcs_ impl;
                 transactions_ := <[id := x]> (transactions_ impl) |}, [])
    end.

(** [transactions_.modify(it, f)] *)
Definition modify (it : iterator)
    (f : RunningTransaction.t -> RunningTransaction.t) : M t unit :=
  fun impl =>
    Done (tt,
          {| context_ := context_ impl; rpcs_ := rpcs_ impl;
             transactions_ := <[fst it := f (snd it)]> (transactions_ impl) |},
          []).

(** A member function called through [it->], run on the entry and the
    shared registry; what it assigns to the mutable members stays in the
    entry, in place. *)
Definition call {A} (it : iterator) (m : M RunningTransaction.Self A)
  : M t A :=
  fun impl =>
    match m (rpcs_ impl, snd it) with
    | Crash w => Crash w
    | Done (a, (rpcs, x'), events) =>
        Done (a,
              {| context_ := context_ impl; rpcs_ := rpcs;
                 transactions_ := <[fst it := x']> (transactions_ impl) |},
              events)
    end.

Definition Add (data : TransactionMetadataPB) (write_batch : rocksdb.WriteBatch)
  : M t rocksdb.WriteBatch :=
  match TransactionMetadata.FromPB data with
  | Failure _ =>
      LOG_DFATAL "Invalid transaction id: " ;;;
      ret write_batch
  | Value metadata =>
      it <~ find (TransactionMetadata.transaction_id metadata) ;;
      store <~
        match it with
        | None => emplace metadata ;;; ret true
        | Some (_, x) =>
            DCHECK (TransactionMetadata.eqb (RunningTransaction.metadata x)
                      metadata)
                   "it->metadata() == *metadata" ;;;
            ret false
        end ;;
      if store : bool then
        let key :=
          AppendTransactionKeyPrefix
            (TransactionMetadata.transaction_id metadata) "" in
        let value := SerializeAsString data in
        ret (rocksdb.Put key value write_batch)
      else ret write_batch
  end.

Definition LocalCommitTime (id : TransactionId) : M t HybridTime :=
  it <~ find id ;;
  match it with
  | None => ret kInvalidHybridTime
  | Some (_, x) => ret (RunningTransaction.local_commit_time x)
  end.

Definition FindOrLoad (db : rocksdb.DB) (id : TransactionId)
  : M t (option iterator) :=
  it <~ find id ;;
  match it with
  | Some it => ret (Some it)
  | None =>
      let key := AppendTransactionKeyPrefix id "" in
      match rocksdb.Seek db key with
      | Some (iter_key, iter_value) =>
          if String.eqb iter_key key then
            match ParseFromArray iter_value with
            | Some metadata_pb =>
                match TransactionMetadata.FromPB metadata_pb with
                | Value metadata =>
                    r <~ emplace metadata ;;
                    ret (Some (fst r))
                | Failure _ =>
                    LOG_DFATAL "Loaded bad metadata: " ;;;
                    ret None
                end
            | None =>
                LOG_DFATAL "Unable to parse stored metadata: " ;;;
                ret None
            end
          else ret None
      | None => ret None
      end
  end.

Definition Metadata (db : rocksdb.DB) (id : TransactionId)
  : M t (option TransactionMetadata.t) :=
  it <~ FindOrLoad db id ;;
  match it with
  | None => ret None
  | Some (_, x) => ret (Some (RunningTransaction.metadata x))
  end.

Definition RequestStatusAt (id : TransactionId) (time : HybridTime)
    (callback : TransactionStatusCallback) : M t unit :=
  it <~ find id ;;
  match it with
  | None =>
      emit (Invoke callback
              (Failure (Bad NotFound "Unknown transaction: $1" [ArgId id])))
  | Some it => call it (RunningTransaction.RequestStatusAt time callback)
  end.

Definition Abort (id : TransactionId) (callback : TransactionStatusCallback)
  : M t unit :=
  it <~ find id ;;
  match it with
  | None =>
      emit (Invoke callback
              (Failure (Bad NotFound "Unknown transaction: $1" [ArgId id])))
  | Some it => call it (RunningTransaction.Abort callback)
  end.

(** [rpcs_.Prepare()], the assignment of the RPC to the slot and
    [SendRpc()]. *)
Definition PrepareAndSend (rpc : Rpc) : M t unit :=
  fun impl =>
    let '(h, rpcs) := Rpcs.Register rpc (rpcs_ impl) in
    Done (tt,
          {| context_ := context_ impl; rpcs_ := rpcs;
             transactions_ := transactions_ impl |},
          [RpcSent h rpc]).

Definition ProcessApply (data : TransactionApplyData.t) : M t Status :=
  (match TransactionApplyData.ApplyIntents data with
   | OK => ret tt
   | s => fatal (CheckFailed s)
   end) ;;;
  it <~ find (TransactionApplyData.transaction_id data) ;;
  match it with
  | None =>
      emit (Log WARNING "Apply of unknown transaction: ") ;;;
      ret OK
  | Some it =>
      modify it
        (RunningTransaction.SetLocalCommitTime
           (TransactionApplyData.commit_time data)) ;;;
      impl <~ get ;;
      (match TransactionApplyData.mode data with
       | LEADER =>
           PrepareAndSend
             (UpdateTransaction
                (TransactionApplyData.status_tablet data)
                (TransactionApplyData.transaction_id data)
                APPLIED_IN_ONE_OF_INVOLVED_TABLETS
                [tablet_id (context_ impl)])
       | FOLLOWER => ret tt
       end) ;;;
      ret OK
  end.

(** The completion of an RPC of an entry runs the member function that was
    bound to the entry when the RPC was made.  An entry is never erased
    from the table, so the entry is there. *)
Definition StatusReceived (id : TransactionId) (status : Status)
    (response : GetTransactionStatusResponsePB) : M t unit :=
  it <~ find id ;;
  match it with
  | None => ret tt
  | Some it => call it (RunningTransaction.StatusReceived status response)
  end.

Definition AbortReceived (id : TransactionId) (status : Status)
    (response : AbortTransactionResponsePB) : M t unit :=
  it <~ find id ;;
  match it with
  | None => ret tt
  | Some it => call it (RunningTransaction.AbortReceived status response)
  end.

(** The completion of the [UpdateTransaction] RPC of [ProcessApply]. *)
Definition UpdateTransactionDone (handle : nat) (status : Status) : M t unit :=
  fun impl =>
    Done (tt,
          {| context_ := context_ impl;
             rpcs_ := Rpcs.Unregister (Some handle) (rpcs_ impl);
             transactions_ := transactions_ impl |},
          if ok status then [] else [Log WARNING "Failed to send applied: "]).

End Methods.
End Impl.

(** ** Any sequence of operations on the participant

    The calls of the facade and the completions of the RPCs, in the order
    the mutex serialises them. *)
Inductive Op : Type :=
| OpAdd (data : TransactionMetadataPB) (write_batch : rocksdb.WriteBatch)
| OpMetadata (db : rocksdb.DB) (id : TransactionId)
| OpLocalCommitTime (id : TransactionId)
| OpRequestStatusAt (id : TransactionId) (time : HybridTime)
    (callback : TransactionStatusCallback)
| OpAbort (id : TransactionId) (callback : TransactionStatusCallback)
| OpProcessApply (data : TransactionApplyData.t)
| OpStatusReceived (id : TransactionId) (status : Status)
    (response : GetTransactionStatusResponsePB)
| OpAbortReceived (id : TransactionId) (status : Status)
    (response : AbortTransactionResponsePB)
| OpUpdateTransactionDone (handle : nat) (status : Status).

Definition step `{E : External} (op : Op) : M Impl.t unit :=
  match op with
  | OpAdd data write_batch => bind (Impl.Add data write_batch) (fun _ => ret tt)
  | OpMetadata db id => bind (Impl.Metadata db id) (fun _ => ret tt)
  | OpLocalCommitTime id => bind (Impl.LocalCommitTime id) (fun _ => ret tt)
  | OpRequestStatusAt id time callback => Impl.RequestStatusAt id time callback
  | OpAbort id callback => Impl.Abort id callback
  | OpProcessApply data => bind (Impl.ProcessApply data) (fun _ => ret tt)
  | OpStatusReceived id status response => Impl.StatusReceived id status response
  | OpAbortReceived id status response => Impl.AbortReceived id status response
  | OpUpdateTransactionDone handle status =>
      Impl.UpdateTransactionDone handle status
  end.

Definition run `{E : External} (ops : list Op) : M Impl.t unit :=
  for_each ops step.

(** The [GetTransactionStatus] requests among the events. *)
Definition is_get_status (e : Event) : bool :=
  match e with
  | RpcSent _ (GetTransactionStatus _ _) => true
  | _ => false
  end.

Definition is_update_transaction (e : Event) : bool :=
  match e with
  | RpcSent _ (UpdateTransaction _ _ _ _) => true
  | _ => false
  end.

(** ** An instance to run the model on

    Hybrid times as the 64-bit values they wrap, ids of sixteen bytes, and
    a toy wire format that keeps the id only. *)
Definition sample_external : External :=
  {| kMin := 0;
     kMax := 18446744073709551615;
     kInvalidHybridTime := 18446744073709551614;
     kIntentPrefix := "i"%char;
     kTransactionId := "x"%char;
     DecodeTransactionId := fun slice =>
       if (String.length slice =? 16)%nat then Value slice
       else Failure (Bad Corruption "Invalid length of transaction id: $0" []);
     SerializeAsString := pb_transaction_id;
     ParseFromArray := fun bytes =>
       Some {| pb_transaction_id := bytes; pb_isolation := 1%Z;
               pb_status_tablet := "status-tablet"; pb_priority := 7;
               pb_start_hybrid_time := 5 |};
     IsolationLevel_IsValid := fun v => (v =? 0)%Z || (v =? 1)%Z;
     dcheck_is_on := true |}.

Definition sample_id : TransactionId := "0123456789abcdef".

Definition sample_pb : TransactionMetadataPB :=
  {| pb_transaction_id := sample_id; pb_isolation := 1%Z;
     pb_status_tablet := "status-tablet"; pb_priority := 7;
     pb_start_hybrid_time := 5 |}.

Definition sample_metadata : TransactionMetadata.t :=
  {| TransactionMetadata.transaction_id := sample_id;
     TransactionMetadata.isolation := 1%Z;
     TransactionMetadata.status_tablet := "status-tablet";
     TransactionMetadata.priority := 7;
     TransactionMetadata.start_time := 5 |}.

Definition sample_impl : Impl.t :=
  Impl.new {| tablet_id := "this-tablet" |}.


(** ** Reading the result of a step *)

Definition value_of {S A} (o : Outcome (A * S * list Event)) : option A :=
  match o with Done (a, _, _) => Some a | Crash _ => None end.

Definition events_of {S A} (o : Outcome (A * S * list Event))
  : option (list Event) :=
  match o with Done (_, _, l) => Some l | Crash _ => None end.

(** What the cache of an entry says for a request at [time]: the first
    statement of [RunningTransaction::RequestStatusAt]. *)
Definition cached_status `{E : External} (time : HybridTime)
    (x : RunningTransaction.t) : Outcome (option TransactionStatus) :=
  if kMin <? RunningTransaction.last_known_status_hybrid_time_ x
  then RunningTransaction.GetStatusAtMember time
         (RunningTransaction.last_known_status_hybrid_time_ x)
         (RunningTransaction.last_known_status_ x)
  else Done None.

(** The time a [GetTransactionStatus] response speaks of. *)
Definition response_time `{E : External} (response : GetTransactionStatusResponsePB)
  : HybridTime :=
  match gs_status_hybrid_time response with
  | Some v => v
  | None => kMax
  end.

(** The calls [RequestStatusAt(id, time, callback)] of a list of requests. *)
Definition requests (id : TransactionId)
    (reqs : list (HybridTime * TransactionStatusCallback)) : list Op :=
  List.map (fun r => OpRequestStatusAt id (fst r) (snd r)) reqs.

(** A step that only reads the state and emits events. *)
Definition keeps_state {S A} (m : M S A) : Prop :=
  forall s a s' l, m s = Done (a, s', l) -> s' = s.

(** What a step may do to the entry [x] the table holds under [k]: the
    member function the operation runs on it, when the operation is for
    [k], and nothing otherwise. *)
Definition entry_after `{E : External} (op : Op) (k : TransactionId)
    (x x' : RunningTransaction.t) : Prop :=
  match op with
  | OpRequestStatusAt id time callback =>
      if decide (id = k) then
        exists rpcs rpcs' l,
          RunningTransaction.RequestStatusAt time callback (rpcs, x)
          = Done (tt, (rpcs', x'), l)
      else x' = x
  | OpAbort id callback =>
      if decide (id = k) then
        exists rpcs rpcs' l,
          RunningTransaction.Abort callback (rpcs, x)
          = Done (tt, (rpcs', x'), l)
      else x' = x
  | OpStatusReceived id status response =>
      if decide (id = k) then
        exists rpcs rpcs' l,
          RunningTransaction.StatusReceived status response (rpcs, x)
          = Done (tt, (rpcs', x'), l)
      else x' = x
  | OpAbortReceived id status response =>
      if decide (id = k) then
        exists rpcs rpcs' l,
          RunningTransaction.AbortReceived status response (rpcs, x)
          = Done (tt, (rpcs', x'), l)
      else x' = x
  | OpProcessApply data =>
      if decide (TransactionApplyData.transaction_id data = k) then
        x' = RunningTransaction.SetLocalCommitTime
               (TransactionApplyData.commit_time data) x
      else x' = x
  | OpAdd _ _ | OpMetadata _ _ | OpLocalCommitTime _
  | OpUpdateTransactionDone _ _ => x' = x
  end.

(** The [GetTransactionStatus] RPCs a list of events starts. *)
Definition sent_get_status (l : list Event) : nat :=
  length (List.filter is_get_status l).

(** The state and the events a sequence of operations ends with. *)
Definition after `{E : External} (ops : list Op) (impl : Impl.t) : Impl.t :=
  match run ops impl with
  | Done (_, impl', _) => impl'
  | Crash _ => impl
  end.

Definition events_after `{E : External} (ops : list Op) (impl : Impl.t)
  : list Event :=
  match run ops impl with
  | Done (_, _, l) => l
  | Crash _ => []
  end.

(** The sample participant after [Add] of the sample transaction and one
    [RequestStatusAt]: the status RPC of the entry is in flight.  Then the
    RPC completes with PENDING at 15. *)
Definition sample_busy : Impl.t :=
  after (E := sample_external)
    [OpAdd sample_pb []; OpRequestStatusAt sample_id 10 1%nat] sample_impl.

Definition sample_response : GetTransactionStatusResponsePB :=
  {| gs_status := PENDING; gs_status_hybrid_time := Some 15 |}.

Definition sample_idle : Impl.t :=
  after (E := sample_external)
    [OpStatusReceived sample_id OK sample_response] sample_busy.

(** The RPC in flight completes with PENDING at 20 and a request at 30
    starts the next one. *)
Definition sample_pending_at_20 : Impl.t :=
  after (E := sample_external)
    [OpStatusReceived sample_id OK
       {| gs_status := PENDING; gs_status_hybrid_time := Some 20 |};
     OpRequestStatusAt sample_id 30 2%nat]
    sample_busy.

(** The sample participant after [Add] of the sample transaction. *)
Definition sample_added : Impl.t :=
  after (E := sample_external) [OpAdd sample_pb []] sample_impl.

(** Apply data for the sample transaction, with an applier that succeeds. *)
Definition sample_apply (mode : ProcessingMode) (commit_time : HybridTime)
  : TransactionApplyData.t :=
  {| TransactionApplyData.mode := mode;
     TransactionApplyData.applier := fun _ _ _ _ => OK;
     TransactionApplyData.transaction_id := sample_id;
     TransactionApplyData.commit_time := commit_time;
     TransactionApplyData.status_tablet := "status-tablet" |}.

(** "Once [local_commit_time] is set to a valid value, it is never
    changed", for one operation of the participant. *)
Definition local_commit_time_is_final `{E : External} : Prop :=
  forall op impl impl' l id x x',
    Impl.transactions_ impl !! id = Some x ->
    RunningTransaction.local_commit_time_ x <> kInvalidHybridTime ->
    step op impl = Done (tt, impl', l) ->
    Impl.transactions_ impl' !! id = Some x' ->
    RunningTransaction.local_commit_time_ x'
    = RunningTransaction.local_commit_time_ x.

(** The [UpdateTransaction] request of [ProcessApply]. *)
Definition applied_rpc (data : TransactionApplyData.t) (impl : Impl.t) : Rpc :=
  UpdateTransaction (TransactionApplyData.status_tablet data)
    (TransactionApplyData.transaction_id data)
    APPLIED_IN_ONE_OF_INVOLVED_TABLETS [tablet_id (Impl.context_ impl)].

(** "[ProcessApply] sends the [UpdateTransaction] RPC if and only if the
    mode is LEADER", for one call. *)
Definition update_sent_iff_leader `{E : External}
    (data : TransactionApplyData.t) (impl : Impl.t) : Prop :=
  forall st impl' l,
    Impl.ProcessApply data impl = Done (st, impl', l) ->
    (exists handle, In (RpcSent handle (applied_rpc data impl)) l) <->
    TransactionApplyData.mode data = LEADER.

(** "[FromPB] returns a decode error for every message whose isolation
    level is unknown." *)
Definition unknown_isolation_is_rejected `{E : External} : Prop :=
  forall source,
    IsolationLevel_IsValid (pb_isolation source) = false ->
    exists s, TransactionMetadata.FromPB source = Failure s.

(** The sample message with an isolation level that is no value of the
    enum. *)
Definition sample_pb_unknown_isolation : TransactionMetadataPB :=
  {| pb_transaction_id := sample_id; pb_isolation := 99%Z;
     pb_status_tablet := "status-tablet"; pb_priority := 7;
     pb_start_hybrid_time := 5 |}.

(** The sample message with another priority. *)
Definition sample_pb_other_priority : TransactionMetadataPB :=
  {| pb_transaction_id := sample_id; pb_isolation := 1%Z;
     pb_status_tablet := "status-tablet"; pb_priority := 8;
     pb_start_hybrid_time := 5 |}.

(** A store that holds the record of the sample transaction. *)
Definition sample_db : rocksdb.DB :=
  [("a", "before"); ("ix0123456789abcdef", sample_id); ("z", "after")].

(** The hashed index of the table is on [RunningTransaction::id]: every
    entry is held under the id of its metadata. *)
Definition table_wf (impl : Impl.t) : Prop :=
  forall k x,
    Impl.transactions_ impl !! k = Some x -> RunningTransaction.id x = k.

(** ** More vocabulary for the properties *)

(** The calls [Abort(id, callback)] of a list of callbacks. *)
Definition aborts (id : TransactionId)
    (callbacks : list TransactionStatusCallback) : list Op :=
  List.map (OpAbort id) callbacks.

(** The waiters [RequestStatusAt] queues for a list of requests. *)
Definition waiters_of (reqs : list (HybridTime * TransactionStatusCallback))
  : list RunningTransaction.StatusWaiter :=
  List.map
    (fun r => {| RunningTransaction.callback := snd r;
                 RunningTransaction.time := fst r |})
    reqs.

(** The call a waiter gets when the status [s] is known at [time]: the
    status [GetStatusAt] extrapolates to the time the waiter asked for,
    with [time], or TryAgain when there is none. *)
Definition answer_event (time : HybridTime) (s : TransactionStatus)
    (waiter : RunningTransaction.StatusWaiter) : Event :=
  Invoke (RunningTransaction.callback waiter)
    match RunningTransaction.GetStatusAt (RunningTransaction.time waiter)
            time s with
    | Done (Some st) => Value {| status := st; status_time := time |}
    | _ =>
        Failure
          (Bad TryAgain
             "Cannot determine transaction status at $0, last known: $1 at $2"
             [ArgTime (RunningTransaction.time waiter); ArgStatus s;
              ArgTime time])
    end.

(** The status and time an entry caches once a successful response came:
    those of the response if its time is not before the cached one, the
    cached ones otherwise. *)
Definition snapshot `{E : External} (response : GetTransactionStatusResponsePB)
    (x : RunningTransaction.t) : HybridTime * option TransactionStatus :=
  if RunningTransaction.last_known_status_hybrid_time_ x
     <=? response_time response
  then (response_time response, Some (gs_status response))
  else (RunningTransaction.last_known_status_hybrid_time_ x,
        RunningTransaction.last_known_status_ x).

(** The condition of the [DCHECK] of [StatusReceived]. *)
Definition has_time_or_aborted (response : GetTransactionStatusResponsePB)
  : bool :=
  match gs_status_hybrid_time response, gs_status response with
  | Some _, _ | None, ABORTED => true
  | None, _ => false
  end.

(** The statuses [GetStatusAt] has a case for. *)
Definition known_to_participant (s : TransactionStatus) : bool :=
  match s with
  | PENDING | COMMITTED | ABORTED => true
  | APPLIED_IN_ONE_OF_INVOLVED_TABLETS | TransactionStatus_other _ => false
  end.

(** A queue of an entry holds waiters exactly while the entry holds the
    handle of the RPC they wait for. *)
Definition queues_match_handles (x : RunningTransaction.t) : Prop :=
  (RunningTransaction.status_waiters_ x = [] <->
   RunningTransaction.get_status_handle_ x = Rpcs.InvalidHandle) /\
  (RunningTransaction.abort_waiters_ x = [] <->
   RunningTransaction.abort_handle_ x = Rpcs.InvalidHandle).

(** The sample instance for a build without DCHECKs. *)
Definition sample_release : External :=
  {| kMin := 0;
     kMax := 18446744073709551615;
     kInvalidHybridTime := 18446744073709551614;
     kIntentPrefix := "i"%char;
     kTransactionId := "x"%char;
     DecodeTransactionId := fun slice =>
       if (String.length slice =? 16)%nat then Value slice
       else Failure (Bad Corruption "Invalid length of transaction id: $0" []);
     SerializeAsString := pb_transaction_id;
     ParseFromArray := fun bytes =>
       Some {| pb_transaction_id := bytes; pb_isolation := 1%Z;
               pb_status_tablet := "status-tablet"; pb_priority := 7;
               pb_start_hybrid_time := 5 |};
     IsolationLevel_IsValid := fun v => (v =? 0)%Z || (v =? 1)%Z;
     dcheck_is_on := false |}.

(** The sample message with an id that is one byte short. *)
Definition sample_pb_short_id : TransactionMetadataPB :=
  {| pb_transaction_id := "0123456789abcde"; pb_isolation := 1%Z;
     pb_status_tablet := "status-tablet"; pb_priority := 7;
     pb_start_hybrid_time := 5 |}.

(** Apply data for the sample transaction whose applier fails. *)
Definition sample_failed_apply : TransactionApplyData.t :=
  {| TransactionApplyData.mode := LEADER;
     TransactionApplyData.applier :=
       fun _ _ _ _ => Bad (OtherCode 5) "IO error" [];
     TransactionApplyData.transaction_id := sample_id;
     TransactionApplyData.commit_time := 30;
     TransactionApplyData.status_tablet := "status-tablet" |}.

(** The callbacks the events call, in order. *)
Definition invoked (l : list Event) : list TransactionStatusCallback :=
  flat_map
    (fun e => match e with Invoke callback _ => [callback] | _ => [] end) l.



(** "Re-adding with different metadata for the same id is a hard bug":
    [Add] of a decodable message for an id the table holds with another
    metadata stops the process. *)
Definition conflicting_add_is_fatal `{E : External} : Prop :=
  forall data metadata write_batch impl x,
    TransactionMetadata.FromPB data = Value metadata ->
    Impl.transactions_ impl !! TransactionMetadata.transaction_id metadata
    = Some x ->
    RunningTransaction.metadata x <> metadata ->
    exists why, Impl.Add data write_batch impl = Crash why.

(** The text of the [DCHECK] of [StatusReceived]. *)
Definition has_time_or_aborted_text : string :=
  "response.has_status_hybrid_time() || response.status() == ABORTED".

(** A response with the status PENDING and no hybrid time. *)
Definition sample_response_without_time : GetTransactionStatusResponsePB :=
  {| gs_status := PENDING; gs_status_hybrid_time := None |}.

(** ** The calls as the threads run them

    The mutex of the participant is held from a lock to an unlock, not for
    a whole call.  [RequestStatusAt] and [Abort] release it before they
    call back or start the RPC, [StatusReceived] unregisters its handle
    before it takes it and answers the waiters after it released it,
    [AbortReceived] answers them after it released it.  Here a call is the
    sequence of its sections: a section runs alone, the sections of the
    calls and completions that are under way interleave in any order. *)
Module Thread.

(** What a call or a completion has still to do when it left a section.
    [it] is the position of [this] in the table. *)
Inductive t : Type :=
(** Lines 341 and 353: the callback of a call for an id the table does not
    hold, after the unlock. *)
| NotFoundCallback (callback : TransactionStatusCallback) (id : TransactionId)
(** Line 86: the callback of a request the cache answered, after the
    unlock of line 85. *)
| CachedStatusCallback (it : TransactionId)
    (callback : TransactionStatusCallback)
    (transaction_status : TransactionStatus)
(** Lines 96 to 107, after the unlock of line 95. *)
| StartGetTransactionStatus (it : TransactionId)
(** Lines 116 to 134, after the unlock of line 115, when the queue was
    empty. *)
| StartAbortTransaction (it : TransactionId)
(** Lines 164 to 183, after the [Unregister] of line 163. *)
| StatusReceivedLocked (it : TransactionId) (status : Status)
    (response : GetTransactionStatusResponsePB)
(** Lines 185 to 187, for the waiters the loop has not reached yet. *)
| FailStatusWaiters (status : Status)
    (status_waiters : list RunningTransaction.StatusWaiter)
(** Lines 189 to 201, for the waiters the loop has not reached yet. *)
| AnswerStatusWaiters
    (status_waiters : list RunningTransaction.StatusWaiter)
    (time : HybridTime) (transaction_status : option TransactionStatus)
(** Lines 228 to 230, for the waiters the loop has not reached yet. *)
| AnswerAbortWaiters (abort_waiters : list TransactionStatusCallback)
    (result : Result TransactionStatusResult).

Section Methods.
Context `{E : External}.
Local Open Scope step_scope.

(** A member function that goes on, on the entry at the position [it].
    An entry is never erased from the table, so the entry is there. *)
Definition on {A} (it : TransactionId) (m : M RunningTransaction.Self A)
    (otherwise : A) : M Impl.t A :=
  found <~ Impl.find it ;;
  match found with
  | None => ret otherwise
  | Some it => Impl.call it m
  end.

(** [RunningTransaction::RequestStatusAt] from its entry, with the lock
    held, to the point where the lock is released: lines 81 to 95. *)
Definition RequestStatusAt_locked (it : TransactionId) (time : HybridTime)
    (callback : TransactionStatusCallback)
  : M RunningTransaction.Self (option t) :=
  x <~ RunningTransaction.this ;;
  transaction_status <~
    (if kMin <? RunningTransaction.last_known_status_hybrid_time_ x
     then lift (RunningTransaction.GetStatusAtMember time
                  (RunningTransaction.last_known_status_hybrid_time_ x)
                  (RunningTransaction.last_known_status_ x))
     else ret None) ;;
  match transaction_status with
  | Some st => ret (Some (CachedStatusCallback it callback st))
  | None =>
      let was_empty :=
        match RunningTransaction.status_waiters_ x with
        | [] => true
        | _ => false
        end in
      RunningTransaction.update
        (RunningTransaction.set_status_waiters_
           (RunningTransaction.status_waiters_ x ++
            [{| RunningTransaction.callback := callback;
                RunningTransaction.time := time |}])) ;;;
      if negb was_empty then ret None
      else ret (Some (StartGetTransactionStatus it))
  end.

(** Line 86: the callback gets the status found under the lock and the
    time the entry holds when the line runs. *)
Definition RequestStatusAt_callback (callback : TransactionStatusCallback)
    (transaction_status : TransactionStatus) : M RunningTransaction.Self unit :=
  x <~ RunningTransaction.this ;;
  emit (Invoke callback
          (Value {| status := transaction_status;
                    status_time :=
                      RunningTransaction.last_known_status_hybrid_time_ x |})).

(** Lines 96 to 107. *)
Definition RequestStatusAt_start : M RunningTransaction.Self unit :=
  x <~ RunningTransaction.this ;;
  RunningTransaction.RegisterAndStart
    (GetTransactionStatus
       (TransactionMetadata.status_tablet (RunningTransaction.metadata_ x))
       (TransactionMetadata.transaction_id (RunningTransaction.metadata_ x)))
    RunningTransaction.set_get_status_handle_.

(** [RunningTransaction::Abort] to the unlock: lines 113 to 115, and the
    test of lines 116 to 118. *)
Definition Abort_locked (it : TransactionId)
    (callback : TransactionStatusCallback)
  : M RunningTransaction.Self (option t) :=
  x <~ RunningTransaction.this ;;
  let was_empty :=
    match RunningTransaction.abort_waiters_ x with
    | [] => true
    | _ => false
    end in
  RunningTransaction.update
    (RunningTransaction.set_abort_waiters_
       (RunningTransaction.abort_waiters_ x ++ [callback])) ;;;
  if negb was_empty then ret None
  else ret (Some (StartAbortTransaction it)).

(** Lines 119 to 134. *)
Definition Abort_start : M RunningTransaction.Self unit :=
  x <~ RunningTransaction.this ;;
  RunningTransaction.RegisterAndStart
    (AbortTransaction
       (TransactionMetadata.status_tablet (RunningTransaction.metadata_ x))
       (TransactionMetadata.transaction_id (RunningTransaction.metadata_ x)))
    RunningTransaction.set_abort_handle_.

(** Line 163 of [StatusReceived], before the lock is taken. *)
Definition StatusReceived_unregister : M RunningTransaction.Self unit :=
  RunningTransaction.Unregister RunningTransaction.get_status_handle_
    RunningTransaction.set_get_status_handle_.

(** Lines 164 to 183 of [StatusReceived]: the block that holds the lock.
    What is left are the loops over the waiters that were swapped out. *)
Definition StatusReceived_locked (status : Status)
    (response : GetTransactionStatusResponsePB)
  : M RunningTransaction.Self (option t) :=
  x <~ RunningTransaction.this ;;
  let status_waiters := RunningTransaction.status_waiters_ x in
  RunningTransaction.update (RunningTransaction.set_status_waiters_ []) ;;;
  if ok status then
    DCHECK (match gs_status_hybrid_time response, gs_status response with
            | Some _, _ | None, ABORTED => true
            | None, _ => false
            end)
           "response.has_status_hybrid_time() || response.status() == ABORTED" ;;;
    let time :=
      match gs_status_hybrid_time response with
      | Some v => v
      | None => kMax
      end in
    (if RunningTransaction.last_known_status_hybrid_time_ x <=? time
     then RunningTransaction.update
            (RunningTransaction.set_last_known (gs_status response) time)
     else ret tt) ;;;
    x <~ RunningTransaction.this ;;
    let time := RunningTransaction.last_known_status_hybrid_time_ x in
    let transaction_status := RunningTransaction.last_known_status_ x in
    ret (Some (AnswerStatusWaiters status_waiters time transaction_status))
  else ret (Some (FailStatusWaiters status status_waiters)).

(** Lines 221 to 227 of [AbortReceived]: the block that holds the lock,
    and the result for the waiters that were swapped out. *)
Definition AbortReceived_locked (status : Status)
    (response : AbortTransactionResponsePB)
  : M RunningTransaction.Self (option t) :=
  RunningTransaction.Unregister RunningTransaction.abort_handle_
    RunningTransaction.set_abort_handle_ ;;;
  x <~ RunningTransaction.this ;;
  let abort_waiters := RunningTransaction.abort_waiters_ x in
  RunningTransaction.update (RunningTransaction.set_abort_waiters_ []) ;;;
  let result := RunningTransaction.MakeAbortResult status response in
  ret (Some (AnswerAbortWaiters abort_waiters result)).

(** The body of the loop of lines 189 to 201; it reads nothing of the
    entry. *)
Definition answer_waiter (time : HybridTime)
    (transaction_status : option TransactionStatus)
    (waiter : RunningTransaction.StatusWaiter) : M Impl.t unit :=
  status_for_waiter <~
    lift (RunningTransaction.GetStatusAtMember
            (RunningTransaction.time waiter) time transaction_status) ;;
  match status_for_waiter, transaction_status with
  | Some st, _ =>
      emit (Invoke (RunningTransaction.callback waiter)
              (Value {| status := st; status_time := time |}))
  | None, Some last =>
      emit (Invoke (RunningTransaction.callback waiter)
              (Failure
                 (Bad TryAgain
                    "Cannot determine transaction status at $0, last known: $1 at $2"
                    [ArgTime (RunningTransaction.time waiter);
                     ArgStatus last; ArgTime time])))
  | None, None => fatal IndeterminateRead
  end.

(** A call of the facade, or the completion of an RPC, from its entry to
    the first point where it has released the lock; [None] when it is over
    by then.  [Add], [Metadata], [LocalCommitTime] and [ProcessApply] read
    and write the participant in one critical section, and the completion
    of [UpdateTransaction] in one call of the registry. *)
Definition enter (op : Op) : M Impl.t (option t) :=
  match op with
  | OpRequestStatusAt id time callback =>
      it <~ Impl.find id ;;
      match it with
      | None => ret (Some (NotFoundCallback callback id))
      | Some it => Impl.call it (RequestStatusAt_locked (fst it) time callback)
      end
  | OpAbort id callback =>
      it <~ Impl.find id ;;
      match it with
      | None => ret (Some (NotFoundCallback callback id))
      | Some it => Impl.call it (Abort_locked (fst it) callback)
      end
  | OpStatusReceived id status response =>
      on id StatusReceived_unregister tt ;;;
      ret (Some (StatusReceivedLocked id status response))
  | OpAbortReceived id status response =>
      on id (AbortReceived_locked status response) None
  | _ => step op ;;; ret None
  end.

(** The next section of a call that is under way. *)
Definition resume (thread : t) : M Impl.t (option t) :=
  match thread with
  | NotFoundCallback callback id =>
      emit (Invoke callback
              (Failure (Bad NotFound "Unknown transaction: $1" [ArgId id]))) ;;;
      ret None
  | CachedStatusCallback it callback transaction_status =>
      on it (RequestStatusAt_callback callback transaction_status) tt ;;;
      ret None
  | StartGetTransactionStatus it =>
      on it RequestStatusAt_start tt ;;;
      ret None
  | StartAbortTransaction it =>
      on it Abort_start tt ;;;
      ret None
  | StatusReceivedLocked it status response =>
      on it (StatusReceived_locked status response) None
  | FailStatusWaiters status [] => ret None
  | FailStatusWaiters status (waiter :: status_waiters) =>
      emit (Invoke (RunningTransaction.callback waiter) (Failure status)) ;;;
      ret (Some (FailStatusWaiters status status_waiters))
  | AnswerStatusWaiters [] time transaction_status => ret None
  | AnswerStatusWaiters (waiter :: status_waiters) time transaction_status =>
      answer_waiter time transaction_status waiter ;;;
      ret (Some (AnswerStatusWaiters status_waiters time transaction_status))
  | AnswerAbortWaiters [] result => ret None
  | AnswerAbortWaiters (waiter :: abort_waiters) result =>
      emit (Invoke waiter result) ;;;
      ret (Some (AnswerAbortWaiters abort_waiters result))
  end.

(** A call or a completion that runs alone: its sections one after the
    other, nothing in between.  [fuel] bounds the number of sections after
    the first. *)
Fixpoint finish (fuel : nat) (thread : option t) : M Impl.t unit :=
  match thread, fuel with
  | None, _ => ret tt
  | Some _, O => ret tt
  | Some thread, S fuel => bind (resume thread) (finish fuel)
  end.

Definition alone (fuel : nat) (op : Op) : M Impl.t unit :=
  bind (enter op) (finish fuel).

(** The sections a call or a completion has after the first: the callback
    or the start of the RPC for [RequestStatusAt] and [Abort]; for the
    completions, the locked block of [StatusReceived], an iteration for
    each waiter, and the end of the loop. *)
Definition sections (op : Op) (impl : Impl.t) : nat :=
  match op with
  | OpRequestStatusAt _ _ _ | OpAbort _ _ => 1
  | OpStatusReceived id _ _ =>
      match Impl.transactions_ impl !! id with
      | Some x => 2 + length (RunningTransaction.status_waiters_ x)
      | None => 1
      end
  | OpAbortReceived id _ _ =>
      match Impl.transactions_ impl !! id with
      | Some x => 1 + length (RunningTransaction.abort_waiters_ x)
      | None => 0
      end
  | _ => 0
  end%nat.

End Methods.
End Thread.

(** The RPCs among the events, with their handles. *)
Definition started (l : list Event) : list (nat * Rpc) :=
  flat_map
    (fun e => match e with RpcSent handle rpc => [(handle, rpc)] | _ => [] end)
    l.

(** A [GetTransactionStatus] RPC, or an [AbortTransaction] RPC, for the
    transaction [k]. *)
Definition status_rpc (k : TransactionId) (r : nat * Rpc) : bool :=
  match snd r with
  | GetTransactionStatus _ txn => bool_decide (txn = k)
  | _ => false
  end.

Definition abort_rpc (k : TransactionId) (r : nat * Rpc) : bool :=
  match snd r with
  | AbortTransaction _ txn => bool_decide (txn = k)
  | _ => false
  end.

(** The RPCs whose completion an operation is: [StatusReceived] and
    [AbortReceived] are bound to the entry that made the request, the
    completion of [UpdateTransaction] to the handle. *)
Definition completes (op : Op) (r : nat * Rpc) : bool :=
  match op with
  | OpStatusReceived id _ _ => status_rpc id r
  | OpAbortReceived id _ _ => abort_rpc id r
  | OpUpdateTransactionDone handle _ =>
      match r with
      | (h, UpdateTransaction _ _ _ _) => bool_decide (h = handle)
      | _ => false
      end
  | _ => false
  end.

Definition is_completion (op : Op) : bool :=
  match op with
  | OpStatusReceived _ _ _ | OpAbortReceived _ _ _
  | OpUpdateTransactionDone _ _ => true
  | _ => false
  end.

(** The list without its first element that satisfies [p], if there is
    one. *)
Fixpoint remove_first {A} (p : A -> bool) (l : list A) : option (list A) :=
  match l with
  | [] => None
  | a :: rest =>
      if p a then Some rest
      else match remove_first p rest with
           | Some rest' => Some (a :: rest')
           | None => None
           end
  end.

(** How many elements of a list satisfy [p]. *)
Definition count {A} (p : A -> bool) (l : list A) : nat :=
  length (List.filter p l).

(** ** The participant with the calls that are under way *)
Module Concurrent.

(** The participant, the calls and completions that have released the
    lock and are not over, and the RPCs that were started and whose
    completion has not begun. *)
Record t : Type := {
  participant : Impl.t;
  threads : list Thread.t;
  in_flight : list (nat * Rpc)
}.

Definition new (context : TransactionParticipantContext) : t :=
  {| participant := Impl.new context; threads := []; in_flight := [] |}.

(** What happens next: a call of the facade or the completion of an RPC
    begins, or the [n]-th of the calls and completions under way runs its
    next section. *)
Inductive Move : Type :=
| Enter (op : Op)
| Resume (n : nat).

Section Steps.
Context `{E : External}.

(** Modelled from the spec: the RPC layer (yb/rpc and yb/client are not
    among the sources) runs the callback bound to an RPC once, after the
    RPC was started; sections 4.3 and 4.4.2.  So the completion of an RPC
    begins only while the RPC is in flight, and takes it out of the RPCs in
    flight; [None] is a move that cannot take place. *)
Definition landing (op : Op) (c : t) : option (list (nat * Rpc)) :=
  if is_completion op then remove_first (completes op) (in_flight c)
  else Some (in_flight c).

(** One section runs: the participant after it, the call added to the
    calls under way, if it is not over, and the RPCs it started added to
    the RPCs in flight. *)
Definition step (move : Move) (c : t)
  : option (Outcome (t * list Event)) :=
  match move with
  | Enter op =>
      match landing op c with
      | None => None
      | Some flying =>
          Some
            match Thread.enter op (participant c) with
            | Crash why => Crash why
            | Done (thread, impl, l) =>
                Done ({| participant := impl;
                         threads := threads c ++ option_list thread;
                         in_flight := flying ++ started l |}, l)
            end
      end
  | Resume n =>
      match threads c !! n with
      | None => None
      | Some thread =>
          Some
            match Thread.resume thread (participant c) with
            | Crash why => Crash why
            | Done (thread', impl, l) =>
                Done ({| participant := impl;
                         threads := delete n (threads c) ++ option_list thread';
                         in_flight := in_flight c ++ started l |}, l)
            end
      end
  end.

(** A sequence of moves: the state it ends in and the events in order,
    [Crash] if a section stops the process, [None] if a move cannot take
    place. *)
Fixpoint run (moves : list Move) (c : t) : option (Outcome (t * list Event)) :=
  match moves with
  | [] => Some (Done (c, []))
  | move :: rest =>
      match step move c with
      | None => None
      | Some (Crash why) => Some (Crash why)
      | Some (Done (c1, l1)) =>
          match run rest c1 with
          | None => None
          | Some (Crash why) => Some (Crash why)
          | Some (Done (c2, l2)) => Some (Done (c2, l1 ++ l2))
          end
      end
  end.

End Steps.
End Concurrent.

(** The calls that are about to start the status RPC of the entry [k],
    the completions of it that have unregistered the handle and not yet
    swapped the queue, and the calls that are about to start its abort
    RPC. *)
Definition starts_status (k : TransactionId) (thread : Thread.t) : bool :=
  match thread with
  | Thread.StartGetTransactionStatus it => bool_decide (it = k)
  | _ => false
  end.

Definition swaps_status (k : TransactionId) (thread : Thread.t) : bool :=
  match thread with
  | Thread.StatusReceivedLocked it _ _ => bool_decide (it = k)
  | _ => false
  end.

Definition starts_abort (k : TransactionId) (thread : Thread.t) : bool :=
  match thread with
  | Thread.StartAbortTransaction it => bool_decide (it = k)
  | _ => false
  end.

(** The callback of a call for an id the table does not hold, and the
    loops over the waiters that were swapped out. *)
Definition is_loop (thread : Thread.t) : bool :=
  match thread with
  | Thread.NotFoundCallback _ _ | Thread.FailStatusWaiters _ _
  | Thread.AnswerStatusWaiters _ _ _ | Thread.AnswerAbortWaiters _ _ => true
  | _ => false
  end.

(** The operations that read and write the participant in one section. *)
Definition is_atomic (op : Op) : bool :=
  match op with
  | OpRequestStatusAt _ _ _ | OpAbort _ _
  | OpStatusReceived _ _ _ | OpAbortReceived _ _ _ => false
  | _ => true
  end.

(** Who answers for the status waiters of the entry [k]: the call that
    queued the first of them, until it has started the RPC; the RPC, while
    it is in flight; its completion, until it has swapped the queue. *)
Definition status_owners (k : TransactionId) (c : Concurrent.t) : nat :=
  (count (starts_status k) (Concurrent.threads c)
   + count (status_rpc k) (Concurrent.in_flight c)
   + count (swaps_status k) (Concurrent.threads c))%nat.

(** Who answers for the abort waiters of the entry [k]: the call that
    queued the first of them, until it has started the RPC, and then the
    RPC. *)
Definition abort_owners (k : TransactionId) (c : Concurrent.t) : nat :=
  (count (starts_abort k) (Concurrent.threads c)
   + count (abort_rpc k) (Concurrent.in_flight c))%nat.

(** The queues, the handles, the calls under way and the RPCs in flight
    agree on the entry [x] at the position [k]: waiters are queued exactly
    while one owner answers for them, and there is never more than one;
    the entry holds a handle exactly while its RPC is in flight. *)
Definition entry_accounted (c : Concurrent.t) (k : TransactionId)
    (x : RunningTransaction.t) : Prop :=
  status_owners k c
  = match RunningTransaction.status_waiters_ x with [] => 0 | _ => 1 end%nat /\
  count (status_rpc k) (Concurrent.in_flight c)
  = match RunningTransaction.get_status_handle_ x with
    | Some _ => 1
    | None => 0
    end%nat /\
  abort_owners k c
  = match RunningTransaction.abort_waiters_ x with [] => 0 | _ => 1 end%nat /\
  count (abort_rpc k) (Concurrent.in_flight c)
  = match RunningTransaction.abort_handle_ x with
    | Some _ => 1
    | None => 0
    end%nat.

(** What holds of the participant and of the calls under way in every
    state the moves reach: each entry is held under the id of its
    metadata, and the queues, the handles, the calls under way and the RPCs
    in flight agree on it; nothing is under way or in flight for an id the
    table does not hold. *)
Definition accounted (c : Concurrent.t) : Prop :=
  forall k,
    match Impl.transactions_ (Concurrent.participant c) !! k with
    | Some x => RunningTransaction.id x = k /\ entry_accounted c k x
    | None => status_owners k c = 0%nat /\ abort_owners k c = 0%nat
    end.

(** The [GetTransactionStatus] RPCs for the transaction [id] a list of
    events starts. *)
Definition sent_get_status_of (id : TransactionId) (l : list Event) : nat :=
  count (status_rpc id) (started l).

(** The moves that are not the completion of the status RPC of [id]. *)
Definition not_status_completion (id : TransactionId)
    (move : Concurrent.Move) : bool :=
  match move with
  | Concurrent.Enter (OpStatusReceived i _ _) => negb (bool_decide (i = id))
  | _ => true
  end.

(** The participant with the entry at [id] replaced. *)
Definition with_entry (id : TransactionId) (x : RunningTransaction.t)
    (impl : Impl.t) : Impl.t :=
  {| Impl.context_ := Impl.context_ impl;
     Impl.rpcs_ := Impl.rpcs_ impl;
     Impl.transactions_ := <[id := x]> (Impl.transactions_ impl) |}.

(** The state and the events a sequence of moves ends with. *)
Definition state_after `{E : External} (moves : list Concurrent.Move)
    (c : Concurrent.t) : Concurrent.t :=
  match Concurrent.run moves c with
  | Some (Done (c', _)) => c'
  | _ => c
  end.

Definition events_during `{E : External} (moves : list Concurrent.Move)
    (c : Concurrent.t) : list Event :=
  match Concurrent.run moves c with
  | Some (Done (_, l)) => l
  | _ => []
  end.

(** The sample transaction is added, two calls of [RequestStatusAt] run
    to their unlock, and then the first of them starts the RPC. *)
Definition sample_first_requests : list Concurrent.Move :=
  [Concurrent.Enter (OpAdd sample_pb []);
   Concurrent.Enter (OpRequestStatusAt sample_id 10 1%nat);
   Concurrent.Enter (OpRequestStatusAt sample_id 12 2%nat);
   Concurrent.Resume 0].

(** What goes on after the completion of that RPC has begun.  A request
    at 20 finds the two waiters still queued and joins them; the completion
    swaps the queue and caches PENDING at 15; a request at 10 is answered
    from the cache, a request at 20 queues the first waiter, a request at
    25 the second; the call that queued the first starts the RPC; the
    completion answers its first waiter and the request at 10 gets its
    callback. *)
Definition sample_next_requests : list Concurrent.Move :=
  [Concurrent.Enter (OpRequestStatusAt sample_id 20 3%nat);
   Concurrent.Resume 0;
   Concurrent.Enter (OpRequestStatusAt sample_id 10 4%nat);
   Concurrent.Enter (OpRequestStatusAt sample_id 20 5%nat);
   Concurrent.Enter (OpRequestStatusAt sample_id 25 6%nat);
   Concurrent.Resume 2;
   Concurrent.Resume 0;
   Concurrent.Resume 0].

Definition sample_flying : Concurrent.t :=
  state_after (E := sample_external) sample_first_requests
    (Concurrent.new {| tablet_id := "this-tablet" |}).

Definition sample_landed : Concurrent.t :=
  state_after (E := sample_external)
    [Concurrent.Enter (OpStatusReceived sample_id OK sample_response)]
    sample_flying.

(** The sample transaction is added, a call of [RequestStatusAt] and a
    call of [Abort] have queued their waiters and released the lock, and
    neither has started its RPC yet. *)
Definition sample_between_unlock_and_start : list Concurrent.Move :=
  [Concurrent.Enter (OpAdd sample_pb []);
   Concurrent.Enter (OpRequestStatusAt sample_id 10 1%nat);
   Concurrent.Enter (OpAbort sample_id 2%nat)].


(** * Properties *)

(** ** Steps that end *)

Lemma bind_Done {S A B} (m : M S A) (k : A -> M S B) s b s2 l :
  bind m k s = Done (b, s2, l) ->
  exists a s1 l1 l2,
    m s = Done (a, s1, l1) /\ k a s1 = Done (b, s2, l2) /\ l = l1 ++ l2.
Proof.
  unfold bind. destruct (m s) as [[[a s1] l1]|]; [|discriminate].
  destruct (k a s1) as [[[b' s2'] l2]|] eqn:Hk; [|discriminate].
  intros [= -> -> <-]. exists a, s1, l1, l2. auto.
Qed.

Lemma for_each_keeps_state {S A} (xs : list A) (body : A -> M S unit) :
  (forall x, keeps_state (body x)) -> keeps_state (for_each xs body).
Proof.
  intros Hbody. induction xs as [|x xs IH]; intros s a s' l; simpl.
  - unfold ret. congruence.
  - intros (? & s1 & ? & ? & H1 & H2 & _)%bind_Done.
    apply Hbody in H1. apply IH in H2. congruence.
Qed.

Lemma for_each_emit {S A} (xs : list A) (f : A -> Event) (s : S) :
  for_each xs (fun x => emit (f x)) s = Done (tt, s, List.map f xs).
Proof.
  induction xs as [|x xs IH]; simpl; [reflexivity|].
  unfold bind, emit at 1. now rewrite IH.
Qed.


(** ** The extrapolation of a cached status *)

(** C1: for every request time, known time and known status among PENDING,
    COMMITTED and ABORTED, [GetStatusAt] answers ABORTED for ABORTED at any
    times; for COMMITTED, COMMITTED when the known time is at most the
    request time and PENDING when it is later; for PENDING, PENDING when the
    known time is at least the request time and no answer when it is
    earlier. *)
Theorem GetStatusAt_table (request_time known_time : HybridTime) :
  RunningTransaction.GetStatusAt request_time known_time ABORTED
    = Done (Some ABORTED) /\
  (known_time <= request_time ->
   RunningTransaction.GetStatusAt request_time known_time COMMITTED
     = Done (Some COMMITTED)) /\
  (known_time > request_time ->
   RunningTransaction.GetStatusAt request_time known_time COMMITTED
     = Done (Some PENDING)) /\
  (known_time >= request_time ->
   RunningTransaction.GetStatusAt request_time known_time PENDING
     = Done (Some PENDING)) /\
  (known_time < request_time ->
   RunningTransaction.GetStatusAt request_time known_time PENDING
     = Done None).
Proof.
  unfold RunningTransaction.GetStatusAt.
  split; [reflexivity |].
  repeat split; intros Hcmp.
  - destruct (N.ltb_spec request_time known_time); [lia | reflexivity].
  - destruct (N.ltb_spec request_time known_time); [reflexivity | lia].
  - destruct (N.leb_spec request_time known_time); [reflexivity | lia].
  - destruct (N.leb_spec request_time known_time); [lia | reflexivity].
Qed.

(** The unit tests of section 8, through the theorem. *)
Lemma GetStatusAt_table_witness :
  RunningTransaction.GetStatusAt 10 15 COMMITTED = Done (Some PENDING) /\
  RunningTransaction.GetStatusAt 20 15 COMMITTED = Done (Some COMMITTED) /\
  RunningTransaction.GetStatusAt 10 15 PENDING = Done (Some PENDING) /\
  RunningTransaction.GetStatusAt 20 15 PENDING = Done None /\
  RunningTransaction.GetStatusAt 20 15 ABORTED = Done (Some ABORTED).
Proof.
  pose proof (GetStatusAt_table 10 15) as (_ & _ & Hc1 & Hp1 & _).
  pose proof (GetStatusAt_table 20 15) as (Ha2 & Hc2 & _ & _ & Hp2).
  refine (conj (Hc1 _) (conj (Hc2 _) (conj (Hp1 _) (conj (Hp2 _) Ha2)))); lia.
Defined.

(** ** The member functions of an entry *)

Section Entry.
Context `{E : External}.

Import RunningTransaction.

Lemma RequestStatusAt_cached time callback rpcs x st :
  cached_status time x = Done (Some st) ->
  RequestStatusAt time callback (rpcs, x)
  = Done (tt, (rpcs, x),
          [Invoke callback
             (Value {| status := st;
                       status_time := last_known_status_hybrid_time_ x |})]).
Proof.
  unfold cached_status, RequestStatusAt. intros Hc.
  unfold bind at 1. unfold this at 1. cbn [snd].
  unfold bind at 1.
  destruct (kMin <? last_known_status_hybrid_time_ x).
  - unfold lift. rewrite Hc. reflexivity.
  - discriminate.
Qed.

Lemma RequestStatusAt_crash time callback rpcs x w :
  cached_status time x = Crash w ->
  RequestStatusAt time callback (rpcs, x) = Crash w.
Proof.
  unfold cached_status, RequestStatusAt. intros Hc.
  unfold bind at 1. unfold this at 1. cbn [snd].
  unfold bind at 1.
  destruct (kMin <? last_known_status_hybrid_time_ x).
  - unfold lift. rewrite Hc. reflexivity.
  - discriminate.
Qed.

Lemma RequestStatusAt_enqueue time callback rpcs x :
  cached_status time x = Done None ->
  status_waiters_ x <> [] ->
  RequestStatusAt time callback (rpcs, x)
  = Done (tt,
          (rpcs,
           set_status_waiters_
             (status_waiters_ x ++ [{| callback := callback; time := time |}])
             x),
          []).
Proof.
  unfold cached_status, RequestStatusAt. intros Hc Hne.
  unfold bind at 1. unfold this at 1. cbn [snd].
  unfold bind at 1.
  destruct (status_waiters_ x) as [|w ws]; [congruence|].
  destruct (kMin <? _); [unfold lift; rewrite Hc|]; reflexivity.
Qed.

Lemma RequestStatusAt_start time callback rpcs x :
  cached_status time x = Done None ->
  status_waiters_ x = [] ->
  let rpc :=
    GetTransactionStatus (TransactionMetadata.status_tablet (metadata_ x))
      (TransactionMetadata.transaction_id (metadata_ x)) in
  RequestStatusAt time callback (rpcs, x)
  = Done (tt,
          (snd (Rpcs.Register rpc rpcs),
           set_get_status_handle_ (Some (Rpcs.next rpcs))
             (set_status_waiters_ [{| callback := callback; time := time |}]
                x)),
          [RpcSent (Rpcs.next rpcs) rpc]).
Proof.
  intros Hc Hempty rpc. subst rpc. unfold cached_status in Hc.
  unfold RequestStatusAt.
  unfold bind at 1. unfold this at 1. cbn [snd].
  unfold bind at 1.
  rewrite Hempty.
  destruct (kMin <? _); [unfold lift; rewrite Hc|]; reflexivity.
Qed.

Lemma answer_waiter_keeps_state time st w :
  keeps_state (answer_waiter time st w).
Proof.
  intros s a s' l. unfold answer_waiter.
  intros (o & s1 & ? & ? & H1 & H2 & _)%bind_Done.
  unfold lift in H1.
  destruct (GetStatusAtMember _ _ _); [|discriminate].
  injection H1 as <- <- <-.
  destruct a0, st; unfold emit, fatal in H2; congruence.
Qed.

(** What is left in the entry and in the registry when [StatusReceived]
    returns. *)
Lemma StatusReceived_state status response rpcs x a rpcs' x' l :
  StatusReceived status response (rpcs, x) = Done (a, (rpcs', x'), l) ->
  rpcs' = Rpcs.Unregister (get_status_handle_ x) rpcs /\
  x' =
    let idle :=
      set_status_waiters_ [] (set_get_status_handle_ Rpcs.InvalidHandle x) in
    if ok status && (last_known_status_hybrid_time_ x <=? response_time response)
    then set_last_known (gs_status response) (response_time response) idle
    else idle.
Proof.
  unfold StatusReceived, response_time.
  intros (? & s1 & ? & ? & H1 & H2 & _)%bind_Done.
  unfold Unregister in H1. injection H1 as _ <- _. cbn [fst snd] in H2.
  apply bind_Done in H2 as (? & s1 & ? & ? & H1 & H2 & _).
  unfold this in H1. injection H1 as <- <- _. cbn [fst snd] in H2.
  apply bind_Done in H2 as (? & s1 & ? & ? & H1 & H2 & _).
  unfold update in H1. injection H1 as _ <- _. cbn [fst snd] in H2.
  destruct (ok status); cbn [andb].
  - apply bind_Done in H2 as (? & s1 & ? & ? & H1 & H2 & _).
    unfold DCHECK in H1. destruct (_ && _) in H1; [discriminate|].
    injection H1 as _ <- _.
    apply bind_Done in H2 as (? & s1 & ? & ? & H1 & H2 & _).
    destruct (_ <=? _);
      injection H1 as _ <- _; cbn [fst snd] in H2;
      apply bind_Done in H2 as (? & s1 & ? & ? & H1 & H2 & _);
      injection H1 as <- <- _; cbn [fst snd] in H2;
      (apply for_each_keeps_state in H2;
       [|intros; apply answer_waiter_keeps_state]);
      injection H2 as -> ->; done.
  - apply for_each_keeps_state in H2.
    + injection H2 as -> ->. done.
    + intros w s a' s' l'. unfold emit. congruence.
Qed.

Lemma AbortReceived_eq status response rpcs x :
  AbortReceived status response (rpcs, x)
  = Done (tt,
          (Rpcs.Unregister (abort_handle_ x) rpcs,
           set_abort_waiters_ [] (set_abort_handle_ Rpcs.InvalidHandle x)),
          List.map (fun waiter => Invoke waiter (MakeAbortResult status response))
            (abort_waiters_ x)).
Proof.
  unfold AbortReceived.
  unfold bind at 1, Unregister at 1. cbn [fst snd].
  unfold bind at 1, this at 1. cbn [fst snd].
  unfold bind at 1, update at 1. cbn [fst snd].
  rewrite for_each_emit. reflexivity.
Qed.

Lemma Abort_state callback rpcs x a rpcs' x' l :
  Abort callback (rpcs, x) = Done (a, (rpcs', x'), l) ->
  metadata_ x' = metadata_ x /\
  local_commit_time_ x' = local_commit_time_ x /\
  last_known_status_ x' = last_known_status_ x /\
  last_known_status_hybrid_time_ x' = last_known_status_hybrid_time_ x /\
  status_waiters_ x' = status_waiters_ x /\
  get_status_handle_ x' = get_status_handle_ x.
Proof.
  unfold Abort.
  unfold bind at 1, this at 1. cbn [fst snd].
  unfold bind at 1, update at 1. cbn [fst snd].
  destruct (abort_waiters_ x); cbn; intros [= _ _ <- _]; repeat split.
Qed.

Lemma RequestStatusAt_state time callback rpcs x a rpcs' x' l :
  RequestStatusAt time callback (rpcs, x) = Done (a, (rpcs', x'), l) ->
  metadata_ x' = metadata_ x /\
  local_commit_time_ x' = local_commit_time_ x /\
  last_known_status_ x' = last_known_status_ x /\
  last_known_status_hybrid_time_ x' = last_known_status_hybrid_time_ x.
Proof.
  destruct (cached_status time x) as [[st|]|w] eqn:Hc.
  - rewrite (RequestStatusAt_cached _ _ _ _ _ Hc). intros [= _ _ <- _]. repeat split.
  - destruct (status_waiters_ x) as [|w ws] eqn:Hw.
    + rewrite (RequestStatusAt_start _ _ _ _ Hc Hw). intros [= _ _ <- _]. repeat split.
    + rewrite (RequestStatusAt_enqueue _ _ _ _ Hc); [|congruence].
      intros [= _ _ <- _]. repeat split.
  - rewrite (RequestStatusAt_crash _ _ _ _ _ Hc). discriminate.
Qed.

End Entry.

(** ** The operations of the participant *)

Section Participant.
Context `{E : External}.

Lemma ret_Done {S A} (a : A) (s : S) b s' l :
  ret a s = Done (b, s', l) -> b = a /\ s' = s /\ l = [].
Proof. unfold ret. now intros [= <- <- <-]. Qed.

Lemma emit_Done {S} (e : Event) (s : S) b s' l :
  emit e s = Done (b, s', l) -> s' = s /\ l = [e].
Proof. unfold emit. now intros [= _ <- <-]. Qed.

Lemma get_Done {S} (s : S) b s' l :
  get s = Done (b, s', l) -> b = s /\ s' = s /\ l = [].
Proof. unfold get. now intros [= <- <- <-]. Qed.

Lemma LOG_DFATAL_Done {S} what (s : S) b s' l :
  LOG_DFATAL what s = Done (b, s', l) -> s' = s.
Proof.
  unfold LOG_DFATAL. destruct dcheck_is_on; [discriminate|].
  now intros (-> & _)%emit_Done.
Qed.

Lemma DCHECK_Done {S} cond what (s : S) b s' l :
  DCHECK cond what s = Done (b, s', l) ->
  s' = s /\ l = [] /\ (dcheck_is_on = true -> cond = true).
Proof.
  unfold DCHECK. destruct dcheck_is_on, cond; cbn; try discriminate;
    intros (_ & -> & ->)%ret_Done; auto.
Qed.

Lemma find_Done id impl it impl' l :
  Impl.find id impl = Done (it, impl', l) ->
  impl' = impl /\ l = [] /\
  it = match Impl.transactions_ impl !! id with
       | Some x => Some (id, x)
       | None => None
       end.
Proof. unfold Impl.find. now intros [= <- <- <-]. Qed.

Lemma emplace_Done metadata impl r impl' l :
  Impl.emplace metadata impl = Done (r, impl', l) ->
  let id := TransactionMetadata.transaction_id metadata in
  l = [] /\ Impl.context_ impl' = Impl.context_ impl /\
  Impl.rpcs_ impl' = Impl.rpcs_ impl /\
  match Impl.transactions_ impl !! id with
  | Some x => r = ((id, x), false) /\ impl' = impl
  | None =>
      r = ((id, RunningTransaction.new metadata), true) /\
      Impl.transactions_ impl'
      = <[id := RunningTransaction.new metadata]> (Impl.transactions_ impl)
  end.
Proof.
  unfold Impl.emplace. cbv zeta.
  destruct (Impl.transactions_ impl !! _); intros [= <- <- <-]; auto.
Qed.

Lemma emplace_lookup metadata impl r impl' l k x :
  Impl.emplace metadata impl = Done (r, impl', l) ->
  Impl.transactions_ impl !! k = Some x ->
  Impl.transactions_ impl' !! k = Some x.
Proof.
  intros (_ & _ & _ & Hm)%emplace_Done Hk.
  destruct (Impl.transactions_ impl !! _) eqn:Hid.
  - destruct Hm as [_ ->]. exact Hk.
  - destruct Hm as [_ ->]. rewrite lookup_insert_ne; [exact Hk | congruence].
Qed.

Lemma call_Done {A} it (m : M RunningTransaction.Self A) impl a impl' l :
  Impl.call it m impl = Done (a, impl', l) ->
  exists rpcs' x',
    m (Impl.rpcs_ impl, snd it) = Done (a, (rpcs', x'), l) /\
    Impl.context_ impl' = Impl.context_ impl /\
    Impl.rpcs_ impl' = rpcs' /\
    Impl.transactions_ impl' = <[fst it := x']> (Impl.transactions_ impl).
Proof.
  unfold Impl.call.
  destruct (m _) as [[[a' [rpcs' x']] l']|]; [|discriminate].
  intros [= <- <- <-]. exists rpcs', x'. auto.
Qed.

Lemma modify_Done it f impl a impl' l :
  Impl.modify it f impl = Done (a, impl', l) ->
  l = [] /\ Impl.context_ impl' = Impl.context_ impl /\
  Impl.rpcs_ impl' = Impl.rpcs_ impl /\
  Impl.transactions_ impl' = <[fst it := f (snd it)]> (Impl.transactions_ impl).
Proof. unfold Impl.modify. intros [= _ <- <-]. auto. Qed.

Lemma PrepareAndSend_Done rpc impl a impl' l :
  Impl.PrepareAndSend rpc impl = Done (a, impl', l) ->
  l = [RpcSent (Rpcs.next (Impl.rpcs_ impl)) rpc] /\
  Impl.context_ impl' = Impl.context_ impl /\
  Impl.transactions_ impl' = Impl.transactions_ impl.
Proof. unfold Impl.PrepareAndSend. cbn. intros [= _ <- <-]. auto. Qed.

End Participant.

(** Turns the hypotheses on steps that ended into what they did. *)
Ltac run_inv :=
  repeat
    (cbv beta in *;
     match goal with
     | Hr : bind _ _ _ = Done _ |- _ =>
         apply bind_Done in Hr as (? & ? & ? & ? & ? & ? & ?)
     | Hr : ret _ _ = Done _ |- _ => apply ret_Done in Hr as (? & ? & ?)
     | Hr : emit _ _ = Done _ |- _ => apply emit_Done in Hr as (? & ?)
     | Hr : get _ = Done _ |- _ => apply get_Done in Hr as (? & ? & ?)
     | Hr : fatal _ _ = Done _ |- _ => discriminate Hr
     | Hr : Crash _ = Done _ |- _ => discriminate Hr
     | Hr : LOG_DFATAL _ _ = Done _ |- _ => apply LOG_DFATAL_Done in Hr
     | Hr : DCHECK _ _ _ = Done _ |- _ => apply DCHECK_Done in Hr as (? & ? & ?)
     | Hr : Impl.find _ _ = Done _ |- _ => apply find_Done in Hr as (? & ? & ?)
     end; subst).

(** Splits on what a step that ended looked at. *)
Ltac run_case :=
  match goal with
  | Hr : match ?o with _ => _ end _ = Done _ |- _ => destruct o eqn:?
  | Hr : (if ?o then _ else _) _ = Done _ |- _ => destruct o eqn:?
  | Hr : (let '(_, _) := ?o in _) _ = Done _ |- _ => destruct o eqn:?
  end; run_inv.

Section Steps.
Context `{E : External}.

Lemma Add_lookup data write_batch impl b impl' l k x :
  Impl.Add data write_batch impl = Done (b, impl', l) ->
  Impl.transactions_ impl !! k = Some x ->
  Impl.transactions_ impl' !! k = Some x.
Proof.
  unfold Impl.Add. intros Hrun Hk.
  destruct (TransactionMetadata.FromPB data) as [metadata|]; run_inv; [|done].
  destruct (Impl.transactions_ impl !! _) as [x0|] eqn:Hid; run_inv.
  - destruct (_ : bool); run_inv; done.
  - match goal with Hr : Impl.emplace _ _ = Done _ |- _ =>
      apply (emplace_lookup _ _ _ _ _ _ _ Hr) in Hk end.
    run_inv. done.
Qed.

Lemma FindOrLoad_lookup db id impl it impl' l k x :
  Impl.FindOrLoad db id impl = Done (it, impl', l) ->
  Impl.transactions_ impl !! k = Some x ->
  Impl.transactions_ impl' !! k = Some x.
Proof.
  unfold Impl.FindOrLoad. intros Hrun Hk. run_inv.
  destruct (Impl.transactions_ _ !! id); run_inv; [done|].
  destruct (rocksdb.Seek _ _) as [[iter_key iter_value]|]; run_inv; [|done].
  destruct (String.eqb _ _); run_inv; [|done].
  destruct (ParseFromArray _); run_inv; [|done].
  destruct (TransactionMetadata.FromPB _); run_inv; [|done].
  eauto using emplace_lookup.
Qed.

Lemma ProcessApply_failed data impl code format args :
  TransactionApplyData.ApplyIntents data = Bad code format args ->
  Impl.ProcessApply data impl = Crash (CheckFailed (Bad code format args)).
Proof. unfold Impl.ProcessApply, bind. now intros ->. Qed.

Lemma ProcessApply_absent data impl :
  TransactionApplyData.ApplyIntents data = OK ->
  Impl.transactions_ impl !! TransactionApplyData.transaction_id data = None ->
  Impl.ProcessApply data impl
  = Done (OK, impl, [Log WARNING "Apply of unknown transaction: "]).
Proof.
  unfold Impl.ProcessApply, bind, Impl.find. intros -> Hid. cbn.
  now rewrite Hid.
Qed.

Lemma ProcessApply_present data impl x :
  TransactionApplyData.ApplyIntents data = OK ->
  Impl.transactions_ impl !! TransactionApplyData.transaction_id data = Some x ->
  let rpc :=
    UpdateTransaction (TransactionApplyData.status_tablet data)
      (TransactionApplyData.transaction_id data)
      APPLIED_IN_ONE_OF_INVOLVED_TABLETS [tablet_id (Impl.context_ impl)] in
  Impl.ProcessApply data impl
  = Done (OK,
          {| Impl.context_ := Impl.context_ impl;
             Impl.rpcs_ :=
               match TransactionApplyData.mode data with
               | LEADER => snd (Rpcs.Register rpc (Impl.rpcs_ impl))
               | FOLLOWER => Impl.rpcs_ impl
               end;
             Impl.transactions_ :=
               <[TransactionApplyData.transaction_id data :=
                   RunningTransaction.SetLocalCommitTime
                     (TransactionApplyData.commit_time data) x]>
                 (Impl.transactions_ impl) |},
          match TransactionApplyData.mode data with
          | LEADER => [RpcSent (Rpcs.next (Impl.rpcs_ impl)) rpc]
          | FOLLOWER => []
          end).
Proof.
  intros Hok Hid rpc. subst rpc.
  unfold Impl.ProcessApply, bind, Impl.find. rewrite Hok. cbn.
  rewrite Hid. cbn. destruct (TransactionApplyData.mode data); reflexivity.
Qed.

Lemma call_entry {A} (id : TransactionId) (x0 : RunningTransaction.t)
    (m : M RunningTransaction.Self A) (impl : Impl.t) a impl' l
    (k : TransactionId) (x : RunningTransaction.t) :
  Impl.call (id, x0) m impl = Done (a, impl', l) ->
  Impl.transactions_ impl !! id = Some x0 ->
  Impl.transactions_ impl !! k = Some x ->
  exists x',
    Impl.transactions_ impl' !! k = Some x' /\
    if decide (id = k)
    then exists rpcs rpcs', m (rpcs, x) = Done (a, (rpcs', x'), l)
    else x' = x.
Proof.
  intros (rpcs' & x' & Hm & _ & _ & ->)%call_Done Hid Hk. cbn [fst snd] in *.
  destruct (decide (id = k)) as [->|Hne].
  - exists x'. rewrite lookup_insert_eq. split; [done|].
    assert (x0 = x) as -> by congruence. eauto.
  - exists x. now rewrite lookup_insert_ne.
Qed.

Lemma step_entry op impl impl' a l k x :
  step op impl = Done (a, impl', l) ->
  Impl.transactions_ impl !! k = Some x ->
  exists x', Impl.transactions_ impl' !! k = Some x' /\ entry_after op k x x'.
Proof.
  assert (forall A id x0 (m : M RunningTransaction.Self A) r events,
             Impl.call (id, x0) m impl = Done (r, impl', events) ->
             Impl.transactions_ impl !! id = Some x0 ->
             Impl.transactions_ impl !! k = Some x ->
             exists x',
               Impl.transactions_ impl' !! k = Some x' /\
               if decide (id = k)
               then exists rpcs rpcs' l, m (rpcs, x) = Done (r, (rpcs', x'), l)
               else x' = x) as Hcall.
  { intros A id x0 m r events Hc Hid Hk.
    destruct (call_entry _ _ _ _ _ _ _ _ _ Hc Hid Hk) as (x' & Hx' & Hd).
    exists x'. split; [done|].
    destruct (decide (id = k)); [|done].
    destruct Hd as (rpcs & rpcs' & Hm). eauto. }
  assert (forall id : TransactionId,
             Impl.transactions_ impl !! id = None ->
             Impl.transactions_ impl !! k = Some x ->
             forall P : Prop, (if decide (id = k) then P else x = x)) as Hnone.
  { intros id Hid Hk P. destruct (decide (id = k)); [congruence | done]. }
  destruct op; cbn [step entry_after]; intros Hrun Hk.
  - run_inv. eauto using Add_lookup.
  - unfold Impl.Metadata in Hrun. run_inv.
    match goal with Hr : Impl.FindOrLoad _ _ _ = Done _ |- _ =>
      apply (FindOrLoad_lookup _ _ _ _ _ _ _ _ Hr) in Hk end.
    repeat run_case; eauto.
  - unfold Impl.LocalCommitTime in Hrun. run_inv. repeat run_case; eauto.
  - unfold Impl.RequestStatusAt in Hrun. run_inv.
    destruct (Impl.transactions_ _ !! id) as [x0|] eqn:Hid; run_inv.
    + destruct a. eauto.
    + exists x. split; [done | now apply Hnone].
  - unfold Impl.Abort in Hrun. run_inv.
    destruct (Impl.transactions_ _ !! id) as [x0|] eqn:Hid; run_inv.
    + destruct a. eauto.
    + exists x. split; [done | now apply Hnone].
  - run_inv.
    destruct (TransactionApplyData.ApplyIntents data) eqn:Hok;
      [|match goal with Hr : Impl.ProcessApply _ _ = Done _ |- _ =>
          now rewrite (ProcessApply_failed _ _ _ _ _ Hok) in Hr end].
    destruct (Impl.transactions_ impl !! TransactionApplyData.transaction_id data)
      as [e0|] eqn:Hid.
    + match goal with Hr : Impl.ProcessApply _ _ = Done _ |- _ =>
        rewrite (ProcessApply_present _ _ _ Hok Hid) in Hr;
        injection Hr as _ <- _ end.
      cbn [Impl.transactions_].
      destruct (decide (TransactionApplyData.transaction_id data = k)) as [<-|].
      * rewrite lookup_insert_eq. assert (e0 = x) as -> by congruence. eauto.
      * rewrite lookup_insert_ne; eauto.
    + match goal with Hr : Impl.ProcessApply _ _ = Done _ |- _ =>
        rewrite (ProcessApply_absent _ _ Hok Hid) in Hr;
        injection Hr as _ <- _ end.
      exists x. split; [done|].
      destruct (decide (TransactionApplyData.transaction_id data = k));
        [congruence | done].
  - unfold Impl.StatusReceived in Hrun. run_inv.
    destruct (Impl.transactions_ _ !! id) as [x0|] eqn:Hid; run_inv.
    + destruct a. eauto.
    + exists x. split; [done | now apply Hnone].
  - unfold Impl.AbortReceived in Hrun. run_inv.
    destruct (Impl.transactions_ _ !! id) as [x0|] eqn:Hid; run_inv.
    + destruct a. eauto.
    + exists x. split; [done | now apply Hnone].
  - unfold Impl.UpdateTransactionDone in Hrun. injection Hrun as _ <- _. eauto.
Qed.

End Steps.

(** ** One status RPC for all the waiters *)

Section Coalescing.
Context `{E : External}.

Lemma Impl_RequestStatusAt_absent id time callback impl :
  Impl.transactions_ impl !! id = None ->
  Impl.RequestStatusAt id time callback impl
  = Done (tt, impl,
          [Invoke callback
             (Failure (Bad NotFound "Unknown transaction: $1" [ArgId id]))]).
Proof.
  intros Hid. unfold Impl.RequestStatusAt, bind, Impl.find. now rewrite Hid.
Qed.

Lemma Impl_RequestStatusAt_present id time callback impl x :
  Impl.transactions_ impl !! id = Some x ->
  Impl.RequestStatusAt id time callback impl
  = Impl.call (id, x) (RunningTransaction.RequestStatusAt time callback) impl.
Proof.
  intros Hid. unfold Impl.RequestStatusAt, bind, Impl.find. rewrite Hid.
  destruct (Impl.call _ _ _) as [[[[] s] l]|]; reflexivity.
Qed.

(** One call on an entry: nothing is sent while waiters are queued, and a
    call that finds the queue empty either leaves the entry as it is and
    sends nothing (the cache answered) or queues its waiter and sends the
    one request. *)
Lemma RequestStatusAt_coalesce time callback rpcs x rpcs' x' l :
  RunningTransaction.RequestStatusAt time callback (rpcs, x)
  = Done (tt, (rpcs', x'), l) ->
  (RunningTransaction.status_waiters_ x <> [] ->
   RunningTransaction.status_waiters_ x' <> [] /\
   RunningTransaction.get_status_handle_ x'
   = RunningTransaction.get_status_handle_ x /\
   List.filter is_get_status l = []) /\
  (RunningTransaction.status_waiters_ x = [] ->
   (x' = x /\ List.filter is_get_status l = []) \/
   (RunningTransaction.status_waiters_ x' <> [] /\
    RunningTransaction.get_status_handle_ x' <> Rpcs.InvalidHandle /\
    length (List.filter is_get_status l) = 1%nat)).
Proof.
  destruct (cached_status time x) as [[st|]|w] eqn:Hc.
  - rewrite (RequestStatusAt_cached _ _ _ _ _ Hc). intros [= <- <- <-].
    split; [intros Hne; repeat split; assumption | intros _; left; split; reflexivity].
  - destruct (RunningTransaction.status_waiters_ x) as [|w ws] eqn:Hw.
    + rewrite (RequestStatusAt_start _ _ _ _ Hc Hw). intros [= <- <- <-].
      split; [congruence | intros _; right]. repeat split; discriminate.
    + rewrite (RequestStatusAt_enqueue _ _ _ _ Hc); [|congruence].
      rewrite Hw. intros [= <- <- <-].
      split; [intros _ | congruence]. repeat split. discriminate.
  - rewrite (RequestStatusAt_crash _ _ _ _ _ Hc). discriminate.
Qed.

Lemma requests_coalesce id reqs :
  forall impl impl' l x,
    run (requests id reqs) impl = Done (tt, impl', l) ->
    Impl.transactions_ impl !! id = Some x ->
    exists x',
      Impl.transactions_ impl' !! id = Some x' /\
      (RunningTransaction.status_waiters_ x <> [] ->
       RunningTransaction.status_waiters_ x' <> [] /\
       RunningTransaction.get_status_handle_ x'
       = RunningTransaction.get_status_handle_ x /\
       List.filter is_get_status l = []) /\
      (RunningTransaction.status_waiters_ x = [] ->
       (RunningTransaction.status_waiters_ x' = [] /\
        RunningTransaction.get_status_handle_ x'
        = RunningTransaction.get_status_handle_ x /\
        List.filter is_get_status l = []) \/
       (RunningTransaction.status_waiters_ x' <> [] /\
        RunningTransaction.get_status_handle_ x' <> Rpcs.InvalidHandle /\
        length (List.filter is_get_status l) = 1%nat)).
Proof.
  induction reqs as [|[time callback] reqs IH]; intros impl impl' l x Hrun Hid.
  - apply ret_Done in Hrun as (_ & -> & ->). exists x. split; [done|].
    split; [auto | intros Hw; left; auto].
  - cbn [requests List.map run for_each step fst snd] in Hrun.
    apply bind_Done in Hrun as ([] & impl1 & l1 & l2 & Hstep & Hrest & ->).
    rewrite (Impl_RequestStatusAt_present _ _ _ _ _ Hid) in Hstep.
    apply call_Done in Hstep as (rpcs1 & x1 & Hm & _ & _ & Ht).
    cbn [fst snd] in Hm, Ht.
    apply RequestStatusAt_coalesce in Hm as [Hbusy Hidle].
    assert (Impl.transactions_ impl1 !! id = Some x1) as Hid1
      by (rewrite Ht; apply lookup_insert_eq).
    destruct (IH _ _ _ _ Hrest Hid1) as (x' & Hx' & Hbusy' & Hidle').
    exists x'. split; [exact Hx'|]. rewrite List.filter_app. split.
    + intros Hw. destruct (Hbusy Hw) as (Hw1 & Hh1 & ->).
      destruct (Hbusy' Hw1) as (Hw' & Hh' & ->). repeat split; congruence.
    + intros Hw. destruct (Hidle Hw) as [[-> ->] | (Hw1 & Hh1 & Hn1)].
      * exact (Hidle' Hw).
      * right. destruct (Hbusy' Hw1) as (Hw' & Hh' & ->).
        rewrite app_nil_r. repeat split; congruence.
Qed.

End Coalescing.

(** ** The cached status over the life of an entry *)

Section Lifetime.
Context `{E : External}.

Lemma StatusReceived_monotone status response rpcs x rpcs' x' l :
  RunningTransaction.StatusReceived status response (rpcs, x)
  = Done (tt, (rpcs', x'), l) ->
  RunningTransaction.last_known_status_hybrid_time_ x
  <= RunningTransaction.last_known_status_hybrid_time_ x'.
Proof.
  intros [_ ->]%StatusReceived_state. cbv zeta.
  destruct (ok status); cbn [andb]; [|cbn; lia].
  destruct (N.leb_spec (RunningTransaction.last_known_status_hybrid_time_ x)
              (response_time response)); cbn; lia.
Qed.

Lemma entry_after_monotone op k x x' :
  entry_after op k x x' ->
  RunningTransaction.last_known_status_hybrid_time_ x
  <= RunningTransaction.last_known_status_hybrid_time_ x'.
Proof.
  destruct op; cbn [entry_after]; try (intros ->; lia);
    destruct (decide _); try (intros ->; cbn; lia);
    intros (rpcs & rpcs' & l & Hm).
  - apply RequestStatusAt_state in Hm as (_ & _ & _ & ->). lia.
  - apply Abort_state in Hm as (_ & _ & _ & -> & _). lia.
  - eauto using StatusReceived_monotone.
  - rewrite AbortReceived_eq in Hm. injection Hm as _ <- _. cbn. lia.
Qed.

(** A relation every step keeps between an entry before and after holds
    along every sequence of operations; entries are never erased. *)
Lemma run_entry (R : RunningTransaction.t -> RunningTransaction.t -> Prop) :
  (forall x, R x x) ->
  (forall x y z, R x y -> R y z -> R x z) ->
  (forall op k x x', entry_after op k x x' -> R x x') ->
  forall ops impl impl' l k x,
    run ops impl = Done (tt, impl', l) ->
    Impl.transactions_ impl !! k = Some x ->
    exists x', Impl.transactions_ impl' !! k = Some x' /\ R x x'.
Proof.
  intros Hrefl Htrans Hstep ops.
  induction ops as [|op ops IH]; intros impl impl' l k x Hrun Hk.
  - apply ret_Done in Hrun as (_ & -> & _). eauto.
  - cbn [run for_each] in Hrun.
    apply bind_Done in Hrun as (a & impl1 & l1 & l2 & Hop & Hrest & _).
    destruct (step_entry _ _ _ _ _ _ _ Hop Hk) as (x1 & Hk1 & Hx1).
    destruct (IH _ _ _ _ _ Hrest Hk1) as (x' & Hk' & Hx').
    eauto.
Qed.

End Lifetime.

(** C3: the time of the cached status never goes back.  A
    [GetTransactionStatus] response, whose time is its [status_hybrid_time]
    if it has one and [kMax] otherwise, replaces the cached status and its
    time together, and only when its time is at least the cached one; a
    response with an earlier time, and a failed RPC, leave both as they
    were.  Along every sequence of operations of the participant the time
    an entry caches can only grow. *)
Theorem last_known_status_time_monotone `{E : External} :
  (forall status response rpcs x rpcs' x' l,
      RunningTransaction.StatusReceived status response (rpcs, x)
      = Done (tt, (rpcs', x'), l) ->
      RunningTransaction.last_known_status_hybrid_time_ x
      <= RunningTransaction.last_known_status_hybrid_time_ x' /\
      (ok status = true ->
       RunningTransaction.last_known_status_hybrid_time_ x
       <= response_time response ->
       RunningTransaction.last_known_status_ x' = Some (gs_status response) /\
       RunningTransaction.last_known_status_hybrid_time_ x'
       = response_time response) /\
      (ok status = false \/
       response_time response
       < RunningTransaction.last_known_status_hybrid_time_ x ->
       RunningTransaction.last_known_status_ x'
       = RunningTransaction.last_known_status_ x /\
       RunningTransaction.last_known_status_hybrid_time_ x'
       = RunningTransaction.last_known_status_hybrid_time_ x)) /\
  (forall ops impl impl' l id x,
      run ops impl = Done (tt, impl', l) ->
      Impl.transactions_ impl !! id = Some x ->
      exists x',
        Impl.transactions_ impl' !! id = Some x' /\
        RunningTransaction.last_known_status_hybrid_time_ x
        <= RunningTransaction.last_known_status_hybrid_time_ x').
Proof.
  split.
  - intros status response rpcs x rpcs' x' l Hrun.
    split; [eauto using StatusReceived_monotone|].
    apply StatusReceived_state in Hrun as [_ ->]. cbv zeta. split.
    + intros -> Hle. apply N.leb_le in Hle. rewrite Hle. cbn. auto.
    + intros [-> | Hlt]; [cbn; auto|].
      apply N.leb_gt in Hlt. rewrite Hlt, andb_false_r. cbn. auto.
  - apply (run_entry
             (fun x x' =>
                RunningTransaction.last_known_status_hybrid_time_ x
                <= RunningTransaction.last_known_status_hybrid_time_ x')).
    + intros x. lia.
    + intros x y z. lia.
    + apply @entry_after_monotone.
Qed.

(** PENDING at 20 is cached when the response PENDING at 15 comes: the
    entry still caches a status of time 20 or later. *)
Lemma last_known_status_time_monotone_witness :
  exists x',
    Impl.transactions_
      (after (E := sample_external)
         [OpStatusReceived sample_id OK sample_response] sample_pending_at_20)
      !! sample_id = Some x' /\
    20 <= RunningTransaction.last_known_status_hybrid_time_ x'.
Proof.
  refine (proj2 (last_known_status_time_monotone (E := sample_external))
            [OpStatusReceived sample_id OK sample_response]
            sample_pending_at_20 _
            (events_after (E := sample_external)
               [OpStatusReceived sample_id OK sample_response]
               sample_pending_at_20)
            sample_id
            (RunningTransaction.set_get_status_handle_ (Some 1%nat)
               (RunningTransaction.set_status_waiters_
                  [{| RunningTransaction.callback := 2%nat;
                      RunningTransaction.time := 30 |}]
                  (RunningTransaction.set_last_known PENDING 20
                     (RunningTransaction.new (E := sample_external)
                        sample_metadata))))
            _ _).
  - vm_compute. reflexivity.
  - vm_compute. reflexivity.
Defined.

(** ** The apply path *)

Section Apply.
Context `{E : External}.

Lemma LocalCommitTime_eq id impl :
  Impl.LocalCommitTime id impl
  = Done (match Impl.transactions_ impl !! id with
          | Some x => RunningTransaction.local_commit_time x
          | None => kInvalidHybridTime
          end, impl, []).
Proof.
  unfold Impl.LocalCommitTime, bind, Impl.find.
  destruct (Impl.transactions_ impl !! id); reflexivity.
Qed.

Lemma ProcessApply_Done data impl st impl' l :
  Impl.ProcessApply data impl = Done (st, impl', l) ->
  TransactionApplyData.ApplyIntents data = OK.
Proof.
  destruct (TransactionApplyData.ApplyIntents data) eqn:Hok; [reflexivity|].
  now rewrite (ProcessApply_failed _ _ _ _ _ Hok).
Qed.

Lemma entry_after_local_commit_time op k x x' :
  entry_after op k x x' ->
  RunningTransaction.local_commit_time_ x'
  = match op with
    | OpProcessApply data =>
        if decide (TransactionApplyData.transaction_id data = k)
        then TransactionApplyData.commit_time data
        else RunningTransaction.local_commit_time_ x
    | _ => RunningTransaction.local_commit_time_ x
    end.
Proof.
  destruct op; cbn [entry_after]; try (intros ->; reflexivity);
    destruct (decide _); try (intros ->; reflexivity);
    intros (rpcs & rpcs' & l & Hm).
  - now apply RequestStatusAt_state in Hm as (_ & -> & _).
  - now apply Abort_state in Hm as (_ & -> & _).
  - now apply StatusReceived_state in Hm as [_ ->]; cbv zeta;
      destruct (_ && _).
  - rewrite AbortReceived_eq in Hm. now injection Hm as _ <- _.
Qed.

End Apply.

(** C4, as stated, fails: the entry holds commit time 30 after a first
    [ProcessApply], and a second [ProcessApply] for the same id with commit
    time 40 replaces it. *)
Lemma local_commit_time_is_overwritten :
  ~ local_commit_time_is_final (E := sample_external).
Proof.
  intros Hfinal.
  specialize
    (Hfinal (OpProcessApply (sample_apply FOLLOWER 40))
       (after (E := sample_external)
          [OpProcessApply (sample_apply FOLLOWER 30)] sample_added)
       (after (E := sample_external)
          [OpProcessApply (sample_apply FOLLOWER 30);
           OpProcessApply (sample_apply FOLLOWER 40)] sample_added)
       [] sample_id
       (RunningTransaction.SetLocalCommitTime 30
          (RunningTransaction.new (E := sample_external) sample_metadata))
       (RunningTransaction.SetLocalCommitTime 40
          (RunningTransaction.new (E := sample_external) sample_metadata))).
  discriminate Hfinal; vm_compute; (reflexivity || discriminate).
Qed.

(** C4, amended: [local_commit_time] of an entry is written by
    [ProcessApply] for the id of the entry and by nothing else.
    [ProcessApply] sets it to the commit time of its data whatever was
    there, so a later apply keeps an earlier value exactly when it carries
    the same commit time; every other operation leaves it as it was. *)
Theorem local_commit_time_written_by_apply `{E : External}
    (op : Op) (impl impl' : Impl.t) (l : list Event)
    (id : TransactionId) (x : RunningTransaction.t) :
  step op impl = Done (tt, impl', l) ->
  Impl.transactions_ impl !! id = Some x ->
  exists x',
    Impl.transactions_ impl' !! id = Some x' /\
    RunningTransaction.local_commit_time_ x'
    = match op with
      | OpProcessApply data =>
          if decide (TransactionApplyData.transaction_id data = id)
          then TransactionApplyData.commit_time data
          else RunningTransaction.local_commit_time_ x
      | _ => RunningTransaction.local_commit_time_ x
      end.
Proof.
  intros Hstep Hid.
  destruct (step_entry _ _ _ _ _ _ _ Hstep Hid) as (x' & Hid' & Hafter).
  exists x'. split; [exact Hid'|]. now apply entry_after_local_commit_time.
Qed.

(** A retried apply with the commit time 30 of the first keeps 30. *)
Lemma local_commit_time_written_by_apply_witness :
  exists x',
    Impl.transactions_
      (after (E := sample_external)
         [OpProcessApply (sample_apply LEADER 30);
          OpProcessApply (sample_apply LEADER 30)] sample_added)
      !! sample_id = Some x' /\
    RunningTransaction.local_commit_time_ x' = 30.
Proof.
  refine (local_commit_time_written_by_apply (E := sample_external)
            (OpProcessApply (sample_apply LEADER 30))
            (after (E := sample_external)
               [OpProcessApply (sample_apply LEADER 30)] sample_added)
            _
            (events_after (E := sample_external)
               [OpProcessApply (sample_apply LEADER 30)]
               (after (E := sample_external)
                  [OpProcessApply (sample_apply LEADER 30)] sample_added))
            sample_id
            (RunningTransaction.SetLocalCommitTime 30
               (RunningTransaction.new (E := sample_external) sample_metadata))
            _ _).
  - vm_compute. reflexivity.
  - vm_compute. reflexivity.
Defined.

(** C5: when [ProcessApply] returns, it returns OK; for an id present in
    the table [LocalCommitTime] of the id is then the commit time of the
    data, and for an absent id the participant is as it was and the one
    event is the warning.  It returns whenever the applier succeeds. *)
Theorem ProcessApply_sets_local_commit_time `{E : External}
    (data : TransactionApplyData.t) (impl : Impl.t) :
  (TransactionApplyData.ApplyIntents data = OK ->
   exists impl' l, Impl.ProcessApply data impl = Done (OK, impl', l)) /\
  (forall st impl' l,
      Impl.ProcessApply data impl = Done (st, impl', l) ->
      st = OK /\
      (is_Some
         (Impl.transactions_ impl !! TransactionApplyData.transaction_id data) ->
       Impl.LocalCommitTime (TransactionApplyData.transaction_id data) impl'
       = Done (TransactionApplyData.commit_time data, impl', [])) /\
      (Impl.transactions_ impl !! TransactionApplyData.transaction_id data
       = None ->
       impl' = impl /\
       l = [Log WARNING "Apply of unknown transaction: "])).
Proof.
  split.
  - intros Hok.
    destruct (Impl.transactions_ impl !! TransactionApplyData.transaction_id data)
      as [x|] eqn:Hid.
    + rewrite (ProcessApply_present _ _ _ Hok Hid). eauto.
    + rewrite (ProcessApply_absent _ _ Hok Hid). eauto.
  - intros st impl' l Hrun.
    pose proof (ProcessApply_Done _ _ _ _ _ Hrun) as Hok.
    destruct (Impl.transactions_ impl !! TransactionApplyData.transaction_id data)
      as [x|] eqn:Hid.
    + rewrite (ProcessApply_present _ _ _ Hok Hid) in Hrun.
      injection Hrun as <- <- <-.
      split; [reflexivity|]. split; [intros _ | discriminate].
      rewrite LocalCommitTime_eq. cbn [Impl.transactions_].
      now rewrite lookup_insert_eq.
    + rewrite (ProcessApply_absent _ _ Hok Hid) in Hrun.
      injection Hrun as <- <- <-.
      split; [reflexivity|]. split; [intros [? [=]] | auto].
Qed.

(** Scenario 5 of section 8: an apply at 30 on a follower. *)
Lemma ProcessApply_sets_local_commit_time_witness :
  value_of
    (Impl.LocalCommitTime (E := sample_external) sample_id
       (after (E := sample_external)
          [OpProcessApply (sample_apply FOLLOWER 30)] sample_added))
  = Some 30.
Proof.
  pose proof
    (proj2 (ProcessApply_sets_local_commit_time (E := sample_external)
              (sample_apply FOLLOWER 30) sample_added)
       OK
       (after (E := sample_external)
          [OpProcessApply (sample_apply FOLLOWER 30)] sample_added)
       []) as Happly.
  destruct Happly as (_ & Hpresent & _); [vm_compute; reflexivity|].
  cbn [TransactionApplyData.transaction_id TransactionApplyData.commit_time
         sample_apply] in Hpresent.
  rewrite Hpresent; [reflexivity|].
  vm_compute. eexists. reflexivity.
Defined.

(** C6, as stated, fails: in LEADER mode, for an id the table does not
    hold, [ProcessApply] returns before the RPC is made and sends
    nothing. *)
Lemma ProcessApply_unknown_sends_nothing :
  ~ update_sent_iff_leader (E := sample_external)
      (sample_apply LEADER 30) sample_impl.
Proof.
  intros Hiff.
  destruct (Hiff OK sample_impl [Log WARNING "Apply of unknown transaction: "])
    as [_ Hsent]; [vm_compute; reflexivity|].
  destruct (Hsent eq_refl) as [handle [Hin|[]]]. discriminate Hin.
Qed.

(** C6, amended: for an id the table holds, [ProcessApply] sends one
    [UpdateTransaction] RPC in LEADER mode, to the status tablet of the
    data, with the status APPLIED_IN_ONE_OF_INVOLVED_TABLETS and the tablet
    id of this participant, and none in FOLLOWER mode; for an id the table
    does not hold it sends none in either mode. *)
Theorem ProcessApply_update_rpc `{E : External}
    (data : TransactionApplyData.t) (impl impl' : Impl.t) (st : Status)
    (l : list Event) :
  Impl.ProcessApply data impl = Done (st, impl', l) ->
  List.filter is_update_transaction l
  = match Impl.transactions_ impl !! TransactionApplyData.transaction_id data,
          TransactionApplyData.mode data with
    | Some _, LEADER =>
        [RpcSent (Rpcs.next (Impl.rpcs_ impl)) (applied_rpc data impl)]
    | Some _, FOLLOWER => []
    | None, _ => []
    end.
Proof.
  intros Hrun. pose proof (ProcessApply_Done _ _ _ _ _ Hrun) as Hok.
  destruct (Impl.transactions_ impl !! TransactionApplyData.transaction_id data)
    as [x|] eqn:Hid.
  - rewrite (ProcessApply_present _ _ _ Hok Hid) in Hrun.
    injection Hrun as _ _ <-.
    destruct (TransactionApplyData.mode data); reflexivity.
  - rewrite (ProcessApply_absent _ _ Hok Hid) in Hrun.
    injection Hrun as _ _ <-. reflexivity.
Qed.

(** Scenario 4 of section 8: an apply at 30 on the leader. *)
Lemma ProcessApply_update_rpc_witness :
  List.filter is_update_transaction
    (events_after (E := sample_external)
       [OpProcessApply (sample_apply LEADER 30)] sample_added)
  = [RpcSent 0
       (UpdateTransaction "status-tablet" sample_id
          APPLIED_IN_ONE_OF_INVOLVED_TABLETS ["this-tablet"])].
Proof.
  refine (eq_trans
    (ProcessApply_update_rpc (E := sample_external)
       (sample_apply LEADER 30) sample_added
       (after (E := sample_external)
          [OpProcessApply (sample_apply LEADER 30)] sample_added)
       OK _ _) _).
  - vm_compute. reflexivity.
  - vm_compute. reflexivity.
Defined.

(** ** Metadata *)

(** C7, as stated, fails: [FromPB] copies the isolation level of the
    message without looking at it, and decodes a message whose isolation
    level is no value of the enum. *)
Lemma FromPB_accepts_unknown_isolation :
  ~ unknown_isolation_is_rejected (E := sample_external).
Proof.
  intros Hrejected.
  destruct (Hrejected sample_pb_unknown_isolation eq_refl) as [s Hs].
  vm_compute in Hs. discriminate Hs.
Qed.

(** C7, amended: [FromPB] returns a decode error exactly for the messages
    whose transaction id [DecodeTransactionId] rejects, and the error is
    that of the failed decode; for every other message, whatever its
    isolation level, it returns the metadata with the decoded id and the
    four other fields as the message has them. *)
Theorem FromPB_decodes `{E : External} (source : TransactionMetadataPB) :
  (forall s,
      DecodeTransactionId (pb_transaction_id source) = Failure s ->
      TransactionMetadata.FromPB source = Failure s) /\
  (forall id,
      DecodeTransactionId (pb_transaction_id source) = Value id ->
      TransactionMetadata.FromPB source
      = Value {| TransactionMetadata.transaction_id := id;
                 TransactionMetadata.isolation := pb_isolation source;
                 TransactionMetadata.status_tablet := pb_status_tablet source;
                 TransactionMetadata.priority := pb_priority source;
                 TransactionMetadata.start_time := pb_start_hybrid_time source
              |}) /\
  (forall s,
      TransactionMetadata.FromPB source = Failure s ->
      DecodeTransactionId (pb_transaction_id source) = Failure s).
Proof.
  unfold TransactionMetadata.FromPB.
  split; [|split]; [intros s Hd | intros id Hd | intros s Hf].
  - now rewrite Hd.
  - now rewrite Hd.
  - destruct (DecodeTransactionId _); [discriminate Hf | congruence].
Qed.

(** A message with a well-formed id and one whose id is one byte short. *)
Lemma FromPB_decodes_witness :
  TransactionMetadata.FromPB (E := sample_external) sample_pb
  = Value sample_metadata /\
  TransactionMetadata.FromPB (E := sample_external)
    {| pb_transaction_id := "0123456789abcde"; pb_isolation := 1%Z;
       pb_status_tablet := "status-tablet"; pb_priority := 7;
       pb_start_hybrid_time := 5 |}
  = Failure (Bad Corruption "Invalid length of transaction id: $0" []).
Proof.
  split.
  - apply (proj1 (proj2 (FromPB_decodes (E := sample_external) sample_pb))
             sample_id).
    vm_compute. reflexivity.
  - apply (proj1 (FromPB_decodes (E := sample_external) _)).
    vm_compute. reflexivity.
Defined.

Section Table.
Context `{E : External}.

Lemma TransactionMetadata_eqb_eq (a b : TransactionMetadata.t) :
  TransactionMetadata.eqb a b = true <-> a = b.
Proof.
  unfold TransactionMetadata.eqb. destruct a, b; cbn.
  rewrite !andb_true_iff, !String.eqb_eq, Z.eqb_eq, !N.eqb_eq.
  split; [intros ((((-> & ->) & ->) & ->) & ->) | intros [= -> -> -> -> ->]];
    auto.
Qed.

Lemma Add_new data metadata write_batch impl :
  TransactionMetadata.FromPB data = Value metadata ->
  Impl.transactions_ impl !! TransactionMetadata.transaction_id metadata
  = None ->
  Impl.Add data write_batch impl
  = Done (write_batch ++
            [(AppendTransactionKeyPrefix
                (TransactionMetadata.transaction_id metadata) "",
              SerializeAsString data)],
          {| Impl.context_ := Impl.context_ impl;
             Impl.rpcs_ := Impl.rpcs_ impl;
             Impl.transactions_ :=
               <[TransactionMetadata.transaction_id metadata :=
                   RunningTransaction.new metadata]>
                 (Impl.transactions_ impl) |},
          []).
Proof.
  intros Hm Hid. unfold Impl.Add. rewrite Hm.
  unfold bind, Impl.find, Impl.emplace, ret.
  repeat (rewrite Hid; cbv beta iota zeta). reflexivity.
Qed.

Lemma Add_present data metadata write_batch impl x :
  TransactionMetadata.FromPB data = Value metadata ->
  Impl.transactions_ impl !! TransactionMetadata.transaction_id metadata
  = Some x ->
  Impl.Add data write_batch impl
  = if dcheck_is_on &&
       negb (TransactionMetadata.eqb (RunningTransaction.metadata x) metadata)
    then Crash (DCheckFailed "it->metadata() == *metadata")
    else Done (write_batch, impl, []).
Proof.
  intros Hm Hid. unfold Impl.Add. rewrite Hm.
  unfold bind, Impl.find, DCHECK. rewrite Hid.
  destruct (_ && _); reflexivity.
Qed.

End Table.

(** C8, as stated, fails in its last part: the check of [Add] on a re-add
    is a [DCHECK_EQ], so in a build without DCHECKs an [Add] for an id the
    table holds with another metadata returns as if nothing was wrong,
    with the table and the write batch as they were. *)
Lemma conflicting_add_returns_without_dchecks :
  ~ conflicting_add_is_fatal (E := sample_release).
Proof.
  intros Hfatal.
  destruct (Hfatal sample_pb_other_priority
              {| TransactionMetadata.transaction_id := sample_id;
                 TransactionMetadata.isolation := 1%Z;
                 TransactionMetadata.status_tablet := "status-tablet";
                 TransactionMetadata.priority := 8;
                 TransactionMetadata.start_time := 5 |}
              [] sample_added
              (RunningTransaction.new (E := sample_release) sample_metadata))
    as [why Hwhy].
  - vm_compute. reflexivity.
  - vm_compute. reflexivity.
  - discriminate.
  - vm_compute in Hwhy. discriminate Hwhy.
Qed.

(** C8, amended: [Add] of a decodable metadata for an id the table does
    not hold inserts the entry and enqueues the record of the encoded id
    and the serialised message; a second [Add] of the same message leaves
    the table, with its one entry for the id, and the write batch as they
    are.  An [Add] for the id with a metadata that differs fails the
    [DCHECK_EQ] of [Add]: a build that has DCHECKs on stops there, a build
    without them returns with the table, which keeps the first metadata,
    and the write batch as they are, and logs nothing. *)
Theorem Add_idempotent `{E : External}
    (data : TransactionMetadataPB) (metadata : TransactionMetadata.t)
    (impl : Impl.t) (write_batch write_batch' : rocksdb.WriteBatch) :
  TransactionMetadata.FromPB data = Value metadata ->
  Impl.transactions_ impl !! TransactionMetadata.transaction_id metadata
  = None ->
  exists impl1,
    Impl.Add data write_batch impl
    = Done (write_batch ++
              [(AppendTransactionKeyPrefix
                  (TransactionMetadata.transaction_id metadata) "",
                SerializeAsString data)],
            impl1, []) /\
    Impl.transactions_ impl1
    = <[TransactionMetadata.transaction_id metadata :=
          RunningTransaction.new metadata]> (Impl.transactions_ impl) /\
    size (Impl.transactions_ impl1) = S (size (Impl.transactions_ impl)) /\
    Impl.Add data write_batch' impl1 = Done (write_batch', impl1, []) /\
    (forall data' metadata',
        TransactionMetadata.FromPB data' = Value metadata' ->
        TransactionMetadata.transaction_id metadata'
        = TransactionMetadata.transaction_id metadata ->
        metadata' <> metadata ->
        Impl.Add data' write_batch' impl1
        = if dcheck_is_on
          then Crash (DCheckFailed "it->metadata() == *metadata")
          else Done (write_batch', impl1, [])).
Proof.
  intros Hm Hid. eexists. split; [exact (Add_new _ _ _ _ Hm Hid)|].
  cbn [Impl.transactions_]. split; [reflexivity|].
  split; [now apply map_size_insert_None|]. split.
  - erewrite Add_present;
      [| exact Hm | cbn [Impl.transactions_]; apply lookup_insert_eq].
    unfold RunningTransaction.metadata.
    cbn [RunningTransaction.metadata_ RunningTransaction.new].
    rewrite (proj2 (TransactionMetadata_eqb_eq metadata metadata) eq_refl).
    now rewrite andb_false_r.
  - intros data' metadata' Hm' Hsame Hdiff.
    erewrite Add_present;
      [| exact Hm'
       | cbn [Impl.transactions_]; rewrite Hsame; apply lookup_insert_eq].
    unfold RunningTransaction.metadata.
    cbn [RunningTransaction.metadata_ RunningTransaction.new].
    destruct (TransactionMetadata.eqb metadata metadata') eqn:Heq.
    + apply TransactionMetadata_eqb_eq in Heq. congruence.
    + now rewrite andb_true_r.
Qed.

(** The sample transaction added twice, and then with another priority:
    in a build with DCHECKs, and in a build without them. *)
Lemma Add_idempotent_witness :
  (Impl.Add (E := sample_external) sample_pb [] sample_impl
   = Done ([("ix0123456789abcdef", sample_id)], sample_added, []) /\
   Impl.Add (E := sample_external) sample_pb [] sample_added
   = Done ([], sample_added, []) /\
   Impl.Add (E := sample_external) sample_pb_other_priority [] sample_added
   = Crash (DCheckFailed "it->metadata() == *metadata")) /\
  Impl.Add (E := sample_release) sample_pb_other_priority [] sample_added
  = Done ([], sample_added, []).
Proof.
  split.
  - destruct (Add_idempotent (E := sample_external) sample_pb sample_metadata
                sample_impl [] [])
      as (impl1 & Hfirst & Ht & _ & Hsecond & Hother);
      [vm_compute; reflexivity | vm_compute; reflexivity |].
    assert (impl1 = sample_added) as ->.
    { vm_compute in Hfirst. injection Hfirst as <-. vm_compute. reflexivity. }
    split; [exact Hfirst|]. split; [exact Hsecond|].
    apply (Hother sample_pb_other_priority
             {| TransactionMetadata.transaction_id := sample_id;
                TransactionMetadata.isolation := 1%Z;
                TransactionMetadata.status_tablet := "status-tablet";
                TransactionMetadata.priority := 8;
                TransactionMetadata.start_time := 5 |}).
    + vm_compute. reflexivity.
    + reflexivity.
    + discriminate.
  - destruct (Add_idempotent (E := sample_release) sample_pb sample_metadata
                sample_impl [] [])
      as (impl1 & Hfirst & Ht & _ & Hsecond & Hother);
      [vm_compute; reflexivity | vm_compute; reflexivity |].
    assert (impl1 = sample_added) as ->.
    { vm_compute in Hfirst. injection Hfirst as <-. vm_compute. reflexivity. }
    apply (Hother sample_pb_other_priority
             {| TransactionMetadata.transaction_id := sample_id;
                TransactionMetadata.isolation := 1%Z;
                TransactionMetadata.status_tablet := "status-tablet";
                TransactionMetadata.priority := 8;
                TransactionMetadata.start_time := 5 |}).
    + vm_compute. reflexivity.
    + reflexivity.
    + discriminate.
Defined.

(** ** The completion of an abort *)

(** C9: [AbortReceived] returns; it hands the result made from the status
    of the RPC and the response (the status, with the time of the response
    or the invalid time) to each abort waiter that was queued, in order,
    empties the queue, and leaves the cached status and its time as they
    were.  So a later [RequestStatusAt] does what it would have done
    without the abort; on an entry that cached nothing and has no status
    RPC in flight it asks the status tablet, ABORTED or not. *)
Theorem AbortReceived_keeps_cached_status `{E : External}
    (status : Status) (response : AbortTransactionResponsePB)
    (rpcs : Rpcs.t) (x : RunningTransaction.t) :
  exists rpcs' x',
    RunningTransaction.AbortReceived status response (rpcs, x)
    = Done (tt, (rpcs', x'),
            List.map
              (fun waiter =>
                 Invoke waiter
                   (RunningTransaction.MakeAbortResult status response))
              (RunningTransaction.abort_waiters_ x)) /\
    RunningTransaction.MakeAbortResult status response
    = (if ok status
       then Value {| status := ab_status response;
                     status_time :=
                       match ab_status_hybrid_time response with
                       | Some v => v
                       | None => kInvalidHybridTime
                       end |}
       else Failure status) /\
    RunningTransaction.abort_waiters_ x' = [] /\
    RunningTransaction.last_known_status_ x'
    = RunningTransaction.last_known_status_ x /\
    RunningTransaction.last_known_status_hybrid_time_ x'
    = RunningTransaction.last_known_status_hybrid_time_ x /\
    (forall time callback registry,
        events_of (RunningTransaction.RequestStatusAt time callback
                     (registry, x'))
        = events_of (RunningTransaction.RequestStatusAt time callback
                       (registry, x))) /\
    (forall time callback registry,
        RunningTransaction.last_known_status_hybrid_time_ x = kMin ->
        RunningTransaction.status_waiters_ x = [] ->
        events_of (RunningTransaction.RequestStatusAt time callback
                     (registry, x'))
        = Some [RpcSent (Rpcs.next registry)
                  (GetTransactionStatus
                     (TransactionMetadata.status_tablet
                        (RunningTransaction.metadata_ x))
                     (TransactionMetadata.transaction_id
                        (RunningTransaction.metadata_ x)))]).
Proof.
  eexists _, _. split; [apply AbortReceived_eq|].
  split; [unfold RunningTransaction.MakeAbortResult; now destruct (ok status)|].
  do 3 (split; [reflexivity|]).
  set (x' := RunningTransaction.set_abort_waiters_ []
               (RunningTransaction.set_abort_handle_ Rpcs.InvalidHandle x)).
  assert (forall time, cached_status time x' = cached_status time x)
    as Hcached by reflexivity.
  split.
  - intros time callback registry.
    destruct (cached_status time x) as [[st|]|w] eqn:Hc.
    + rewrite (RequestStatusAt_cached _ _ _ _ _ Hc).
      rewrite <- Hcached in Hc. now rewrite (RequestStatusAt_cached _ _ _ _ _ Hc).
    + pose proof Hc as Hc'. rewrite <- Hcached in Hc'.
      destruct (RunningTransaction.status_waiters_ x) as [|w ws] eqn:Hw.
      * rewrite (RequestStatusAt_start _ _ _ _ Hc Hw).
        now rewrite (RequestStatusAt_start _ _ _ _ Hc' Hw).
      * rewrite (RequestStatusAt_enqueue _ _ _ _ Hc); [|congruence].
        rewrite (RequestStatusAt_enqueue _ _ _ _ Hc'); [reflexivity|].
        subst x'. cbn. congruence.
    + rewrite (RequestStatusAt_crash _ _ _ _ _ Hc).
      rewrite <- Hcached in Hc. now rewrite (RequestStatusAt_crash _ _ _ _ _ Hc).
  - intros time callback registry Hmin Hw.
    assert (cached_status time x' = Done None) as Hc.
    { rewrite Hcached. unfold cached_status. rewrite Hmin.
      now rewrite N.ltb_irrefl. }
    now rewrite (RequestStatusAt_start _ _ _ _ Hc Hw).
Qed.

(** Two callers wait for the abort of the sample transaction; the status
    tablet answers ABORTED without a time, and a request at 10 that follows
    starts a status RPC. *)
Lemma AbortReceived_keeps_cached_status_witness :
  events_after (E := sample_external)
    [OpAbort sample_id 1%nat; OpAbort sample_id 2%nat;
     OpAbortReceived sample_id OK
       {| ab_status := ABORTED; ab_status_hybrid_time := None |};
     OpRequestStatusAt sample_id 10 3%nat]
    sample_added
  = [RpcSent 0 (AbortTransaction "status-tablet" sample_id);
     Invoke 1%nat
       (Value {| status := ABORTED; status_time := 18446744073709551614 |});
     Invoke 2%nat
       (Value {| status := ABORTED; status_time := 18446744073709551614 |});
     RpcSent 1 (GetTransactionStatus "status-tablet" sample_id)] /\
  exists rpcs' x',
    RunningTransaction.AbortReceived (E := sample_external) OK
      {| ab_status := ABORTED; ab_status_hybrid_time := None |}
      (Rpcs.empty,
       RunningTransaction.set_abort_waiters_ [1%nat; 2%nat]
         (RunningTransaction.new (E := sample_external) sample_metadata))
    = Done (tt, (rpcs', x'),
            [Invoke 1%nat
               (Value {| status := ABORTED;
                         status_time := 18446744073709551614 |});
             Invoke 2%nat
               (Value {| status := ABORTED;
                         status_time := 18446744073709551614 |})]) /\
    RunningTransaction.last_known_status_ x' = None /\
    RunningTransaction.last_known_status_hybrid_time_ x' = 0.
Proof.
  split; [vm_compute; reflexivity|].
  destruct (AbortReceived_keeps_cached_status (E := sample_external) OK
              {| ab_status := ABORTED; ab_status_hybrid_time := None |}
              Rpcs.empty
              (RunningTransaction.set_abort_waiters_ [1%nat; 2%nat]
                 (RunningTransaction.new (E := sample_external)
                    sample_metadata)))
    as (rpcs' & x' & Hrun & _ & _ & Hstatus & Htime & _).
  exists rpcs', x'. split; [exact Hrun|]. split; [exact Hstatus | exact Htime].
Defined.

(** ** The lazy load *)

Section Load.
Context `{E : External}.

(** In a store whose keys grow along the records, [Seek] at the key of a
    record finds the record. *)
Lemma Seek_record (db : rocksdb.DB) (key value : string) :
  StronglySorted (fun a b => String.ltb (fst a) (fst b) = true) db ->
  In (key, value) db ->
  rocksdb.Seek db key = Some (key, value).
Proof.
  unfold rocksdb.Seek.
  induction 1 as [|record db Hsorted IH Hbelow]; intros Hin; [destruct Hin|].
  destruct Hin as [-> | Hin]; cbn.
  - now destruct (String.leb_total key key) as [-> | ->].
  - rewrite Forall_forall in Hbelow. specialize (Hbelow _ (proj2 (list_elem_of_In _ _) Hin)). cbn in Hbelow.
    unfold String.ltb in Hbelow. unfold String.leb.
    rewrite String.compare_antisym.
    destruct (String.compare (fst record) key); try discriminate. cbn.
    exact (IH Hin).
Qed.

Lemma Metadata_present db id impl x :
  Impl.transactions_ impl !! id = Some x ->
  Impl.Metadata db id impl
  = Done (Some (RunningTransaction.metadata x), impl, []).
Proof.
  intros Hid. unfold Impl.Metadata, Impl.FindOrLoad, bind, Impl.find, ret.
  now rewrite Hid.
Qed.

Lemma Metadata_load db id impl value metadata_pb metadata :
  Impl.transactions_ impl !! id = None ->
  rocksdb.Seek db (AppendTransactionKeyPrefix id "")
  = Some (AppendTransactionKeyPrefix id "", value) ->
  ParseFromArray value = Some metadata_pb ->
  TransactionMetadata.FromPB metadata_pb = Value metadata ->
  TransactionMetadata.transaction_id metadata = id ->
  Impl.Metadata db id impl
  = Done (Some metadata,
          {| Impl.context_ := Impl.context_ impl;
             Impl.rpcs_ := Impl.rpcs_ impl;
             Impl.transactions_ :=
               <[id := RunningTransaction.new metadata]>
                 (Impl.transactions_ impl) |},
          []).
Proof.
  intros Hid Hseek Hparse Hm Hsame.
  unfold Impl.Metadata, Impl.FindOrLoad, bind, Impl.find, ret.
  rewrite Hid, Hseek, String.eqb_refl, Hparse, Hm.
  unfold Impl.emplace. rewrite Hsame.
  repeat (rewrite Hid; cbv beta iota zeta). reflexivity.
Qed.

End Load.

(** C10: for an id the table does not hold and the store has the record
    of, [LocalCommitTime] returns the invalid time and leaves the table
    without the id: it looks in the table only.  [Metadata], on the same
    state, returns the metadata of the record and leaves the entry made of
    it in the table; from then on it answers from the table, whatever the
    store. *)
Theorem LocalCommitTime_does_not_load `{E : External}
    (db : rocksdb.DB) (id : TransactionId) (impl : Impl.t)
    (value : string) (metadata_pb : TransactionMetadataPB)
    (metadata : TransactionMetadata.t) :
  Impl.transactions_ impl !! id = None ->
  rocksdb.Seek db (AppendTransactionKeyPrefix id "")
  = Some (AppendTransactionKeyPrefix id "", value) ->
  ParseFromArray value = Some metadata_pb ->
  TransactionMetadata.FromPB metadata_pb = Value metadata ->
  TransactionMetadata.transaction_id metadata = id ->
  Impl.LocalCommitTime id impl = Done (kInvalidHybridTime, impl, []) /\
  exists impl1,
    Impl.Metadata db id impl = Done (Some metadata, impl1, []) /\
    Impl.transactions_ impl1
    = <[id := RunningTransaction.new metadata]> (Impl.transactions_ impl) /\
    forall db', Impl.Metadata db' id impl1 = Done (Some metadata, impl1, []).
Proof.
  intros Hid Hseek Hparse Hm Hsame. split.
  - rewrite LocalCommitTime_eq. now rewrite Hid.
  - eexists. split; [exact (Metadata_load _ _ _ _ _ _ Hid Hseek Hparse Hm Hsame)|].
    split; [reflexivity|]. intros db'.
    apply (Metadata_present db' id _ (RunningTransaction.new metadata)).
    cbn [Impl.transactions_]. apply lookup_insert_eq.
Qed.

(** Scenario 6 of section 8: the sample transaction is in the store and
    not in the table of a participant that has just started. *)
Lemma LocalCommitTime_does_not_load_witness :
  Impl.LocalCommitTime (E := sample_external) sample_id sample_impl
  = Done (18446744073709551614, sample_impl, []) /\
  exists impl1,
    Impl.Metadata (E := sample_external) sample_db sample_id sample_impl
    = Done (Some sample_metadata, impl1, []) /\
    Impl.transactions_ impl1
    = <[sample_id := RunningTransaction.new (E := sample_external)
                       sample_metadata]> (Impl.transactions_ sample_impl) /\
    forall db',
      Impl.Metadata (E := sample_external) db' sample_id impl1
      = Done (Some sample_metadata, impl1, []).
Proof.
  apply (LocalCommitTime_does_not_load (E := sample_external)
           sample_db sample_id sample_impl sample_id sample_pb
           sample_metadata).
  - vm_compute. reflexivity.
  - vm_compute. reflexivity.
  - vm_compute. reflexivity.
  - vm_compute. reflexivity.
  - reflexivity.
Defined.

(** ** The index of the table *)

Section Index.
Context `{E : External}.

Lemma entry_after_metadata op k x x' :
  entry_after op k x x' ->
  RunningTransaction.metadata_ x' = RunningTransaction.metadata_ x.
Proof.
  destruct op; cbn [entry_after]; try (intros ->; reflexivity);
    destruct (decide _); try (intros ->; reflexivity);
    intros (rpcs & rpcs' & l & Hm).
  - now apply RequestStatusAt_state in Hm as (-> & _).
  - now apply Abort_state in Hm as (-> & _).
  - now apply StatusReceived_state in Hm as [_ ->]; cbv zeta;
      destruct (_ && _).
  - rewrite AbortReceived_eq in Hm. now injection Hm as _ <- _.
Qed.

Lemma insert_new_key (t : gmap TransactionId RunningTransaction.t) i v k x :
  <[i := v]> t !! k = Some x -> t !! k = None -> i = k /\ v = x.
Proof.
  intros Hk Hnone. destruct (decide (i = k)) as [->|Hne].
  - rewrite lookup_insert_eq in Hk. split; congruence.
  - rewrite lookup_insert_ne in Hk by exact Hne. congruence.
Qed.

Lemma emplace_new_key metadata impl r impl' l k x :
  Impl.emplace metadata impl = Done (r, impl', l) ->
  Impl.transactions_ impl !! k = None ->
  Impl.transactions_ impl' !! k = Some x ->
  RunningTransaction.id x = k.
Proof.
  intros (_ & _ & _ & Hm)%emplace_Done Hnone Hk.
  destruct (Impl.transactions_ impl !! _) eqn:Hid.
  - destruct Hm as [_ ->]. congruence.
  - destruct Hm as [_ Ht]. rewrite Ht in Hk.
    now apply insert_new_key in Hk as [<- <-].
Qed.

Lemma call_no_new_key {A} (id : TransactionId) (x0 : RunningTransaction.t)
    (m : M RunningTransaction.Self A) (impl : Impl.t) a impl' l
    (k : TransactionId) (x : RunningTransaction.t) :
  Impl.call (id, x0) m impl = Done (a, impl', l) ->
  Impl.transactions_ impl !! id = Some x0 ->
  Impl.transactions_ impl !! k = None ->
  Impl.transactions_ impl' !! k = Some x ->
  False.
Proof.
  intros (rpcs' & x' & _ & _ & _ & Ht)%call_Done Hid Hnone Hk.
  cbn [fst] in Ht. rewrite Ht in Hk.
  apply insert_new_key in Hk as [<- _]; congruence.
Qed.

Lemma FindOrLoad_new_key db id impl it impl' l k x :
  Impl.FindOrLoad db id impl = Done (it, impl', l) ->
  Impl.transactions_ impl !! k = None ->
  Impl.transactions_ impl' !! k = Some x ->
  RunningTransaction.id x = k.
Proof.
  unfold Impl.FindOrLoad. intros Hrun Hnone Hk. run_inv.
  destruct (Impl.transactions_ _ !! id); run_inv; [congruence|].
  destruct (rocksdb.Seek _ _) as [[iter_key iter_value]|]; run_inv;
    [|congruence].
  destruct (String.eqb _ _); run_inv; [|congruence].
  destruct (ParseFromArray _); run_inv; [|congruence].
  destruct (TransactionMetadata.FromPB _); run_inv; [|congruence].
  eauto using emplace_new_key.
Qed.

(** An id that a step brings into the table comes with a new entry made of
    a metadata of that id. *)
Lemma step_new_key op impl impl' a l k x :
  step op impl = Done (a, impl', l) ->
  Impl.transactions_ impl !! k = None ->
  Impl.transactions_ impl' !! k = Some x ->
  RunningTransaction.id x = k.
Proof.
  destruct op; cbn [step]; intros Hrun Hnone Hk.
  - unfold Impl.Add in Hrun. run_inv.
    destruct (TransactionMetadata.FromPB data) as [metadata|]; run_inv;
      [|congruence].
    destruct (Impl.transactions_ impl !! _) as [e0|] eqn:Hid; run_inv.
    + destruct (_ : bool); run_inv; congruence.
    + match goal with Hr : Impl.emplace _ _ = Done _ |- _ =>
        pose proof (emplace_new_key _ _ _ _ _ _ x Hr Hnone) as Hnew end.
      run_inv. auto.
  - unfold Impl.Metadata in Hrun. run_inv.
    match goal with Hr : Impl.FindOrLoad _ _ _ = Done _ |- _ =>
      pose proof (fun x => FindOrLoad_new_key _ _ _ _ _ _ k x Hr Hnone)
        as Hnew end.
    repeat run_case; eauto.
  - run_inv.
    match goal with Hr : Impl.LocalCommitTime _ _ = Done _ |- _ =>
      rewrite LocalCommitTime_eq in Hr; injection Hr as _ <- _ end.
    congruence.
  - unfold Impl.RequestStatusAt in Hrun. run_inv.
    destruct (Impl.transactions_ impl !! id) as [e0|] eqn:Hid; run_inv;
      [|congruence].
    exfalso. eauto using call_no_new_key.
  - unfold Impl.Abort in Hrun. run_inv.
    destruct (Impl.transactions_ impl !! id) as [e0|] eqn:Hid; run_inv;
      [|congruence].
    exfalso. eauto using call_no_new_key.
  - run_inv.
    match goal with Hr : Impl.ProcessApply _ _ = Done _ |- _ =>
      pose proof (ProcessApply_Done _ _ _ _ _ Hr) as Hok end.
    destruct (Impl.transactions_ impl !! TransactionApplyData.transaction_id data)
      as [e0|] eqn:Hid.
    + match goal with Hr : Impl.ProcessApply _ _ = Done _ |- _ =>
        rewrite (ProcessApply_present _ _ _ Hok Hid) in Hr;
        injection Hr as _ <- _ end.
      cbn [Impl.transactions_] in Hk.
      apply insert_new_key in Hk as [<- _]; congruence.
    + match goal with Hr : Impl.ProcessApply _ _ = Done _ |- _ =>
        rewrite (ProcessApply_absent _ _ Hok Hid) in Hr;
        injection Hr as _ <- _ end.
      congruence.
  - unfold Impl.StatusReceived in Hrun. run_inv.
    destruct (Impl.transactions_ impl !! id) as [e0|] eqn:Hid; run_inv;
      [|congruence].
    exfalso. eauto using call_no_new_key.
  - unfold Impl.AbortReceived in Hrun. run_inv.
    destruct (Impl.transactions_ impl !! id) as [e0|] eqn:Hid; run_inv;
      [|congruence].
    exfalso. eauto using call_no_new_key.
  - unfold Impl.UpdateTransactionDone in Hrun. injection Hrun as _ <- _.
    cbn [Impl.transactions_] in Hk. congruence.
Qed.

(** Invariant 1 of section 3: the table of a new participant is empty, and
    every operation keeps each entry under the id of its metadata, one
    entry per id. *)
Lemma new_table_wf context : table_wf (Impl.new context).
Proof. intros k x. unfold Impl.new. cbn. now rewrite lookup_empty. Qed.

Lemma step_table_wf op impl impl' a l :
  step op impl = Done (a, impl', l) -> table_wf impl -> table_wf impl'.
Proof.
  intros Hstep Hwf k x' Hk'.
  destruct (Impl.transactions_ impl !! k) as [x|] eqn:Hk.
  - destruct (step_entry _ _ _ _ _ _ _ Hstep Hk) as (x'' & Hk'' & Hafter).
    assert (x'' = x') as -> by congruence.
    unfold RunningTransaction.id.
    rewrite (entry_after_metadata _ _ _ _ Hafter). exact (Hwf _ _ Hk).
  - eauto using step_new_key.
Qed.

Lemma run_table_wf ops :
  forall impl impl' l,
    run ops impl = Done (tt, impl', l) -> table_wf impl -> table_wf impl'.
Proof.
  induction ops as [|op ops IH]; intros impl impl' l Hrun Hwf.
  - now apply ret_Done in Hrun as (_ & -> & _).
  - cbn [run for_each] in Hrun.
    apply bind_Done in Hrun as (a & impl1 & l1 & l2 & Hop & Hrest & _).
    eauto using step_table_wf.
Qed.

End Index.

(** * Further properties *)

(** ** Sequences of steps *)

Lemma run_app `{E : External} (ops1 ops2 : list Op) (impl : Impl.t) :
  run (ops1 ++ ops2) impl = bind (run ops1) (fun _ => run ops2) impl.
Proof.
  unfold run. revert impl.
  induction ops1 as [|op ops1 IH]; intros impl; cbn [app for_each].
  - unfold bind, ret.
    destruct (for_each ops2 step impl) as [[[[] s] l]|]; reflexivity.
  - unfold bind in *.
    destruct (step op impl) as [[[[] s1] l1]|]; [|reflexivity].
    rewrite IH.
    destruct (for_each ops1 step s1) as [[[[] s2] l2]|]; [|reflexivity].
    destruct (for_each ops2 step s2) as [[[[] s3] l3]|]; [|reflexivity].
    now rewrite app_assoc.
Qed.

Lemma run_cons `{E : External} (op : Op) (ops : list Op) (impl : Impl.t) :
  run (op :: ops) impl = bind (step op) (fun _ => run ops) impl.
Proof. reflexivity. Qed.

(** ** Aborts *)

Section Aborts.
Context `{E : External}.

Lemma Abort_eq callback rpcs x :
  RunningTransaction.Abort callback (rpcs, x)
  = match RunningTransaction.abort_waiters_ x with
    | [] =>
        let rpc :=
          AbortTransaction
            (TransactionMetadata.status_tablet (RunningTransaction.metadata_ x))
            (TransactionMetadata.transaction_id
               (RunningTransaction.metadata_ x)) in
        Done (tt,
              (snd (Rpcs.Register rpc rpcs),
               RunningTransaction.set_abort_handle_ (Some (Rpcs.next rpcs))
                 (RunningTransaction.set_abort_waiters_ [callback] x)),
              [RpcSent (Rpcs.next rpcs) rpc])
    | waiters =>
        Done (tt,
              (rpcs,
               RunningTransaction.set_abort_waiters_ (waiters ++ [callback]) x),
              [])
    end.
Proof.
  unfold RunningTransaction.Abort.
  unfold bind at 1, RunningTransaction.this at 1. cbn [fst snd].
  unfold bind at 1, RunningTransaction.update at 1. cbn [fst snd].
  destruct (RunningTransaction.abort_waiters_ x); reflexivity.
Qed.

Lemma Impl_Abort_absent id callback impl :
  Impl.transactions_ impl !! id = None ->
  Impl.Abort id callback impl
  = Done (tt, impl,
          [Invoke callback
             (Failure (Bad NotFound "Unknown transaction: $1" [ArgId id]))]).
Proof.
  intros Hid. unfold Impl.Abort, bind, Impl.find. now rewrite Hid.
Qed.

Lemma Impl_Abort_present id callback impl x :
  Impl.transactions_ impl !! id = Some x ->
  Impl.Abort id callback impl
  = Impl.call (id, x) (RunningTransaction.Abort callback) impl.
Proof.
  intros Hid. unfold Impl.Abort, bind, Impl.find. rewrite Hid.
  destruct (Impl.call _ _ _) as [[[[] s] l]|]; reflexivity.
Qed.

Lemma Impl_AbortReceived_present id status response impl x :
  Impl.transactions_ impl !! id = Some x ->
  Impl.AbortReceived id status response impl
  = Impl.call (id, x) (RunningTransaction.AbortReceived status response) impl.
Proof.
  intros Hid. unfold Impl.AbortReceived, bind, Impl.find. rewrite Hid.
  destruct (Impl.call _ _ _) as [[[[] s] l]|]; reflexivity.
Qed.

(** The calls of [Abort] for an id the table holds: they never stop the
    process, the first one that finds the queue empty sends the request and
    every callback is queued behind the ones that were there. *)
Lemma aborts_run id callbacks :
  forall impl x,
    Impl.transactions_ impl !! id = Some x ->
    exists impl' x',
      run (aborts id callbacks) impl
      = Done (tt, impl',
              match RunningTransaction.abort_waiters_ x, callbacks with
              | [], _ :: _ =>
                  [RpcSent (Rpcs.next (Impl.rpcs_ impl))
                     (AbortTransaction
                        (TransactionMetadata.status_tablet
                           (RunningTransaction.metadata_ x))
                        (TransactionMetadata.transaction_id
                           (RunningTransaction.metadata_ x)))]
              | _, _ => []
              end) /\
      Impl.transactions_ impl' !! id = Some x' /\
      RunningTransaction.abort_waiters_ x'
      = RunningTransaction.abort_waiters_ x ++ callbacks /\
      RunningTransaction.metadata_ x' = RunningTransaction.metadata_ x /\
      RunningTransaction.status_waiters_ x'
      = RunningTransaction.status_waiters_ x /\
      RunningTransaction.last_known_status_ x'
      = RunningTransaction.last_known_status_ x /\
      RunningTransaction.last_known_status_hybrid_time_ x'
      = RunningTransaction.last_known_status_hybrid_time_ x /\
      RunningTransaction.local_commit_time_ x'
      = RunningTransaction.local_commit_time_ x.
Proof.
  induction callbacks as [|callback callbacks IH]; intros impl x Hid.
  - exists impl, x. rewrite app_nil_r.
    destruct (RunningTransaction.abort_waiters_ x); repeat split; assumption.
  - cbn [aborts List.map]. fold (aborts id callbacks). rewrite run_cons.
    cbn [step]. unfold bind.
    rewrite (Impl_Abort_present _ _ _ _ Hid). unfold Impl.call. cbn [fst snd].
    rewrite Abort_eq.
    destruct (RunningTransaction.abort_waiters_ x) as [|w ws] eqn:Hw;
      cbv beta iota zeta;
      lazymatch goal with
      | |- context [run (aborts id callbacks) ?s] =>
          destruct (IH s _ (lookup_insert_eq (Impl.transactions_ impl) id _))
            as (impl' & x' & -> & Hid' & Hq & Hm & Hs & Hk & Ht & Hc)
      end;
      cbn in Hq, Hm, Hs, Hk, Ht, Hc; exists impl', x'; cbn.
    + repeat split; assumption.
    + rewrite <- app_assoc in Hq. repeat split; assumption.
Qed.

End Aborts.

(** X1: the calls of [Abort] for an id whose entry has no abort waiter
    never stop the process and start one [AbortTransaction] RPC, to the
    status tablet of the transaction, however many they are (none if there
    is no call); the callbacks are queued in the order of the calls, and
    the cached status, its time, the status waiters and the local commit
    time of the entry are as they were. *)
Theorem aborts_start_one_rpc `{E : External}
    (id : TransactionId) (callbacks : list TransactionStatusCallback)
    (impl : Impl.t) (x : RunningTransaction.t) :
  Impl.transactions_ impl !! id = Some x ->
  RunningTransaction.abort_waiters_ x = [] ->
  exists impl' x',
    run (aborts id callbacks) impl
    = Done (tt, impl',
            match callbacks with
            | [] => []
            | _ :: _ =>
                [RpcSent (Rpcs.next (Impl.rpcs_ impl))
                   (AbortTransaction
                      (TransactionMetadata.status_tablet
                         (RunningTransaction.metadata_ x))
                      (TransactionMetadata.transaction_id
                         (RunningTransaction.metadata_ x)))]
            end) /\
    Impl.transactions_ impl' !! id = Some x' /\
    RunningTransaction.abort_waiters_ x' = callbacks /\
    RunningTransaction.status_waiters_ x'
    = RunningTransaction.status_waiters_ x /\
    RunningTransaction.last_known_status_ x'
    = RunningTransaction.last_known_status_ x /\
    RunningTransaction.last_known_status_hybrid_time_ x'
    = RunningTransaction.last_known_status_hybrid_time_ x /\
    RunningTransaction.local_commit_time_ x'
    = RunningTransaction.local_commit_time_ x.
Proof.
  intros Hid Hw.
  destruct (aborts_run id callbacks impl x Hid)
    as (impl' & x' & Hrun & Hid' & Hq & _ & Hs & Hk & Ht & Hc).
  rewrite Hw in Hrun, Hq. exists impl', x'.
  split; [rewrite Hrun; now destruct callbacks|]. auto 10.
Qed.

(** Scenario 3 of section 8: five concurrent aborts, one RPC. *)
Lemma aborts_start_one_rpc_witness :
  events_after (E := sample_external)
    (aborts sample_id [1; 2; 3; 4; 5]%nat) sample_added
  = [RpcSent 0 (AbortTransaction "status-tablet" sample_id)].
Proof.
  destruct (aborts_start_one_rpc (E := sample_external) sample_id
              [1; 2; 3; 4; 5]%nat sample_added
              (RunningTransaction.new (E := sample_external) sample_metadata))
    as (impl' & x' & Hrun & _); [vm_compute; reflexivity | reflexivity |].
  unfold events_after. rewrite Hrun. reflexivity.
Defined.

(** X2: when the [AbortTransaction] RPC the calls of [Abort] wait for
    completes, each of the callbacks is called once, in the order of the
    calls, all with the same result: the failure of the RPC, or the status
    of the response with its time (the invalid time if it has none).  The
    queue is empty afterwards. *)
Theorem aborts_answered_together `{E : External}
    (id : TransactionId) (callbacks : list TransactionStatusCallback)
    (status : Status) (response : AbortTransactionResponsePB)
    (impl : Impl.t) (x : RunningTransaction.t) :
  Impl.transactions_ impl !! id = Some x ->
  RunningTransaction.abort_waiters_ x = [] ->
  exists impl' x',
    run (aborts id callbacks ++ [OpAbortReceived id status response]) impl
    = Done (tt, impl',
            match callbacks with
            | [] => []
            | _ :: _ =>
                [RpcSent (Rpcs.next (Impl.rpcs_ impl))
                   (AbortTransaction
                      (TransactionMetadata.status_tablet
                         (RunningTransaction.metadata_ x))
                      (TransactionMetadata.transaction_id
                         (RunningTransaction.metadata_ x)))]
            end ++
            List.map
              (fun callback =>
                 Invoke callback
                   (if ok status
                    then Value
                           {| status := ab_status response;
                              status_time :=
                                match ab_status_hybrid_time response with
                                | Some v => v
                                | None => kInvalidHybridTime
                                end |}
                    else Failure status))
              callbacks) /\
    Impl.transactions_ impl' !! id = Some x' /\
    RunningTransaction.abort_waiters_ x' = [] /\
    RunningTransaction.abort_handle_ x' = Rpcs.InvalidHandle.
Proof.
  intros Hid Hw.
  destruct (aborts_run id callbacks impl x Hid)
    as (impl1 & x1 & Hrun & Hid1 & Hq & _).
  rewrite Hw in Hrun, Hq. cbn [app] in Hq.
  rewrite run_app. unfold bind. rewrite Hrun.
  unfold run. cbn [for_each step]. unfold bind, ret.
  rewrite (Impl_AbortReceived_present _ _ _ _ _ Hid1).
  unfold Impl.call. cbn [fst snd]. rewrite AbortReceived_eq, Hq.
  eexists _, _. split.
  - repeat f_equal. rewrite app_nil_r. apply List.map_ext. intros callback.
    unfold RunningTransaction.MakeAbortResult. now destruct (ok status).
  - cbn [Impl.transactions_]. split; [apply lookup_insert_eq|].
    split; reflexivity.
Qed.

(** Scenario 3 of section 8, to its end: the status tablet answers ABORTED
    without a time. *)
Lemma aborts_answered_together_witness :
  events_after (E := sample_external)
    (aborts sample_id [1; 2]%nat ++
     [OpAbortReceived sample_id OK
        {| ab_status := ABORTED; ab_status_hybrid_time := None |}])
    sample_added
  = [RpcSent 0 (AbortTransaction "status-tablet" sample_id);
     Invoke 1%nat
       (Value {| status := ABORTED; status_time := 18446744073709551614 |});
     Invoke 2%nat
       (Value {| status := ABORTED; status_time := 18446744073709551614 |})].
Proof.
  destruct (aborts_answered_together (E := sample_external) sample_id
              [1; 2]%nat OK
              {| ab_status := ABORTED; ab_status_hybrid_time := None |}
              sample_added
              (RunningTransaction.new (E := sample_external) sample_metadata))
    as (impl' & x' & Hrun & _); [vm_compute; reflexivity | reflexivity |].
  unfold events_after. rewrite Hrun. reflexivity.
Defined.

(** X3: for an id the table does not hold, [RequestStatusAt] and [Abort]
    call the callback once, with a NotFound status, send nothing and leave
    the participant as it was; they do not look in the store. *)
Theorem unknown_transaction_not_found `{E : External}
    (id : TransactionId) (time : HybridTime)
    (callback : TransactionStatusCallback) (impl : Impl.t) :
  Impl.transactions_ impl !! id = None ->
  Impl.RequestStatusAt id time callback impl
  = Done (tt, impl,
          [Invoke callback
             (Failure (Bad NotFound "Unknown transaction: $1" [ArgId id]))]) /\
  Impl.Abort id callback impl
  = Done (tt, impl,
          [Invoke callback
             (Failure (Bad NotFound "Unknown transaction: $1" [ArgId id]))]).
Proof.
  intros Hid. split.
  - now apply Impl_RequestStatusAt_absent.
  - now apply Impl_Abort_absent.
Qed.

(** Scenario 7 of section 8: a request for an id that was never added. *)
Lemma unknown_transaction_not_found_witness :
  Impl.RequestStatusAt (E := sample_external) "fedcba9876543210" 10 1%nat
    sample_added
  = Done (tt, sample_added,
          [Invoke 1%nat
             (Failure
                (Bad NotFound "Unknown transaction: $1"
                   [ArgId "fedcba9876543210"]))]).
Proof.
  apply (unknown_transaction_not_found (E := sample_external)
           "fedcba9876543210" 10 1%nat sample_added).
  vm_compute. reflexivity.
Defined.

(** ** The answers to the status waiters *)

Section Answers.
Context `{E : External}.

Lemma answer_waiter_eq time s waiter (self : RunningTransaction.Self) :
  known_to_participant s = true ->
  RunningTransaction.answer_waiter time (Some s) waiter self
  = Done (tt, self, [answer_event time s waiter]).
Proof.
  intros Hs.
  unfold RunningTransaction.answer_waiter, answer_event, bind, lift,
    RunningTransaction.GetStatusAtMember, RunningTransaction.GetStatusAt.
  destruct s; try discriminate Hs; try reflexivity.
  destruct (RunningTransaction.time waiter <=? time); reflexivity.
Qed.

Lemma for_each_answer_waiter time s waiters (self : RunningTransaction.Self) :
  known_to_participant s = true ->
  for_each waiters (RunningTransaction.answer_waiter time (Some s)) self
  = Done (tt, self, List.map (answer_event time s) waiters).
Proof.
  intros Hs. induction waiters as [|waiter waiters IH]; [reflexivity|].
  cbn [for_each List.map]. unfold bind.
  now rewrite (answer_waiter_eq _ _ _ _ Hs), IH.
Qed.

Lemma StatusReceived_failed status response rpcs x :
  ok status = false ->
  RunningTransaction.StatusReceived status response (rpcs, x)
  = Done (tt,
          (Rpcs.Unregister (RunningTransaction.get_status_handle_ x) rpcs,
           RunningTransaction.set_status_waiters_ []
             (RunningTransaction.set_get_status_handle_ Rpcs.InvalidHandle x)),
          List.map
            (fun waiter =>
               Invoke (RunningTransaction.callback waiter) (Failure status))
            (RunningTransaction.status_waiters_ x)).
Proof.
  intros Hok. unfold RunningTransaction.StatusReceived.
  unfold bind at 1, RunningTransaction.Unregister at 1. cbn [fst snd].
  unfold bind at 1, RunningTransaction.this at 1. cbn [fst snd].
  unfold bind at 1, RunningTransaction.update at 1. cbn [fst snd].
  rewrite Hok, for_each_emit. reflexivity.
Qed.

Lemma StatusReceived_prefix status response rpcs x :
  ok status = true ->
  (dcheck_is_on = true -> has_time_or_aborted response = true) ->
  RunningTransaction.StatusReceived status response (rpcs, x)
  = let idle :=
      RunningTransaction.set_status_waiters_ []
        (RunningTransaction.set_get_status_handle_ Rpcs.InvalidHandle x) in
    let x' :=
      if RunningTransaction.last_known_status_hybrid_time_ x
         <=? response_time response
      then RunningTransaction.set_last_known (gs_status response)
             (response_time response) idle
      else idle in
    for_each (RunningTransaction.status_waiters_ x)
      (RunningTransaction.answer_waiter
         (RunningTransaction.last_known_status_hybrid_time_ x')
         (RunningTransaction.last_known_status_ x'))
      (Rpcs.Unregister (RunningTransaction.get_status_handle_ x) rpcs, x').
Proof.
  intros Hok Hcheck. unfold has_time_or_aborted in Hcheck.
  unfold RunningTransaction.StatusReceived, response_time, bind,
    RunningTransaction.Unregister, RunningTransaction.this,
    RunningTransaction.update, DCHECK, ret, fatal.
  cbn [fst snd RunningTransaction.status_waiters_
         RunningTransaction.last_known_status_hybrid_time_
         RunningTransaction.set_get_status_handle_
         RunningTransaction.set_status_waiters_].
  rewrite Hok.
  destruct dcheck_is_on; [rewrite (Hcheck eq_refl)|]; cbn [andb negb];
    (destruct (RunningTransaction.last_known_status_hybrid_time_ x <=? _);
     cbn [fst snd];
     destruct (for_each _ _ _) as [[[[] s] l]|]; reflexivity).
Qed.

Lemma StatusReceived_answered status response rpcs x time s :
  ok status = true ->
  (dcheck_is_on = true -> has_time_or_aborted response = true) ->
  snapshot response x = (time, Some s) ->
  known_to_participant s = true ->
  RunningTransaction.StatusReceived status response (rpcs, x)
  = Done (tt,
          (Rpcs.Unregister (RunningTransaction.get_status_handle_ x) rpcs,
           RunningTransaction.set_last_known s time
             (RunningTransaction.set_status_waiters_ []
                (RunningTransaction.set_get_status_handle_ Rpcs.InvalidHandle
                   x))),
          List.map (answer_event time s)
            (RunningTransaction.status_waiters_ x)).
Proof.
  intros Hok Hcheck Hsnap Hs.
  rewrite (StatusReceived_prefix _ _ _ _ Hok Hcheck). cbv zeta.
  unfold snapshot in Hsnap.
  destruct (RunningTransaction.last_known_status_hybrid_time_ x
            <=? response_time response).
  - injection Hsnap as <- <-. cbn [RunningTransaction.set_last_known
      RunningTransaction.last_known_status_
      RunningTransaction.last_known_status_hybrid_time_].
    now rewrite (for_each_answer_waiter _ _ _ _ Hs).
  - injection Hsnap as <- Hlast.
    cbn [RunningTransaction.set_status_waiters_
           RunningTransaction.set_get_status_handle_
           RunningTransaction.last_known_status_
           RunningTransaction.last_known_status_hybrid_time_].
    rewrite Hlast, (for_each_answer_waiter _ _ _ _ Hs).
    do 3 f_equal. destruct x. cbn in *. now subst.
Qed.

Lemma StatusReceived_dcheck status response rpcs x :
  ok status = true ->
  dcheck_is_on && negb (has_time_or_aborted response) = true ->
  RunningTransaction.StatusReceived status response (rpcs, x)
  = Crash (DCheckFailed has_time_or_aborted_text).
Proof.
  intros Hok Hcheck. unfold has_time_or_aborted in Hcheck.
  unfold RunningTransaction.StatusReceived, bind,
    RunningTransaction.Unregister, RunningTransaction.this,
    RunningTransaction.update, DCHECK, fatal.
  cbn [fst snd]. now rewrite Hok, Hcheck.
Qed.

Lemma dcheck_passes response :
  dcheck_is_on && negb (has_time_or_aborted response) = false ->
  dcheck_is_on = true -> has_time_or_aborted response = true.
Proof. intros Hcheck Hon. rewrite Hon in Hcheck. now destruct (has_time_or_aborted _). Qed.

End Answers.

(** X4: when the [GetTransactionStatus] RPC fails, [StatusReceived] calls
    each queued waiter once, in the order they were queued, with the
    status of the failed RPC; it empties the queue, gives up the handle and
    leaves the cached status and its time as they were. *)
Theorem StatusReceived_failure_reaches_every_waiter `{E : External}
    (status : Status) (response : GetTransactionStatusResponsePB)
    (rpcs : Rpcs.t) (x : RunningTransaction.t) :
  ok status = false ->
  exists rpcs' x',
    RunningTransaction.StatusReceived status response (rpcs, x)
    = Done (tt, (rpcs', x'),
            List.map
              (fun waiter =>
                 Invoke (RunningTransaction.callback waiter) (Failure status))
              (RunningTransaction.status_waiters_ x)) /\
    RunningTransaction.status_waiters_ x' = [] /\
    RunningTransaction.get_status_handle_ x' = Rpcs.InvalidHandle /\
    RunningTransaction.last_known_status_ x'
    = RunningTransaction.last_known_status_ x /\
    RunningTransaction.last_known_status_hybrid_time_ x'
    = RunningTransaction.last_known_status_hybrid_time_ x.
Proof.
  intros Hok. eexists _, _.
  split; [exact (StatusReceived_failed _ _ _ _ Hok)|]. repeat split.
Qed.

(** The status RPC of the sample transaction times out with two waiters
    queued. *)
Lemma StatusReceived_failure_reaches_every_waiter_witness :
  events_after (E := sample_external)
    [OpRequestStatusAt sample_id 12 2%nat;
     OpStatusReceived sample_id (Bad (OtherCode 4) "timed out" [])
       sample_response]
    sample_busy
  = [Invoke 1%nat (Failure (Bad (OtherCode 4) "timed out" []));
     Invoke 2%nat (Failure (Bad (OtherCode 4) "timed out" []))] /\
  exists rpcs' x',
    RunningTransaction.StatusReceived (E := sample_external)
      (Bad (OtherCode 4) "timed out" []) sample_response
      (Rpcs.empty,
       RunningTransaction.set_status_waiters_
         [{| RunningTransaction.callback := 1%nat;
             RunningTransaction.time := 10 |}]
         (RunningTransaction.new (E := sample_external) sample_metadata))
    = Done (tt, (rpcs', x'),
            [Invoke 1%nat (Failure (Bad (OtherCode 4) "timed out" []))]).
Proof.
  split; [vm_compute; reflexivity|].
  destruct (StatusReceived_failure_reaches_every_waiter
              (E := sample_external)
              (Bad (OtherCode 4) "timed out" []) sample_response Rpcs.empty
              (RunningTransaction.set_status_waiters_
                 [{| RunningTransaction.callback := 1%nat;
                     RunningTransaction.time := 10 |}]
                 (RunningTransaction.new (E := sample_external)
                    sample_metadata)) eq_refl)
    as (rpcs' & x' & Hrun & _).
  exists rpcs', x'. exact Hrun.
Defined.

(** X5: when the RPC succeeds, [StatusReceived] first checks the
    response: a build with DCHECKs stops at the DCHECK if the response has
    no hybrid time and its status is not ABORTED.  Otherwise the entry
    caches the pair of the response if the time of the response (kMax when
    it has none) is not before the cached time, and keeps its pair
    otherwise.  If that pair has a status and the status is PENDING,
    COMMITTED or ABORTED, [StatusReceived] returns and calls each queued
    waiter once, in the order they were queued: with the status
    [GetStatusAt] extrapolates from the pair to the time the waiter asked
    for, together with the time of the pair, or with TryAgain when the pair
    says nothing for that time.  It empties the queue and gives up the
    handle. *)
Theorem StatusReceived_answers_every_waiter `{E : External}
    (status : Status) (response : GetTransactionStatusResponsePB)
    (rpcs : Rpcs.t) (x : RunningTransaction.t) :
  ok status = true ->
  (dcheck_is_on && negb (has_time_or_aborted response) = true ->
   RunningTransaction.StatusReceived status response (rpcs, x)
   = Crash (DCheckFailed has_time_or_aborted_text)) /\
  (dcheck_is_on && negb (has_time_or_aborted response) = false ->
   forall (time : HybridTime) (s : TransactionStatus),
     snapshot response x = (time, Some s) ->
     known_to_participant s = true ->
     exists rpcs' x',
       RunningTransaction.StatusReceived status response (rpcs, x)
       = Done (tt, (rpcs', x'),
               List.map (answer_event time s)
                 (RunningTransaction.status_waiters_ x)) /\
       RunningTransaction.last_known_status_ x' = Some s /\
       RunningTransaction.last_known_status_hybrid_time_ x' = time /\
       RunningTransaction.status_waiters_ x' = [] /\
       RunningTransaction.get_status_handle_ x' = Rpcs.InvalidHandle).
Proof.
  intros Hok. split.
  - exact (StatusReceived_dcheck _ _ _ _ Hok).
  - intros Hcheck time s Hsnap Hs. eexists _, _.
    split;
      [exact (StatusReceived_answered _ _ _ _ _ _ Hok (dcheck_passes _ Hcheck)
                Hsnap Hs)|].
    repeat split.
Qed.

(** PENDING at 15 for a waiter at 10 and a waiter at 20: the first is told
    PENDING, the second to try again.  PENDING without a time stops a
    build with DCHECKs. *)
Lemma StatusReceived_answers_every_waiter_witness :
  (exists rpcs' x',
      RunningTransaction.StatusReceived (E := sample_external) OK
        sample_response
        (Rpcs.empty,
         RunningTransaction.set_status_waiters_
           [{| RunningTransaction.callback := 1%nat;
               RunningTransaction.time := 10 |};
            {| RunningTransaction.callback := 2%nat;
               RunningTransaction.time := 20 |}]
           (RunningTransaction.new (E := sample_external) sample_metadata))
      = Done (tt, (rpcs', x'),
              [Invoke 1%nat (Value {| status := PENDING; status_time := 15 |});
               Invoke 2%nat
                 (Failure
                    (Bad TryAgain
                       "Cannot determine transaction status at $0, last known: $1 at $2"
                       [ArgTime 20; ArgStatus PENDING; ArgTime 15]))])) /\
  RunningTransaction.StatusReceived (E := sample_external) OK
    sample_response_without_time
    (Rpcs.empty,
     RunningTransaction.new (E := sample_external) sample_metadata)
  = Crash (DCheckFailed has_time_or_aborted_text).
Proof.
  split.
  - destruct (proj2
                (StatusReceived_answers_every_waiter (E := sample_external) OK
                   sample_response Rpcs.empty
                   (RunningTransaction.set_status_waiters_
                      [{| RunningTransaction.callback := 1%nat;
                          RunningTransaction.time := 10 |};
                       {| RunningTransaction.callback := 2%nat;
                          RunningTransaction.time := 20 |}]
                      (RunningTransaction.new (E := sample_external)
                         sample_metadata))
                   eq_refl)
                eq_refl 15 PENDING eq_refl eq_refl)
      as (rpcs' & x' & Hrun & _).
    exists rpcs', x'. exact Hrun.
  - exact (proj1
             (StatusReceived_answers_every_waiter (E := sample_external) OK
                sample_response_without_time Rpcs.empty
                (RunningTransaction.new (E := sample_external) sample_metadata)
                eq_refl)
             eq_refl).
Defined.

(** ** Requests the cache cannot answer, and requests it can *)

Section Requests.
Context `{E : External}.

Lemma Impl_StatusReceived_present id status response impl x :
  Impl.transactions_ impl !! id = Some x ->
  Impl.StatusReceived id status response impl
  = Impl.call (id, x) (RunningTransaction.StatusReceived status response) impl.
Proof.
  intros Hid. unfold Impl.StatusReceived, bind, Impl.find. rewrite Hid.
  destruct (Impl.call _ _ _) as [[[[] s] l]|]; reflexivity.
Qed.

(** Requests, for an id the table holds, none of which the cache answers:
    they never stop the process, the first one that finds the queue empty
    sends the request and every waiter is queued behind the ones that were
    there. *)
Lemma requests_queue id reqs :
  forall impl x,
    Impl.transactions_ impl !! id = Some x ->
    Forall (fun r => cached_status (fst r) x = Done None) reqs ->
    exists impl' x',
      run (requests id reqs) impl
      = Done (tt, impl',
              match RunningTransaction.status_waiters_ x, reqs with
              | [], _ :: _ =>
                  [RpcSent (Rpcs.next (Impl.rpcs_ impl))
                     (GetTransactionStatus
                        (TransactionMetadata.status_tablet
                           (RunningTransaction.metadata_ x))
                        (TransactionMetadata.transaction_id
                           (RunningTransaction.metadata_ x)))]
              | _, _ => []
              end) /\
      Impl.transactions_ impl' !! id = Some x' /\
      RunningTransaction.status_waiters_ x'
      = RunningTransaction.status_waiters_ x ++ waiters_of reqs /\
      RunningTransaction.last_known_status_ x'
      = RunningTransaction.last_known_status_ x /\
      RunningTransaction.last_known_status_hybrid_time_ x'
      = RunningTransaction.last_known_status_hybrid_time_ x.
Proof.
  induction reqs as [|[time callback] reqs IH]; intros impl x Hid Hall.
  - exists impl, x. cbn [waiters_of List.map]. rewrite app_nil_r.
    destruct (RunningTransaction.status_waiters_ x); repeat split; assumption.
  - apply Forall_cons_1 in Hall as [Hmiss Hall]. cbn [fst] in Hmiss.
    cbn [requests List.map fst snd]. fold (requests id reqs). rewrite run_cons.
    cbn [step]. unfold bind.
    rewrite (Impl_RequestStatusAt_present _ _ _ _ _ Hid).
    unfold Impl.call. cbn [fst snd].
    destruct (RunningTransaction.status_waiters_ x) as [|w ws] eqn:Hw.
    + rewrite (RequestStatusAt_start _ _ _ _ Hmiss Hw). cbv beta iota zeta.
      lazymatch goal with
      | |- context [run (requests id reqs) ?s] =>
          destruct (IH s _ (lookup_insert_eq (Impl.transactions_ impl) id _)
                      Hall)
            as (impl' & x' & -> & Hid' & Hq & Hk & Ht)
      end.
      cbn in Hq, Hk, Ht. exists impl', x'. cbn. repeat split; assumption.
    + rewrite (RequestStatusAt_enqueue _ _ _ _ Hmiss); [|congruence].
      cbv beta iota zeta.
      lazymatch goal with
      | |- context [run (requests id reqs) ?s] =>
          destruct (IH s _ (lookup_insert_eq (Impl.transactions_ impl) id _)
                      Hall)
            as (impl' & x' & -> & Hid' & Hq & Hk & Ht)
      end.
      cbn in Hq, Hk, Ht. rewrite Hw in Hq. cbn in Hq.
      exists impl', x'. rewrite Hw. cbn. rewrite <- app_assoc in Hq.
      repeat split; assumption.
Qed.

Lemma Impl_RequestStatusAt_cached id time callback impl x st :
  Impl.transactions_ impl !! id = Some x ->
  cached_status time x = Done (Some st) ->
  Impl.RequestStatusAt id time callback impl
  = Done (tt, impl,
          [Invoke callback
             (Value {| status := st;
                       status_time :=
                         RunningTransaction.last_known_status_hybrid_time_ x
                    |})]).
Proof.
  intros Hid Hc. rewrite (Impl_RequestStatusAt_present _ _ _ _ _ Hid).
  unfold Impl.call. cbn [fst snd].
  rewrite (RequestStatusAt_cached _ _ _ _ _ Hc).
  destruct impl as [context rpcs transactions]. cbn in *.
  now rewrite (insert_id _ _ _ Hid).
Qed.

End Requests.

(** X6: requests for an id whose entry is in the table and has no waiter,
    none of which the cache answers, followed by the completion of the RPC
    with the status OK.  A build with DCHECKs stops at the DCHECK of
    [StatusReceived] if the response has no hybrid time and its status is
    not ABORTED.  Otherwise, if the cached pair after the response has a
    status that is PENDING, COMMITTED or ABORTED, the requests start one
    RPC (none when there is no request), and at the completion every
    callback is called once, in the order of the requests, with the status
    extrapolated to the time it asked for, or with TryAgain; the entry then
    holds that pair and no waiter. *)
Theorem queued_requests_answered `{E : External}
    (id : TransactionId)
    (reqs : list (HybridTime * TransactionStatusCallback))
    (status : Status) (response : GetTransactionStatusResponsePB)
    (impl : Impl.t) (x : RunningTransaction.t) :
  Impl.transactions_ impl !! id = Some x ->
  RunningTransaction.status_waiters_ x = [] ->
  Forall (fun r => cached_status (fst r) x = Done None) reqs ->
  ok status = true ->
  (dcheck_is_on && negb (has_time_or_aborted response) = true ->
   run (requests id reqs ++ [OpStatusReceived id status response]) impl
   = Crash (DCheckFailed has_time_or_aborted_text)) /\
  (dcheck_is_on && negb (has_time_or_aborted response) = false ->
   forall (time : HybridTime) (s : TransactionStatus),
     snapshot response x = (time, Some s) ->
     known_to_participant s = true ->
     exists impl' x',
       run (requests id reqs ++ [OpStatusReceived id status response]) impl
       = Done (tt, impl',
               match reqs with
               | [] => []
               | _ :: _ =>
                   [RpcSent (Rpcs.next (Impl.rpcs_ impl))
                      (GetTransactionStatus
                         (TransactionMetadata.status_tablet
                            (RunningTransaction.metadata_ x))
                         (TransactionMetadata.transaction_id
                            (RunningTransaction.metadata_ x)))]
               end ++
               List.map (answer_event time s) (waiters_of reqs)) /\
       Impl.transactions_ impl' !! id = Some x' /\
       RunningTransaction.last_known_status_ x' = Some s /\
       RunningTransaction.last_known_status_hybrid_time_ x' = time /\
       RunningTransaction.status_waiters_ x' = []).
Proof.
  intros Hid Hw Hall Hok.
  destruct (requests_queue id reqs impl x Hid Hall)
    as (impl1 & x1 & Hrun & Hid1 & Hq & Hk & Ht).
  rewrite Hw in Hrun, Hq. cbn [app] in Hq.
  rewrite run_app. unfold bind. rewrite Hrun.
  unfold run. cbn [for_each step]. unfold bind, ret.
  rewrite (Impl_StatusReceived_present _ _ _ _ _ Hid1).
  unfold Impl.call. cbn [fst snd].
  split.
  - intros Hcheck. now rewrite (StatusReceived_dcheck _ _ _ _ Hok Hcheck).
  - intros Hcheck time s Hsnap Hs.
    assert (snapshot response x1 = (time, Some s)) as Hsnap1.
    { unfold snapshot in *. now rewrite Ht, Hk. }
    rewrite (StatusReceived_answered _ _ _ _ _ _ Hok (dcheck_passes _ Hcheck)
               Hsnap1 Hs), Hq.
    eexists _, _. split.
    + repeat f_equal. now rewrite app_nil_r.
    + cbn [Impl.transactions_]. split; [apply lookup_insert_eq|].
      repeat split.
Qed.

(** Scenario 2 of section 8, with three requests at 10: one RPC, and at
    its completion with PENDING at 15 every callback gets PENDING at 15.
    With PENDING and no time, a build with DCHECKs stops. *)
Lemma queued_requests_answered_witness :
  events_after (E := sample_external)
    (requests sample_id [(10, 1%nat); (10, 2%nat); (10, 3%nat)] ++
     [OpStatusReceived sample_id OK sample_response])
    sample_added
  = [RpcSent 0 (GetTransactionStatus "status-tablet" sample_id);
     Invoke 1%nat (Value {| status := PENDING; status_time := 15 |});
     Invoke 2%nat (Value {| status := PENDING; status_time := 15 |});
     Invoke 3%nat (Value {| status := PENDING; status_time := 15 |})] /\
  run (E := sample_external)
    (requests sample_id [(10, 1%nat)] ++
     [OpStatusReceived sample_id OK sample_response_without_time])
    sample_added
  = Crash (DCheckFailed has_time_or_aborted_text).
Proof.
  split.
  - destruct (queued_requests_answered (E := sample_external) sample_id
                [(10, 1%nat); (10, 2%nat); (10, 3%nat)] OK sample_response
                sample_added
                (RunningTransaction.new (E := sample_external) sample_metadata))
      as [_ Hanswered].
    + vm_compute. reflexivity.
    + reflexivity.
    + repeat constructor.
    + reflexivity.
    + destruct (Hanswered eq_refl 15 PENDING eq_refl eq_refl)
        as (impl' & x' & Hrun & _).
      unfold events_after. rewrite Hrun. reflexivity.
  - refine (proj1
              (queued_requests_answered (E := sample_external) sample_id
                 [(10, 1%nat)] OK sample_response_without_time sample_added
                 (RunningTransaction.new (E := sample_external)
                    sample_metadata)
                 _ _ _ _) _).
    + vm_compute. reflexivity.
    + reflexivity.
    + repeat constructor.
    + reflexivity.
    + reflexivity.
Defined.

(** X7: while an entry caches COMMITTED or ABORTED, at a time after
    [kMin], every [RequestStatusAt] for its id is answered at once from the
    cache, with the cached time: ABORTED for ABORTED; for COMMITTED, PENDING
    for a request before the cached time and COMMITTED otherwise.  No RPC
    is sent, no waiter is queued, the participant is as it was. *)
Theorem terminal_status_needs_no_rpc `{E : External}
    (id : TransactionId)
    (reqs : list (HybridTime * TransactionStatusCallback))
    (impl : Impl.t) (x : RunningTransaction.t) (s : TransactionStatus) :
  Impl.transactions_ impl !! id = Some x ->
  kMin < RunningTransaction.last_known_status_hybrid_time_ x ->
  RunningTransaction.last_known_status_ x = Some s ->
  s = COMMITTED \/ s = ABORTED ->
  run (requests id reqs) impl
  = Done (tt, impl,
          List.map
            (fun r =>
               Invoke (snd r)
                 (Value
                    {| status :=
                         match s with
                         | ABORTED => ABORTED
                         | _ =>
                             if fst r <?
                                RunningTransaction.last_known_status_hybrid_time_ x
                             then PENDING
                             else COMMITTED
                         end;
                       status_time :=
                         RunningTransaction.last_known_status_hybrid_time_ x
                    |}))
            reqs).
Proof.
  intros Hid Hmin Hlast Hs.
  induction reqs as [|[time callback] reqs IH]; [reflexivity|].
  cbn [requests List.map fst snd]. fold (requests id reqs). rewrite run_cons.
  cbn [step]. unfold bind.
  erewrite Impl_RequestStatusAt_cached; [|exact Hid|].
  - rewrite IH. reflexivity.
  - unfold cached_status. apply N.ltb_lt in Hmin. rewrite Hmin, Hlast.
    destruct Hs as [-> | ->]; reflexivity.
Qed.

(** Scenario 1 of section 8: COMMITTED at 20 is cached; a request at 10 is
    told PENDING and a request at 25 COMMITTED, both with time 20. *)
Lemma terminal_status_needs_no_rpc_witness :
  events_after (E := sample_external)
    (requests sample_id [(10, 2%nat); (25, 3%nat)])
    (after (E := sample_external)
       [OpStatusReceived sample_id OK
          {| gs_status := COMMITTED; gs_status_hybrid_time := Some 20 |}]
       sample_busy)
  = [Invoke 2%nat (Value {| status := PENDING; status_time := 20 |});
     Invoke 3%nat (Value {| status := COMMITTED; status_time := 20 |})].
Proof.
  unfold events_after.
  rewrite (terminal_status_needs_no_rpc (E := sample_external) sample_id
             [(10, 2%nat); (25, 3%nat)]
             (after (E := sample_external)
                [OpStatusReceived sample_id OK
                   {| gs_status := COMMITTED;
                      gs_status_hybrid_time := Some 20 |}]
                sample_busy)
             (RunningTransaction.set_last_known COMMITTED 20
                (RunningTransaction.new (E := sample_external)
                   sample_metadata))
             COMMITTED).
  - reflexivity.
  - vm_compute. reflexivity.
  - reflexivity.
  - reflexivity.
  - left. reflexivity.
Defined.

(** X8: a status other than PENDING, COMMITTED and ABORTED, whether the
    file names it or not, stops the process where [GetStatusAt] meets it:
    [GetStatusAt] itself at any times; [StatusReceived], for a successful
    RPC, when it is the status to answer waiters with and a waiter is
    queued, unless the DCHECK on the response has stopped a build with
    DCHECKs before; [RequestStatusAt], when it is the status cached at a
    time after [kMin]. *)
Theorem unknown_status_is_fatal `{E : External}
    (rpcs : Rpcs.t) (x : RunningTransaction.t) (s : TransactionStatus) :
  known_to_participant s = false ->
  (forall time known_time,
      RunningTransaction.GetStatusAt time known_time s
      = Crash (InvalidEnumValue s)) /\
  (forall status response time,
      ok status = true ->
      snapshot response x = (time, Some s) ->
      RunningTransaction.status_waiters_ x <> [] ->
      RunningTransaction.StatusReceived status response (rpcs, x)
      = Crash
          (if dcheck_is_on && negb (has_time_or_aborted response)
           then DCheckFailed has_time_or_aborted_text
           else InvalidEnumValue s)) /\
  (forall time callback,
      RunningTransaction.last_known_status_ x = Some s ->
      kMin < RunningTransaction.last_known_status_hybrid_time_ x ->
      RunningTransaction.RequestStatusAt time callback (rpcs, x)
      = Crash (InvalidEnumValue s)).
Proof.
  intros Hs. split; [|split].
  - intros time known_time. destruct s; try discriminate Hs; reflexivity.
  - intros status response time Hok Hsnap Hw.
    destruct (dcheck_is_on && negb (has_time_or_aborted response)) eqn:Hcheck;
      [exact (StatusReceived_dcheck _ _ _ _ Hok Hcheck)|].
    rewrite (StatusReceived_prefix _ _ _ _ Hok (dcheck_passes _ Hcheck)).
    cbv zeta.
    destruct (RunningTransaction.status_waiters_ x) as [|w ws]; [congruence|].
    unfold snapshot in Hsnap. cbn [for_each]. unfold bind at 1.
    unfold RunningTransaction.answer_waiter at 1. unfold bind at 1, lift at 1.
    destruct (RunningTransaction.last_known_status_hybrid_time_ x
              <=? response_time response);
      injection Hsnap as Ht Hlast; cbn; cbn in Hlast; rewrite ?Hlast;
      unfold RunningTransaction.GetStatusAtMember;
      destruct s; try discriminate Hs; try discriminate Hlast;
      try (injection Hlast as ->); reflexivity.
  - intros time callback Hlast Hmin. apply RequestStatusAt_crash.
    unfold cached_status. apply N.ltb_lt in Hmin. rewrite Hmin, Hlast.
    destruct s; try discriminate Hs; reflexivity.
Qed.

(** A response with the status APPLIED_IN_ONE_OF_INVOLVED_TABLETS while a
    waiter is queued, and a request on an entry that caches a status the
    file does not name. *)
Lemma unknown_status_is_fatal_witness :
  RunningTransaction.StatusReceived (E := sample_external) OK
    {| gs_status := APPLIED_IN_ONE_OF_INVOLVED_TABLETS;
       gs_status_hybrid_time := Some 15 |}
    (Rpcs.empty,
     RunningTransaction.set_status_waiters_
       [{| RunningTransaction.callback := 1%nat;
           RunningTransaction.time := 10 |}]
       (RunningTransaction.new (E := sample_external) sample_metadata))
  = Crash (InvalidEnumValue APPLIED_IN_ONE_OF_INVOLVED_TABLETS) /\
  RunningTransaction.RequestStatusAt (E := sample_external) 10 1%nat
    (Rpcs.empty,
     RunningTransaction.set_last_known (TransactionStatus_other 1) 15
       (RunningTransaction.new (E := sample_external) sample_metadata))
  = Crash (InvalidEnumValue (TransactionStatus_other 1)).
Proof.
  split.
  - apply (proj1 (proj2
      (unknown_status_is_fatal (E := sample_external) Rpcs.empty
         (RunningTransaction.set_status_waiters_
            [{| RunningTransaction.callback := 1%nat;
                RunningTransaction.time := 10 |}]
            (RunningTransaction.new (E := sample_external) sample_metadata))
         APPLIED_IN_ONE_OF_INVOLVED_TABLETS eq_refl))
      OK {| gs_status := APPLIED_IN_ONE_OF_INVOLVED_TABLETS;
            gs_status_hybrid_time := Some 15 |} 15).
    + reflexivity.
    + reflexivity.
    + discriminate.
  - apply (proj2 (proj2
      (unknown_status_is_fatal (E := sample_external) Rpcs.empty
         (RunningTransaction.set_last_known (TransactionStatus_other 1) 15
            (RunningTransaction.new (E := sample_external) sample_metadata))
         (TransactionStatus_other 1) eq_refl))).
    + reflexivity.
    + reflexivity.
Defined.

(** ** What the table keeps *)

(** X9: in every state a new participant reaches through the operations,
    each entry of the table is held under the transaction id of its own
    metadata, so the table has one entry per transaction id. *)
Theorem table_wf_reachable `{E : External}
    (context : TransactionParticipantContext) (ops : list Op)
    (impl : Impl.t) (l : list Event) :
  run ops (Impl.new context) = Done (tt, impl, l) ->
  table_wf impl.
Proof.
  intros Hrun. apply (run_table_wf ops _ _ _ Hrun). apply new_table_wf.
Qed.

(** The sample transaction is loaded from the store, applied and asked
    about. *)
Lemma table_wf_reachable_witness :
  table_wf
    (after (E := sample_external)
       [OpMetadata sample_db sample_id;
        OpProcessApply (sample_apply LEADER 30);
        OpRequestStatusAt sample_id 10 1%nat]
       sample_impl).
Proof.
  apply (table_wf_reachable (E := sample_external)
           {| tablet_id := "this-tablet" |}
           [OpMetadata sample_db sample_id;
            OpProcessApply (sample_apply LEADER 30);
            OpRequestStatusAt sample_id 10 1%nat]
           _
           (events_after (E := sample_external)
              [OpMetadata sample_db sample_id;
               OpProcessApply (sample_apply LEADER 30);
               OpRequestStatusAt sample_id 10 1%nat]
              sample_impl)).
  vm_compute. reflexivity.
Defined.

(** X10: no operation erases an entry or changes its metadata: along
    every sequence of operations an id the table holds stays in the table
    with the metadata it had, and [Metadata] of the id returns that
    metadata from the table, whatever the store holds. *)
Theorem metadata_is_kept `{E : External}
    (ops : list Op) (impl impl' : Impl.t) (l : list Event)
    (id : TransactionId) (x : RunningTransaction.t) :
  run ops impl = Done (tt, impl', l) ->
  Impl.transactions_ impl !! id = Some x ->
  (exists x',
      Impl.transactions_ impl' !! id = Some x' /\
      RunningTransaction.metadata_ x' = RunningTransaction.metadata_ x) /\
  forall db,
    Impl.Metadata db id impl'
    = Done (Some (RunningTransaction.metadata_ x), impl', []).
Proof.
  intros Hrun Hid.
  destruct (run_entry
              (fun a b =>
                 RunningTransaction.metadata_ b = RunningTransaction.metadata_ a)
              (fun _ => eq_refl)
              (fun a b c Hab Hbc => eq_trans Hbc Hab)
              (@entry_after_metadata E)
              ops impl impl' l id x Hrun Hid) as (x' & Hid' & Hm).
  split; [eauto|]. intros db.
  rewrite (Metadata_present _ _ _ _ Hid'). unfold RunningTransaction.metadata.
  now rewrite Hm.
Qed.

(** The sample transaction after an apply, a request and the completion of
    the RPC. *)
Lemma metadata_is_kept_witness :
  Impl.Metadata (E := sample_external) [] sample_id
    (after (E := sample_external)
       [OpProcessApply (sample_apply LEADER 30);
        OpRequestStatusAt sample_id 10 1%nat;
        OpStatusReceived sample_id OK sample_response]
       sample_added)
  = Done (Some sample_metadata,
          after (E := sample_external)
            [OpProcessApply (sample_apply LEADER 30);
             OpRequestStatusAt sample_id 10 1%nat;
             OpStatusReceived sample_id OK sample_response]
            sample_added, []).
Proof.
  apply (proj2
    (metadata_is_kept (E := sample_external)
       [OpProcessApply (sample_apply LEADER 30);
        OpRequestStatusAt sample_id 10 1%nat;
        OpStatusReceived sample_id OK sample_response]
       sample_added _
       (events_after (E := sample_external)
          [OpProcessApply (sample_apply LEADER 30);
           OpRequestStatusAt sample_id 10 1%nat;
           OpStatusReceived sample_id OK sample_response]
          sample_added)
       sample_id
       (RunningTransaction.new (E := sample_external) sample_metadata)
       ltac:(vm_compute; reflexivity) ltac:(vm_compute; reflexivity))).
Defined.

(** X11: [Add], [Metadata] and [LocalCommitTime] never touch an entry
    that is in the table: after any of them, for any message, store or id,
    every entry is exactly as it was, with its local commit time, its
    cached status and its waiters. *)
Theorem entries_survive_add_and_load `{E : External}
    (op : Op) (impl impl' : Impl.t) (l : list Event)
    (k : TransactionId) (x : RunningTransaction.t) :
  match op with
  | OpAdd _ _ | OpMetadata _ _ | OpLocalCommitTime _ => True
  | _ => False
  end ->
  step op impl = Done (tt, impl', l) ->
  Impl.transactions_ impl !! k = Some x ->
  Impl.transactions_ impl' !! k = Some x.
Proof.
  intros Hop Hstep Hk.
  destruct (step_entry _ _ _ _ _ _ _ Hstep Hk) as (x' & Hk' & Hafter).
  destruct op; try contradiction; cbn [entry_after] in Hafter; congruence.
Qed.

(** The sample transaction is applied at 30 and then added again: the
    entry keeps the commit time. *)
Lemma entries_survive_add_and_load_witness :
  Impl.transactions_
    (after (E := sample_external)
       [OpProcessApply (sample_apply FOLLOWER 30); OpAdd sample_pb []]
       sample_added)
    !! sample_id
  = Some (RunningTransaction.SetLocalCommitTime 30
            (RunningTransaction.new (E := sample_external) sample_metadata)).
Proof.
  apply (entries_survive_add_and_load (E := sample_external)
           (OpAdd sample_pb [])
           (after (E := sample_external)
              [OpProcessApply (sample_apply FOLLOWER 30)] sample_added)
           _ [] sample_id _ I).
  - vm_compute. reflexivity.
  - vm_compute. reflexivity.
Defined.

(** ** The entries a step brings in *)

Section Queues.
Context `{E : External}.

Lemma emplace_new_entry metadata impl r impl' l k x :
  Impl.emplace metadata impl = Done (r, impl', l) ->
  Impl.transactions_ impl !! k = None ->
  Impl.transactions_ impl' !! k = Some x ->
  x = RunningTransaction.new metadata.
Proof.
  intros (_ & _ & _ & Hm)%emplace_Done Hnone Hk.
  destruct (Impl.transactions_ impl !! _) eqn:Hid.
  - destruct Hm as [_ ->]. congruence.
  - destruct Hm as [_ Ht]. rewrite Ht in Hk.
    now apply insert_new_key in Hk as [_ <-].
Qed.

Lemma FindOrLoad_new_entry db id impl it impl' l k x :
  Impl.FindOrLoad db id impl = Done (it, impl', l) ->
  Impl.transactions_ impl !! k = None ->
  Impl.transactions_ impl' !! k = Some x ->
  exists metadata, x = RunningTransaction.new metadata.
Proof.
  unfold Impl.FindOrLoad. intros Hrun Hnone Hk. run_inv.
  destruct (Impl.transactions_ _ !! id); run_inv; [congruence|].
  destruct (rocksdb.Seek _ _) as [[iter_key iter_value]|]; run_inv;
    [|congruence].
  destruct (String.eqb _ _); run_inv; [|congruence].
  destruct (ParseFromArray _); run_inv; [|congruence].
  destruct (TransactionMetadata.FromPB _); run_inv; [|congruence].
  eauto using emplace_new_entry.
Qed.

(** An entry a step brings into the table is a new one: no commit time,
    nothing cached, no waiter, no handle. *)
Lemma step_new_entry op impl impl' a l k x :
  step op impl = Done (a, impl', l) ->
  Impl.transactions_ impl !! k = None ->
  Impl.transactions_ impl' !! k = Some x ->
  exists metadata, x = RunningTransaction.new metadata.
Proof.
  destruct op; cbn [step]; intros Hrun Hnone Hk.
  - unfold Impl.Add in Hrun. run_inv.
    destruct (TransactionMetadata.FromPB data) as [metadata|]; run_inv;
      [|congruence].
    destruct (Impl.transactions_ impl !! _) as [e0|] eqn:Hid; run_inv.
    + destruct (_ : bool); run_inv; congruence.
    + match goal with Hr : Impl.emplace _ _ = Done _ |- _ =>
        pose proof (emplace_new_entry _ _ _ _ _ _ x Hr Hnone) as Hnew end.
      run_inv. eauto.
  - unfold Impl.Metadata in Hrun. run_inv.
    match goal with Hr : Impl.FindOrLoad _ _ _ = Done _ |- _ =>
      pose proof (fun x => FindOrLoad_new_entry _ _ _ _ _ _ k x Hr Hnone)
        as Hnew end.
    repeat run_case; eauto.
  - run_inv.
    match goal with Hr : Impl.LocalCommitTime _ _ = Done _ |- _ =>
      rewrite LocalCommitTime_eq in Hr; injection Hr as _ <- _ end.
    congruence.
  - unfold Impl.RequestStatusAt in Hrun. run_inv.
    destruct (Impl.transactions_ impl !! id) as [e0|] eqn:Hid; run_inv;
      [|congruence].
    exfalso. eauto using call_no_new_key.
  - unfold Impl.Abort in Hrun. run_inv.
    destruct (Impl.transactions_ impl !! id) as [e0|] eqn:Hid; run_inv;
      [|congruence].
    exfalso. eauto using call_no_new_key.
  - run_inv.
    match goal with Hr : Impl.ProcessApply _ _ = Done _ |- _ =>
      pose proof (ProcessApply_Done _ _ _ _ _ Hr) as Hok end.
    destruct (Impl.transactions_ impl !! TransactionApplyData.transaction_id data)
      as [e0|] eqn:Hid.
    + match goal with Hr : Impl.ProcessApply _ _ = Done _ |- _ =>
        rewrite (ProcessApply_present _ _ _ Hok Hid) in Hr;
        injection Hr as _ <- _ end.
      cbn [Impl.transactions_] in Hk.
      apply insert_new_key in Hk as [<- _]; congruence.
    + match goal with Hr : Impl.ProcessApply _ _ = Done _ |- _ =>
        rewrite (ProcessApply_absent _ _ Hok Hid) in Hr;
        injection Hr as _ <- _ end.
      congruence.
  - unfold Impl.StatusReceived in Hrun. run_inv.
    destruct (Impl.transactions_ impl !! id) as [e0|] eqn:Hid; run_inv;
      [|congruence].
    exfalso. eauto using call_no_new_key.
  - unfold Impl.AbortReceived in Hrun. run_inv.
    destruct (Impl.transactions_ impl !! id) as [e0|] eqn:Hid; run_inv;
      [|congruence].
    exfalso. eauto using call_no_new_key.
  - unfold Impl.UpdateTransactionDone in Hrun. injection Hrun as _ <- _.
    cbn [Impl.transactions_] in Hk. congruence.
Qed.

End Queues.


(** ** Keys and records *)

Section Codec.
Context `{E : External}.

Lemma append_cancel (out a b : string) :
  (out ++ a)%string = (out ++ b)%string -> a = b.
Proof.
  induction out as [|c out IH]; cbn; [trivial|]. intros [= H]. auto.
Qed.

Lemma append_length (a b : string) :
  String.length (a ++ b) = (String.length a + String.length b)%nat.
Proof. induction a as [|c a IH]; simpl; [reflexivity | now f_equal]. Qed.

Lemma prefix_same_length (a b : string) :
  String.prefix a b = true -> String.length a = String.length b -> a = b.
Proof.
  revert b. induction a as [|c a IH]; intros [|d b]; cbn; try discriminate;
    [reflexivity|].
  destruct (ascii_dec c d) as [->|]; [|discriminate].
  intros Hp [= Hl]. f_equal. auto.
Qed.

Lemma append_cons (x : ascii) (a b : string) :
  (String x a ++ b)%string = String x (a ++ b)%string.
Proof. reflexivity. Qed.

Lemma append_assoc (a b c : string) :
  (a ++ (b ++ c))%string = ((a ++ b) ++ c)%string.
Proof.
  induction a as [|x a IH]; [reflexivity|].
  rewrite !append_cons. now f_equal.
Qed.

Lemma prefix_append (a b : string) : String.prefix a (a ++ b) = true.
Proof.
  induction a as [|x a IH]; [now destruct b|].
  rewrite append_cons. cbn [String.prefix].
  destruct (ascii_dec x x); [exact IH | contradiction].
Qed.

Lemma get_append (a b : string) (x : ascii) :
  String.get (String.length a) (a ++ String x b) = Some x.
Proof.
  induction a as [|y a IH]; [reflexivity|].
  rewrite append_cons. exact IH.
Qed.

Lemma substring_all (a : string) : String.substring 0 (String.length a) a = a.
Proof.
  induction a as [|y a IH]; [reflexivity|].
  cbn [String.length String.substring]. now f_equal.
Qed.

Lemma substring_append (a b : string) :
  String.substring (String.length a) (String.length b) (a ++ b) = b.
Proof.
  induction a as [|y a IH]; [apply substring_all|].
  rewrite append_cons. exact IH.
Qed.

End Codec.

(** X13: [AppendTransactionKeyPrefix] appends to the key the byte
    [kIntentPrefix], the byte [kTransactionId] and the bytes of the id, in
    this order, and keeps the bytes the key had: the key so far is a prefix
    of the result, the two bytes after it are the two value types, the
    bytes after them are the id, and the key grows by two plus the length
    of the id.  So two ids that give the same key are the same id, and if
    the key of an id is a prefix of the key of an id of the same length
    the two ids are the same. *)
Theorem AppendTransactionKeyPrefix_injective `{E : External}
    (id1 id2 : TransactionId) (out : string) :
  String.prefix out (AppendTransactionKeyPrefix id1 out) = true /\
  String.get (String.length out) (AppendTransactionKeyPrefix id1 out)
  = Some kIntentPrefix /\
  String.get (S (String.length out)) (AppendTransactionKeyPrefix id1 out)
  = Some kTransactionId /\
  String.substring (String.length out + 2) (String.length id1)
    (AppendTransactionKeyPrefix id1 out) = id1 /\
  String.length (AppendTransactionKeyPrefix id1 out)
  = (String.length out + 2 + String.length id1)%nat /\
  (AppendTransactionKeyPrefix id1 out = AppendTransactionKeyPrefix id2 out ->
   id1 = id2) /\
  (String.prefix (AppendTransactionKeyPrefix id1 "")
     (AppendTransactionKeyPrefix id2 "") = true ->
   String.length id1 = String.length id2 ->
   id1 = id2).
Proof.
  unfold AppendTransactionKeyPrefix. repeat split.
  - apply prefix_append.
  - apply get_append.
  - change (String kIntentPrefix (String kTransactionId id1))
      with (String.append (String kIntentPrefix EmptyString)
              (String kTransactionId id1)).
    rewrite append_assoc.
    replace (S (String.length out))
      with (String.length (out ++ String kIntentPrefix EmptyString))
      by (rewrite append_length; cbn; lia).
    apply get_append.
  - change (String kIntentPrefix (String kTransactionId id1))
      with (String.append
              (String kIntentPrefix (String kTransactionId EmptyString)) id1).
    rewrite append_assoc.
    replace (String.length out + 2)%nat
      with (String.length
              (out ++ String kIntentPrefix (String kTransactionId EmptyString)))
      by (rewrite append_length; cbn; lia).
    apply substring_append.
  - rewrite append_length. cbn. lia.
  - intros Hsame. apply append_cancel in Hsame. now injection Hsame.
  - simpl. destruct (ascii_dec kIntentPrefix kIntentPrefix); [|contradiction].
    destruct (ascii_dec kTransactionId kTransactionId); [|contradiction].
    apply prefix_same_length.
Qed.

(** The key of the sample transaction, alone and after the bytes of
    another key. *)
Lemma AppendTransactionKeyPrefix_injective_witness :
  String.length
    (AppendTransactionKeyPrefix (E := sample_external) sample_id "") = 18%nat /\
  String.substring 5 16
    (AppendTransactionKeyPrefix (E := sample_external) sample_id "key")
  = sample_id /\
  AppendTransactionKeyPrefix (E := sample_external) sample_id "key"
  = "keyix0123456789abcdef".
Proof.
  pose proof (AppendTransactionKeyPrefix_injective (E := sample_external)
                sample_id sample_id "") as (_ & _ & _ & _ & Hlength & _).
  pose proof (AppendTransactionKeyPrefix_injective (E := sample_external)
                sample_id sample_id "key") as (_ & _ & _ & Hid & _).
  exact (conj Hlength (conj Hid eq_refl)).
Defined.

(** X14: [operator==] on metadata is structural equality: it is true
    exactly when the two values have the same id, isolation level, status
    tablet, priority and start time. *)
Theorem TransactionMetadata_eqb_structural (lhs rhs : TransactionMetadata.t) :
  TransactionMetadata.eqb lhs rhs = true <->
  TransactionMetadata.transaction_id lhs
  = TransactionMetadata.transaction_id rhs /\
  TransactionMetadata.isolation lhs = TransactionMetadata.isolation rhs /\
  TransactionMetadata.status_tablet lhs
  = TransactionMetadata.status_tablet rhs /\
  TransactionMetadata.priority lhs = TransactionMetadata.priority rhs /\
  TransactionMetadata.start_time lhs = TransactionMetadata.start_time rhs.
Proof.
  unfold TransactionMetadata.eqb.
  rewrite !andb_true_iff, !String.eqb_eq, Z.eqb_eq, !N.eqb_eq. tauto.
Qed.

(** ** What [Add] and [Metadata] do with the store *)

(** X15: [Add] of a message whose transaction id does not decode adds no
    entry and enqueues no record: it logs at DFATAL, which stops a build
    that has DCHECKs on, and otherwise returns with the table and the write
    batch as they were. *)
Theorem Add_rejects_undecodable `{E : External}
    (data : TransactionMetadataPB) (write_batch : rocksdb.WriteBatch)
    (impl : Impl.t) (s : Status) :
  DecodeTransactionId (pb_transaction_id data) = Failure s ->
  Impl.Add data write_batch impl
  = if dcheck_is_on
    then Crash (DFatalLogged "Invalid transaction id: ")
    else Done (write_batch, impl, [Log DFATAL "Invalid transaction id: "]).
Proof.
  intros Hd. unfold Impl.Add, TransactionMetadata.FromPB. rewrite Hd.
  unfold bind, LOG_DFATAL. now destruct dcheck_is_on.
Qed.

(** A message whose id is one byte short, in a build without DCHECKs. *)
Lemma Add_rejects_undecodable_witness :
  Impl.Add (E := sample_release) sample_pb_short_id [] sample_impl
  = Done ([], sample_impl, [Log DFATAL "Invalid transaction id: "]).
Proof.
  apply (Add_rejects_undecodable (E := sample_release) sample_pb_short_id []
           sample_impl
           (Bad Corruption "Invalid length of transaction id: $0" [])).
  reflexivity.
Defined.

(** X16: after [Add] inserted a transaction, [Metadata] of its id returns
    the added metadata from the table, for any store and without changing
    the participant, and [LocalCommitTime] of its id is the invalid time:
    the transaction is known and not applied. *)
Theorem Add_then_Metadata `{E : External}
    (data : TransactionMetadataPB) (metadata : TransactionMetadata.t)
    (write_batch : rocksdb.WriteBatch) (impl : Impl.t) :
  TransactionMetadata.FromPB data = Value metadata ->
  Impl.transactions_ impl !! TransactionMetadata.transaction_id metadata
  = None ->
  exists write_batch' impl',
    Impl.Add data write_batch impl = Done (write_batch', impl', []) /\
    (forall db,
        Impl.Metadata db (TransactionMetadata.transaction_id metadata) impl'
        = Done (Some metadata, impl', [])) /\
    Impl.LocalCommitTime (TransactionMetadata.transaction_id metadata) impl'
    = Done (kInvalidHybridTime, impl', []).
Proof.
  intros Hm Hid. eexists _, _. split; [exact (Add_new _ _ _ _ Hm Hid)|].
  split.
  - intros db.
    apply (Metadata_present db _ _ (RunningTransaction.new metadata)).
    cbn [Impl.transactions_]. apply lookup_insert_eq.
  - rewrite LocalCommitTime_eq. cbn [Impl.transactions_].
    now rewrite lookup_insert_eq.
Qed.

(** The sample transaction, added and looked up with an empty store. *)
Lemma Add_then_Metadata_witness :
  exists write_batch' impl',
    Impl.Add (E := sample_external) sample_pb [] sample_impl
    = Done (write_batch', impl', []) /\
    (forall db,
        Impl.Metadata (E := sample_external) db sample_id impl'
        = Done (Some sample_metadata, impl', [])) /\
    Impl.LocalCommitTime (E := sample_external) sample_id impl'
    = Done (18446744073709551614, impl', []).
Proof.
  apply (Add_then_Metadata (E := sample_external) sample_pb sample_metadata
           [] sample_impl).
  - vm_compute. reflexivity.
  - vm_compute. reflexivity.
Defined.

(** X17: the record [Add] enqueues is the record [Metadata] loads.  If
    parsing undoes serialising for the message, then in any store with
    growing keys that holds the record [Add] put into the batch, [Metadata]
    of the id on a participant whose table does not hold the id returns the
    added metadata and leaves a new entry for it in the table. *)
Theorem added_record_loads `{E : External}
    (data : TransactionMetadataPB) (metadata : TransactionMetadata.t)
    (impl restarted : Impl.t) (db : rocksdb.DB) :
  TransactionMetadata.FromPB data = Value metadata ->
  ParseFromArray (SerializeAsString data) = Some data ->
  Impl.transactions_ impl !! TransactionMetadata.transaction_id metadata
  = None ->
  Impl.transactions_ restarted !! TransactionMetadata.transaction_id metadata
  = None ->
  StronglySorted (fun a b => String.ltb (fst a) (fst b) = true) db ->
  exists record impl1,
    Impl.Add data [] impl = Done ([record], impl1, []) /\
    (In record db ->
     exists impl2,
       Impl.Metadata db (TransactionMetadata.transaction_id metadata) restarted
       = Done (Some metadata, impl2, []) /\
       Impl.transactions_ impl2
       = <[TransactionMetadata.transaction_id metadata :=
             RunningTransaction.new metadata]>
           (Impl.transactions_ restarted)).
Proof.
  intros Hm Hparse Hid Hrestarted Hsorted. eexists _, _.
  split; [exact (Add_new _ _ _ _ Hm Hid)|]. intros Hin.
  eexists. split.
  - exact (Metadata_load _ _ _ _ _ _ Hrestarted
             (Seek_record _ _ _ Hsorted Hin) Hparse Hm eq_refl).
  - reflexivity.
Qed.

(** The sample transaction is added, the batch is written between two
    other records, and a participant that has just started loads it. *)
Lemma added_record_loads_witness :
  exists record impl1,
    Impl.Add (E := sample_external) sample_pb [] sample_impl
    = Done ([record], impl1, []) /\
    (In record sample_db ->
     exists impl2,
       Impl.Metadata (E := sample_external) sample_db sample_id sample_impl
       = Done (Some sample_metadata, impl2, []) /\
       Impl.transactions_ impl2
       = <[sample_id := RunningTransaction.new (E := sample_external)
                          sample_metadata]>
           (Impl.transactions_ sample_impl)).
Proof.
  apply (added_record_loads (E := sample_external) sample_pb sample_metadata
           sample_impl sample_impl sample_db).
  - vm_compute. reflexivity.
  - vm_compute. reflexivity.
  - vm_compute. reflexivity.
  - vm_compute. reflexivity.
  - repeat constructor.
Defined.

(** X18: [Metadata] of an id that is neither in the table nor in the
    store returns nothing and leaves the participant as it was; the store
    does not have the id when the iterator, after the seek to the key of
    the id, is not valid or is on another key.  When the record of the id
    does not parse, or parses to a message that does not decode, [Metadata]
    logs at DFATAL, which stops a build that has DCHECKs on, and otherwise
    returns nothing, with no entry added. *)
Theorem Metadata_of_unknown `{E : External}
    (db : rocksdb.DB) (id : TransactionId) (impl : Impl.t) :
  Impl.transactions_ impl !! id = None ->
  (rocksdb.Seek db (AppendTransactionKeyPrefix id "") = None ->
   Impl.Metadata db id impl = Done (None, impl, [])) /\
  (forall key value,
      rocksdb.Seek db (AppendTransactionKeyPrefix id "") = Some (key, value) ->
      key <> AppendTransactionKeyPrefix id "" ->
      Impl.Metadata db id impl = Done (None, impl, [])) /\
  (forall value,
      rocksdb.Seek db (AppendTransactionKeyPrefix id "")
      = Some (AppendTransactionKeyPrefix id "", value) ->
      ParseFromArray value = None ->
      Impl.Metadata db id impl
      = if dcheck_is_on
        then Crash (DFatalLogged "Unable to parse stored metadata: ")
        else Done (None, impl,
                   [Log DFATAL "Unable to parse stored metadata: "])) /\
  (forall value metadata_pb s,
      rocksdb.Seek db (AppendTransactionKeyPrefix id "")
      = Some (AppendTransactionKeyPrefix id "", value) ->
      ParseFromArray value = Some metadata_pb ->
      TransactionMetadata.FromPB metadata_pb = Failure s ->
      Impl.Metadata db id impl
      = if dcheck_is_on
        then Crash (DFatalLogged "Loaded bad metadata: ")
        else Done (None, impl, [Log DFATAL "Loaded bad metadata: "])).
Proof.
  intros Hid.
  unfold Impl.Metadata, Impl.FindOrLoad, bind, Impl.find, ret.
  rewrite Hid. repeat split.
  - now intros ->.
  - intros key value -> Hne. apply String.eqb_neq in Hne. now rewrite Hne.
  - intros value -> ->. rewrite String.eqb_refl. unfold LOG_DFATAL.
    now destruct dcheck_is_on.
  - intros value metadata_pb s -> -> ->. rewrite String.eqb_refl.
    unfold LOG_DFATAL. now destruct dcheck_is_on.
Qed.

(** An id between the keys of the sample store: the seek lands on the
    record after it. *)
Lemma Metadata_of_unknown_witness :
  Impl.Metadata (E := sample_external) sample_db "fedcba9876543210"
    sample_impl
  = Done (None, sample_impl, []).
Proof.
  apply (proj1 (proj2
    (Metadata_of_unknown (E := sample_external) sample_db "fedcba9876543210"
       sample_impl ltac:(vm_compute; reflexivity)))
    "z" "after").
  - vm_compute. reflexivity.
  - discriminate.
Defined.

(** ** What an apply touches *)

(** X19: [ProcessApply] either stops the process, which it does exactly
    when [ApplyIntents] of the applier fails (the [CHECK_OK], with the
    status of the applier, before anything is recorded or sent), or returns
    having changed nothing but the local commit time of the entry of its
    transaction: every other entry, and the metadata, the cached status and
    the queues of that entry, are as they were, no entry is created for a
    transaction the table does not hold, and no callback is called. *)
Theorem ProcessApply_changes_only_commit_time
    (data : TransactionApplyData.t) (impl : Impl.t) :
  (TransactionApplyData.ApplyIntents data <> OK ->
   Impl.ProcessApply data impl
   = Crash (CheckFailed (TransactionApplyData.ApplyIntents data))) /\
  (TransactionApplyData.ApplyIntents data = OK ->
   exists impl' l,
     Impl.ProcessApply data impl = Done (OK, impl', l) /\
     invoked l = [] /\
     Impl.context_ impl' = Impl.context_ impl /\
     forall k,
       Impl.transactions_ impl' !! k
       = if decide (TransactionApplyData.transaction_id data = k)
         then RunningTransaction.SetLocalCommitTime
                (TransactionApplyData.commit_time data)
              <$> Impl.transactions_ impl !! k
         else Impl.transactions_ impl !! k).
Proof.
  split.
  - intros Hfailed.
    destruct (TransactionApplyData.ApplyIntents data) eqn:Hstatus;
      [contradiction|].
    now apply ProcessApply_failed.
  - intros Hok.
    destruct (Impl.transactions_ impl !! TransactionApplyData.transaction_id data)
      as [x|] eqn:Hid.
    + rewrite (ProcessApply_present _ _ _ Hok Hid). eexists _, _.
      split; [reflexivity|].
      split; [now destruct (TransactionApplyData.mode data)|].
      split; [reflexivity|]. intros k. cbn [Impl.transactions_].
      destruct (decide _) as [<-|Hne].
      * now rewrite lookup_insert_eq, Hid.
      * now rewrite lookup_insert_ne.
    + rewrite (ProcessApply_absent _ _ Hok Hid). eexists _, _.
      split; [reflexivity|]. split; [reflexivity|]. split; [reflexivity|].
      intros k. destruct (decide _) as [<-|Hne]; [now rewrite Hid | reflexivity].
Qed.

(** An applier that reports an IO error. *)
Lemma ProcessApply_changes_only_commit_time_witness :
  Impl.ProcessApply sample_failed_apply sample_added
  = Crash (CheckFailed (Bad (OtherCode 5) "IO error" [])).
Proof.
  apply (proj1 (ProcessApply_changes_only_commit_time sample_failed_apply
                  sample_added)).
  discriminate.
Defined.

(** ** No callback is lost *)

Section Callbacks.
Context `{E : External}.








End Callbacks.



(** ** Requests the cache answers *)

(** X21: from an entry with no status waiter and no status handle, the
    calls of [RequestStatusAt] for its id start at most one
    [GetTransactionStatus] RPC: one if the entry holds a handle after them,
    none if it does not, which is when the cache answered them all. *)
Theorem requests_start_at_most_one_rpc `{E : External}
    (id : TransactionId) (reqs : list (HybridTime * TransactionStatusCallback))
    (impl impl' : Impl.t) (l : list Event) (x : RunningTransaction.t) :
  Impl.transactions_ impl !! id = Some x ->
  RunningTransaction.status_waiters_ x = [] ->
  RunningTransaction.get_status_handle_ x = Rpcs.InvalidHandle ->
  run (requests id reqs) impl = Done (tt, impl', l) ->
  exists x',
    Impl.transactions_ impl' !! id = Some x' /\
    (sent_get_status l <= 1)%nat /\
    (sent_get_status l = 0%nat <->
     RunningTransaction.get_status_handle_ x' = Rpcs.InvalidHandle) /\
    (sent_get_status l = 0%nat <-> RunningTransaction.status_waiters_ x' = []).
Proof.
  intros Hid Hw Hh Hrun.
  destruct (requests_coalesce _ _ _ _ _ _ Hrun Hid) as (x' & Hx' & _ & Hidle).
  exists x'. split; [exact Hx'|]. unfold sent_get_status.
  destruct (Hidle Hw) as [(Hw' & Hh' & ->) | (Hw' & Hflight & ->)]; cbn.
  - rewrite Hh', Hh, Hw'. repeat split; auto.
  - repeat split; try lia; try discriminate; intros; contradiction.
Qed.

(** PENDING at 15 is cached: requests at 10 and at 12 start no RPC. *)
Lemma requests_start_at_most_one_rpc_witness :
  sent_get_status
    (events_after (E := sample_external)
       (requests sample_id [(10, 1%nat); (12, 2%nat)]) sample_idle)
  = 0%nat.
Proof.
  destruct (requests_start_at_most_one_rpc (E := sample_external) sample_id
              [(10, 1%nat); (12, 2%nat)] sample_idle
              (after (E := sample_external)
                 (requests sample_id [(10, 1%nat); (12, 2%nat)]) sample_idle)
              (events_after (E := sample_external)
                 (requests sample_id [(10, 1%nat); (12, 2%nat)]) sample_idle)
              (RunningTransaction.set_last_known PENDING 15
                 (RunningTransaction.new (E := sample_external)
                    sample_metadata)))
    as (x' & Hid' & _ & Hnone & _).
  - vm_compute. reflexivity.
  - reflexivity.
  - reflexivity.
  - vm_compute. reflexivity.
  - apply Hnone. vm_compute in Hid'. injection Hid' as <-. reflexivity.
Defined.
(** * The calls as the threads run them *)

(** ** Counting *)

Section Counting.
Context {A : Type}.

Lemma count_app (p : A -> bool) (l1 l2 : list A) :
  count p (l1 ++ l2) = (count p l1 + count p l2)%nat.
Proof. unfold count. now rewrite List.filter_app, length_app. Qed.

Lemma count_cons (p : A -> bool) (a : A) (l : list A) :
  count p (a :: l) = ((if p a then 1 else 0) + count p l)%nat.
Proof. unfold count. cbn. now destruct (p a). Qed.

Lemma count_option_list (p : A -> bool) (o : option A) :
  count p (option_list o)
  = match o with Some a => if p a then 1 else 0 | None => 0 end%nat.
Proof. destruct o as [a|]; [|reflexivity]. cbn. unfold count. cbn. now destruct (p a). Qed.

Lemma count_delete (p : A -> bool) (l : list A) (n : nat) (a : A) :
  l !! n = Some a ->
  count p l = ((if p a then 1 else 0) + count p (delete n l))%nat.
Proof.
  revert n. induction l as [|b l IH]; intros [|n] Hn; try discriminate Hn.
  - injection Hn as ->. apply count_cons.
  - change (delete (S n) (b :: l)) with (b :: delete n l).
    change ((b :: l) !! S n) with (l !! n) in Hn.
    rewrite !count_cons, (IH _ Hn). lia.
Qed.

Lemma count_remove_first (p : A -> bool) (l l' : list A) :
  remove_first p l = Some l' ->
  exists a,
    p a = true /\
    forall q : A -> bool,
      count q l = ((if q a then 1 else 0) + count q l')%nat.
Proof.
  revert l'. induction l as [|b l IH]; intros l'; cbn [remove_first];
    [discriminate|].
  destruct (p b) eqn:Hb.
  - intros [= <-]. exists b. split; [exact Hb|]. intros q. apply count_cons.
  - destruct (remove_first p l) as [rest|]; [|discriminate].
    intros [= <-]. destruct (IH _ eq_refl) as (a & Ha & Hq).
    exists a. split; [exact Ha|]. intros q. rewrite !count_cons, Hq. lia.
Qed.

End Counting.

(** ** The sections, one by one *)

Section Sections.
Context `{E : External}.

Lemma with_entry_same id x impl :
  Impl.transactions_ impl !! id = Some x -> with_entry id x impl = impl.
Proof.
  intros Hid. destruct impl as [context rpcs transactions]. unfold with_entry.
  cbn in *. now rewrite (insert_id _ _ _ Hid).
Qed.

Lemma on_present {A} it (m : M RunningTransaction.Self A) otherwise impl x :
  Impl.transactions_ impl !! it = Some x ->
  Thread.on it m otherwise impl = Impl.call (it, x) m impl.
Proof.
  intros Hid. unfold Thread.on, bind, Impl.find. rewrite Hid.
  destruct (Impl.call _ _ _) as [[[a s] l]|]; reflexivity.
Qed.

Lemma on_absent {A} it (m : M RunningTransaction.Self A) otherwise impl :
  Impl.transactions_ impl !! it = None ->
  Thread.on it m otherwise impl = Done (otherwise, impl, []).
Proof. intros Hid. unfold Thread.on, bind, Impl.find. now rewrite Hid. Qed.

Lemma RequestStatusAt_locked_eq it time callback rpcs x :
  Thread.RequestStatusAt_locked it time callback (rpcs, x)
  = match cached_status time x with
    | Crash why => Crash why
    | Done (Some st) =>
        Done (Some (Thread.CachedStatusCallback it callback st), (rpcs, x), [])
    | Done None =>
        Done (match RunningTransaction.status_waiters_ x with
              | [] => Some (Thread.StartGetTransactionStatus it)
              | _ => None
              end,
              (rpcs,
               RunningTransaction.set_status_waiters_
                 (RunningTransaction.status_waiters_ x ++
                  [{| RunningTransaction.callback := callback;
                      RunningTransaction.time := time |}]) x),
              [])
    end.
Proof.
  unfold cached_status, Thread.RequestStatusAt_locked.
  unfold bind at 1. unfold RunningTransaction.this at 1. cbn [snd].
  unfold bind at 1.
  destruct (kMin <? RunningTransaction.last_known_status_hybrid_time_ x).
  - unfold lift.
    destruct (RunningTransaction.GetStatusAtMember _ _ _) as [[st|]|];
      [reflexivity | | reflexivity].
    destruct (RunningTransaction.status_waiters_ x); reflexivity.
  - destruct (RunningTransaction.status_waiters_ x); reflexivity.
Qed.

Lemma Abort_locked_eq it callback rpcs x :
  Thread.Abort_locked it callback (rpcs, x)
  = Done (match RunningTransaction.abort_waiters_ x with
          | [] => Some (Thread.StartAbortTransaction it)
          | _ => None
          end,
          (rpcs,
           RunningTransaction.set_abort_waiters_
             (RunningTransaction.abort_waiters_ x ++ [callback]) x),
          []).
Proof.
  unfold Thread.Abort_locked.
  unfold bind at 1, RunningTransaction.this at 1. cbn [fst snd].
  destruct (RunningTransaction.abort_waiters_ x); reflexivity.
Qed.

Lemma StatusReceived_locked_eq status response rpcs x :
  Thread.StatusReceived_locked status response (rpcs, x)
  = if ok status then
      if dcheck_is_on && negb (has_time_or_aborted response)
      then Crash (DCheckFailed has_time_or_aborted_text)
      else
        Done (Some (Thread.AnswerStatusWaiters
                      (RunningTransaction.status_waiters_ x)
                      (fst (snapshot response x))
                      (snd (snapshot response x))),
              (rpcs,
               let idle := RunningTransaction.set_status_waiters_ [] x in
               if RunningTransaction.last_known_status_hybrid_time_ x
                  <=? response_time response
               then RunningTransaction.set_last_known (gs_status response)
                      (response_time response) idle
               else idle),
              [])
    else
      Done (Some (Thread.FailStatusWaiters status
                    (RunningTransaction.status_waiters_ x)),
            (rpcs, RunningTransaction.set_status_waiters_ [] x), []).
Proof.
  unfold Thread.StatusReceived_locked, snapshot, response_time,
    has_time_or_aborted, has_time_or_aborted_text, bind,
    RunningTransaction.this, RunningTransaction.update, DCHECK, ret, fatal.
  cbn [fst snd RunningTransaction.status_waiters_
         RunningTransaction.last_known_status_hybrid_time_
         RunningTransaction.set_status_waiters_].
  destruct (ok status); [|reflexivity].
  destruct (dcheck_is_on && negb _); [reflexivity|]. cbn [fst snd].
  destruct (RunningTransaction.last_known_status_hybrid_time_ x <=? _);
    reflexivity.
Qed.

Lemma AbortReceived_locked_eq status response rpcs x :
  Thread.AbortReceived_locked status response (rpcs, x)
  = Done (Some (Thread.AnswerAbortWaiters
                  (RunningTransaction.abort_waiters_ x)
                  (RunningTransaction.MakeAbortResult status response)),
          (Rpcs.Unregister (RunningTransaction.abort_handle_ x) rpcs,
           RunningTransaction.set_abort_waiters_ []
             (RunningTransaction.set_abort_handle_ Rpcs.InvalidHandle x)),
          []).
Proof. reflexivity. Qed.

End Sections.

(** ** The moves, one by one *)

Section Moves.
Context `{E : External}.

Lemma call_eq {A} id x (m : M RunningTransaction.Self A) impl :
  Impl.call (id, x) m impl
  = match m (Impl.rpcs_ impl, x) with
    | Crash why => Crash why
    | Done (a, (rpcs, x'), l) =>
        Done (a,
              {| Impl.context_ := Impl.context_ impl; Impl.rpcs_ := rpcs;
                 Impl.transactions_ := <[id := x']> (Impl.transactions_ impl) |},
              l)
    end.
Proof. reflexivity. Qed.

Lemma enter_RequestStatusAt id time callback impl :
  Thread.enter (OpRequestStatusAt id time callback) impl
  = match Impl.transactions_ impl !! id with
    | None => Done (Some (Thread.NotFoundCallback callback id), impl, [])
    | Some x =>
        match cached_status time x with
        | Crash why => Crash why
        | Done (Some st) =>
            Done (Some (Thread.CachedStatusCallback id callback st), impl, [])
        | Done None =>
            Done (match RunningTransaction.status_waiters_ x with
                  | [] => Some (Thread.StartGetTransactionStatus id)
                  | _ => None
                  end,
                  with_entry id
                    (RunningTransaction.set_status_waiters_
                       (RunningTransaction.status_waiters_ x ++
                        [{| RunningTransaction.callback := callback;
                            RunningTransaction.time := time |}]) x)
                    impl,
                  [])
        end
    end.
Proof.
  cbn [Thread.enter]. unfold bind at 1, Impl.find at 1.
  destruct (Impl.transactions_ impl !! id) as [x|] eqn:Hid; [|reflexivity].
  cbn [fst]. rewrite call_eq, RequestStatusAt_locked_eq.
  destruct (cached_status time x) as [[st|]|]; cbn [app]; try reflexivity.
  pose proof (with_entry_same _ _ _ Hid) as Hsame. unfold with_entry in Hsame.
  now rewrite Hsame.
Qed.

Lemma enter_Abort id callback impl :
  Thread.enter (OpAbort id callback) impl
  = match Impl.transactions_ impl !! id with
    | None => Done (Some (Thread.NotFoundCallback callback id), impl, [])
    | Some x =>
        Done (match RunningTransaction.abort_waiters_ x with
              | [] => Some (Thread.StartAbortTransaction id)
              | _ => None
              end,
              with_entry id
                (RunningTransaction.set_abort_waiters_
                   (RunningTransaction.abort_waiters_ x ++ [callback]) x)
                impl,
              [])
    end.
Proof.
  cbn [Thread.enter]. unfold bind at 1, Impl.find at 1.
  destruct (Impl.transactions_ impl !! id) as [x|] eqn:Hid; [|reflexivity].
  cbn [fst]. now rewrite call_eq, Abort_locked_eq.
Qed.

Lemma enter_StatusReceived id status response impl :
  Thread.enter (OpStatusReceived id status response) impl
  = Done (Some (Thread.StatusReceivedLocked id status response),
          match Impl.transactions_ impl !! id with
          | None => impl
          | Some x =>
              {| Impl.context_ := Impl.context_ impl;
                 Impl.rpcs_ :=
                   Rpcs.Unregister (RunningTransaction.get_status_handle_ x)
                     (Impl.rpcs_ impl);
                 Impl.transactions_ :=
                   <[id := RunningTransaction.set_get_status_handle_
                             Rpcs.InvalidHandle x]> (Impl.transactions_ impl) |}
          end,
          []).
Proof.
  cbn [Thread.enter]. unfold bind at 1.
  destruct (Impl.transactions_ impl !! id) as [x|] eqn:Hid.
  - now rewrite (on_present _ _ _ _ _ Hid), call_eq.
  - now rewrite (on_absent _ _ _ _ Hid).
Qed.

Lemma enter_AbortReceived id status response impl :
  Thread.enter (OpAbortReceived id status response) impl
  = match Impl.transactions_ impl !! id with
    | None => Done (None, impl, [])
    | Some x =>
        Done (Some (Thread.AnswerAbortWaiters
                      (RunningTransaction.abort_waiters_ x)
                      (RunningTransaction.MakeAbortResult status response)),
              {| Impl.context_ := Impl.context_ impl;
                 Impl.rpcs_ :=
                   Rpcs.Unregister (RunningTransaction.abort_handle_ x)
                     (Impl.rpcs_ impl);
                 Impl.transactions_ :=
                   <[id := RunningTransaction.set_abort_waiters_ []
                             (RunningTransaction.set_abort_handle_
                                Rpcs.InvalidHandle x)]>
                     (Impl.transactions_ impl) |},
              [])
    end.
Proof.
  cbn [Thread.enter].
  destruct (Impl.transactions_ impl !! id) as [x|] eqn:Hid.
  - now rewrite (on_present _ _ _ _ _ Hid), call_eq, AbortReceived_locked_eq.
  - now rewrite (on_absent _ _ _ _ Hid).
Qed.

Lemma enter_atomic op impl :
  is_atomic op = true ->
  Thread.enter op impl
  = match step op impl with
    | Crash why => Crash why
    | Done (_, impl', l) => Done (None, impl', l)
    end.
Proof.
  intros Hop.
  destruct op; try discriminate Hop; cbn [Thread.enter]; unfold bind at 1;
    (destruct (step _ impl) as [[[[] s] l]|]; [|reflexivity]);
    unfold ret; now rewrite app_nil_r.
Qed.

Lemma resume_CachedStatusCallback it callback st impl :
  Thread.resume (Thread.CachedStatusCallback it callback st) impl
  = Done (None, impl,
          match Impl.transactions_ impl !! it with
          | None => []
          | Some x =>
              [Invoke callback
                 (Value
                    {| status := st;
                       status_time :=
                         RunningTransaction.last_known_status_hybrid_time_ x
                    |})]
          end).
Proof.
  cbn [Thread.resume]. unfold bind at 1.
  destruct (Impl.transactions_ impl !! it) as [x|] eqn:Hid.
  - rewrite (on_present _ _ _ _ _ Hid), call_eq. cbn.
    pose proof (with_entry_same _ _ _ Hid) as Hsame.
    unfold with_entry in Hsame. now rewrite Hsame.
  - now rewrite (on_absent _ _ _ _ Hid).
Qed.

Lemma resume_StartGetTransactionStatus it impl :
  Thread.resume (Thread.StartGetTransactionStatus it) impl
  = match Impl.transactions_ impl !! it with
    | None => Done (None, impl, [])
    | Some x =>
        let rpc :=
          GetTransactionStatus
            (TransactionMetadata.status_tablet (RunningTransaction.metadata_ x))
            (TransactionMetadata.transaction_id
               (RunningTransaction.metadata_ x)) in
        Done (None,
              {| Impl.context_ := Impl.context_ impl;
                 Impl.rpcs_ := snd (Rpcs.Register rpc (Impl.rpcs_ impl));
                 Impl.transactions_ :=
                   <[it := RunningTransaction.set_get_status_handle_
                             (Some (Rpcs.next (Impl.rpcs_ impl))) x]>
                     (Impl.transactions_ impl) |},
              [RpcSent (Rpcs.next (Impl.rpcs_ impl)) rpc])
    end.
Proof.
  cbn [Thread.resume]. unfold bind at 1.
  destruct (Impl.transactions_ impl !! it) as [x|] eqn:Hid.
  - now rewrite (on_present _ _ _ _ _ Hid), call_eq.
  - now rewrite (on_absent _ _ _ _ Hid).
Qed.

Lemma resume_StartAbortTransaction it impl :
  Thread.resume (Thread.StartAbortTransaction it) impl
  = match Impl.transactions_ impl !! it with
    | None => Done (None, impl, [])
    | Some x =>
        let rpc :=
          AbortTransaction
            (TransactionMetadata.status_tablet (RunningTransaction.metadata_ x))
            (TransactionMetadata.transaction_id
               (RunningTransaction.metadata_ x)) in
        Done (None,
              {| Impl.context_ := Impl.context_ impl;
                 Impl.rpcs_ := snd (Rpcs.Register rpc (Impl.rpcs_ impl));
                 Impl.transactions_ :=
                   <[it := RunningTransaction.set_abort_handle_
                             (Some (Rpcs.next (Impl.rpcs_ impl))) x]>
                     (Impl.transactions_ impl) |},
              [RpcSent (Rpcs.next (Impl.rpcs_ impl)) rpc])
    end.
Proof.
  cbn [Thread.resume]. unfold bind at 1.
  destruct (Impl.transactions_ impl !! it) as [x|] eqn:Hid.
  - now rewrite (on_present _ _ _ _ _ Hid), call_eq.
  - now rewrite (on_absent _ _ _ _ Hid).
Qed.

Lemma resume_StatusReceivedLocked it status response impl :
  Thread.resume (Thread.StatusReceivedLocked it status response) impl
  = match Impl.transactions_ impl !! it with
    | None => Done (None, impl, [])
    | Some x =>
        if ok status then
          if dcheck_is_on && negb (has_time_or_aborted response)
          then Crash (DCheckFailed has_time_or_aborted_text)
          else
            Done (Some (Thread.AnswerStatusWaiters
                          (RunningTransaction.status_waiters_ x)
                          (fst (snapshot response x))
                          (snd (snapshot response x))),
                  with_entry it
                    (let idle :=
                       RunningTransaction.set_status_waiters_ [] x in
                     if RunningTransaction.last_known_status_hybrid_time_ x
                        <=? response_time response
                     then RunningTransaction.set_last_known
                            (gs_status response) (response_time response) idle
                     else idle)
                    impl,
                  [])
        else
          Done (Some (Thread.FailStatusWaiters status
                        (RunningTransaction.status_waiters_ x)),
                with_entry it (RunningTransaction.set_status_waiters_ [] x)
                  impl,
                [])
    end.
Proof.
  cbn [Thread.resume].
  destruct (Impl.transactions_ impl !! it) as [x|] eqn:Hid.
  - rewrite (on_present _ _ _ _ _ Hid), call_eq, StatusReceived_locked_eq.
    destruct (ok status); [|reflexivity].
    destruct (dcheck_is_on && negb _); reflexivity.
  - now rewrite (on_absent _ _ _ _ Hid).
Qed.

(** The callbacks and the loops leave the participant as it is and start
    no RPC, and what is left of them is a loop. *)
Lemma resume_loop thread impl thread' impl' l :
  is_loop thread = true ->
  Thread.resume thread impl = Done (thread', impl', l) ->
  impl' = impl /\ started l = [] /\
  match thread' with Some t' => is_loop t' = true | None => True end.
Proof.
  destruct thread as [callback id| | | | |status [|w ws]|[|w ws] time st
                     |[|w ws] result]; try discriminate; intros _;
    cbn [Thread.resume]; unfold bind, emit, ret;
    try (intros [= <- <- <-]; repeat split).
  unfold Thread.answer_waiter, bind, lift.
  destruct (RunningTransaction.GetStatusAtMember _ _ _) as [[r|]|];
    [| |discriminate]; try destruct st; unfold emit, fatal;
    try discriminate; intros [= <- <- <-]; repeat split.
Qed.

End Moves.

Lemma LOG_DFATAL_inv `{E : External} {S} what (s : S) b s' l :
  LOG_DFATAL what s = Done (b, s', l) -> s' = s /\ l = [Log DFATAL what].
Proof.
  unfold LOG_DFATAL. destruct dcheck_is_on; [discriminate|].
  now intros (-> & ->)%emit_Done.
Qed.

(** Turns the hypotheses on steps that ended into what they did and which
    events they left. *)
Ltac events_inv :=
  repeat
    (cbv beta in *;
     match goal with
     | Hr : bind _ _ _ = Done _ |- _ =>
         apply bind_Done in Hr as (? & ? & ? & ? & ? & ? & ?)
     | Hr : ret _ _ = Done _ |- _ => apply ret_Done in Hr as (? & ? & ?)
     | Hr : emit _ _ = Done _ |- _ => apply emit_Done in Hr as (? & ?)
     | Hr : get _ = Done _ |- _ => apply get_Done in Hr as (? & ? & ?)
     | Hr : fatal _ _ = Done _ |- _ => discriminate Hr
     | Hr : Crash _ = Done _ |- _ => discriminate Hr
     | Hr : LOG_DFATAL _ _ = Done _ |- _ => apply LOG_DFATAL_inv in Hr as (? & ?)
     | Hr : DCHECK _ _ _ = Done _ |- _ => apply DCHECK_Done in Hr as (? & ? & ?)
     | Hr : Impl.find _ _ = Done _ |- _ => apply find_Done in Hr as (? & ? & ?)
     | Hr : Impl.emplace _ _ = Done _ |- _ =>
         apply emplace_Done in Hr as (? & _)
     end; subst).

Section Atomic.
Context `{E : External}.

(** [Add], [Metadata] and [LocalCommitTime] start no RPC, and
    [ProcessApply] starts none but its [UpdateTransaction]. *)
Lemma atomic_started op impl a impl' l k :
  is_atomic op = true ->
  step op impl = Done (a, impl', l) ->
  count (status_rpc k) (started l) = 0%nat /\
  count (abort_rpc k) (started l) = 0%nat.
Proof.
  destruct op; try discriminate; intros _; cbn [step]; intros Hrun.
  - unfold Impl.Add in Hrun. events_inv.
    destruct (TransactionMetadata.FromPB data) as [metadata|]; events_inv;
      [|split; reflexivity].
    destruct (Impl.transactions_ impl !! _) as [e0|] eqn:Hid; events_inv.
    + destruct (_ : bool); events_inv; split; reflexivity.
    + split; reflexivity.
  - unfold Impl.Metadata, Impl.FindOrLoad in Hrun. events_inv.
    destruct (Impl.transactions_ impl !! id) as [e0|] eqn:Hid; events_inv;
      [split; reflexivity|].
    destruct (rocksdb.Seek _ _) as [[iter_key iter_value]|]; events_inv;
      [|split; reflexivity].
    destruct (String.eqb _ _); events_inv; [|split; reflexivity].
    destruct (ParseFromArray _); events_inv; [|split; reflexivity].
    destruct (TransactionMetadata.FromPB _); events_inv; [|split; reflexivity].
    repeat run_case; split; reflexivity.
  - events_inv.
    match goal with Hr : Impl.LocalCommitTime _ _ = Done _ |- _ =>
      rewrite LocalCommitTime_eq in Hr; injection Hr as _ _ <- end.
    split; reflexivity.
  - events_inv.
    destruct (TransactionApplyData.ApplyIntents data) eqn:Hok;
      [|match goal with Hr : Impl.ProcessApply _ _ = Done _ |- _ =>
          now rewrite (ProcessApply_failed _ _ _ _ _ Hok) in Hr end].
    destruct (Impl.transactions_ impl !! TransactionApplyData.transaction_id data)
      as [e0|] eqn:Hid.
    + match goal with Hr : Impl.ProcessApply _ _ = Done _ |- _ =>
        rewrite (ProcessApply_present _ _ _ Hok Hid) in Hr;
        injection Hr as _ _ <- end.
      destruct (TransactionApplyData.mode data); split; reflexivity.
    + match goal with Hr : Impl.ProcessApply _ _ = Done _ |- _ =>
        rewrite (ProcessApply_absent _ _ Hok Hid) in Hr;
        injection Hr as _ _ <- end.
      split; reflexivity.
  - unfold Impl.UpdateTransactionDone in Hrun. injection Hrun as _ _ <-.
    destruct (ok _); split; reflexivity.
Qed.

End Atomic.

(** ** A call that runs alone *)

Section Alone.
Context `{E : External}.

Lemma finish_None fuel impl :
  Thread.finish fuel None impl = Done (tt, impl, []).
Proof. destruct fuel; reflexivity. Qed.

Lemma finish_FailStatusWaiters status waiters :
  forall fuel impl,
    (length waiters < fuel)%nat ->
    Thread.finish fuel (Some (Thread.FailStatusWaiters status waiters)) impl
    = Done (tt, impl,
            List.map
              (fun waiter =>
                 Invoke (RunningTransaction.callback waiter) (Failure status))
              waiters).
Proof.
  induction waiters as [|waiter waiters IH]; intros [|fuel] impl Hfuel;
    cbn [length] in Hfuel; try lia.
  - cbn [Thread.finish Thread.resume]. unfold bind, ret.
    now rewrite finish_None.
  - cbn [Thread.finish Thread.resume]. unfold bind, emit, ret.
    rewrite IH by lia. reflexivity.
Qed.

Lemma finish_AnswerAbortWaiters result waiters :
  forall fuel impl,
    (length waiters < fuel)%nat ->
    Thread.finish fuel (Some (Thread.AnswerAbortWaiters waiters result)) impl
    = Done (tt, impl, List.map (fun waiter => Invoke waiter result) waiters).
Proof.
  induction waiters as [|waiter waiters IH]; intros [|fuel] impl Hfuel;
    cbn [length] in Hfuel; try lia.
  - cbn [Thread.finish Thread.resume]. unfold bind, ret.
    now rewrite finish_None.
  - cbn [Thread.finish Thread.resume]. unfold bind, emit, ret.
    rewrite IH by lia. reflexivity.
Qed.

(** The body of the loop is the same on the participant as on the
    entry. *)
Lemma answer_waiter_same time st waiter impl (self : RunningTransaction.Self) :
  Thread.answer_waiter time st waiter impl
  = match RunningTransaction.answer_waiter time st waiter self with
    | Crash why => Crash why
    | Done (_, _, l) => Done (tt, impl, l)
    end.
Proof.
  unfold Thread.answer_waiter, RunningTransaction.answer_waiter, bind, lift.
  destruct (RunningTransaction.GetStatusAtMember _ _ _) as [[r|]|];
    try destruct st; reflexivity.
Qed.

Lemma finish_AnswerStatusWaiters time st waiters :
  forall fuel impl (self : RunningTransaction.Self),
    (length waiters < fuel)%nat ->
    Thread.finish fuel (Some (Thread.AnswerStatusWaiters waiters time st)) impl
    = match for_each waiters (RunningTransaction.answer_waiter time st) self
      with
      | Crash why => Crash why
      | Done (_, _, l) => Done (tt, impl, l)
      end.
Proof.
  induction waiters as [|waiter waiters IH]; intros [|fuel] impl self Hfuel;
    cbn [length] in Hfuel; try lia.
  - cbn [Thread.finish Thread.resume for_each]. unfold bind, ret.
    now rewrite finish_None.
  - cbn [Thread.finish Thread.resume for_each]. unfold bind at 1 2 3.
    rewrite (answer_waiter_same _ _ _ _ self).
    destruct (RunningTransaction.answer_waiter time st waiter self)
      as [[[[] self1] l1]|] eqn:Hw; [|reflexivity].
    apply (answer_waiter_keeps_state time st waiter) in Hw as ->. unfold ret.
    rewrite (IH _ _ self) by lia.
    destruct (for_each waiters _ self) as [[[[] self2] l2]|]; [|reflexivity].
    now rewrite app_nil_r.
Qed.

Lemma with_entry_twice id x1 x2 rpcs impl :
  {| Impl.context_ := Impl.context_ impl; Impl.rpcs_ := rpcs;
     Impl.transactions_ :=
       <[id := x2]> (<[id := x1]> (Impl.transactions_ impl)) |}
  = {| Impl.context_ := Impl.context_ impl; Impl.rpcs_ := rpcs;
       Impl.transactions_ := <[id := x2]> (Impl.transactions_ impl) |}.
Proof. now rewrite insert_insert_eq. Qed.

(** Run alone, the sections of a call or of a completion do what the
    call does as one step: the same state, the same events in the same
    order, the same way to stop. *)
Lemma alone_is_step op impl fuel :
  (Thread.sections op impl <= fuel)%nat ->
  Thread.alone fuel op impl = step op impl.
Proof.
  intros Hfuel. unfold Thread.alone.
  destruct (is_atomic op) eqn:Hop.
  { unfold bind. rewrite (enter_atomic _ _ Hop).
    destruct (step op impl) as [[[[] impl'] l]|]; [|reflexivity].
    rewrite finish_None. now rewrite app_nil_r. }
  destruct op as [| | | id time callback | id callback | 
                 | id rpc_status response | id rpc_status response | ];
    try discriminate Hop; clear Hop; cbn [step];
    cbn [Thread.sections] in Hfuel.
  - (* RequestStatusAt *)
    destruct fuel as [|fuel]; [lia|]. unfold bind at 1.
    rewrite enter_RequestStatusAt.
    destruct (Impl.transactions_ impl !! id) as [x|] eqn:Hid.
    + rewrite (Impl_RequestStatusAt_present _ _ _ _ _ Hid), call_eq.
      destruct (cached_status time x) as [[st|]|] eqn:Hc.
      * rewrite (RequestStatusAt_cached _ _ _ _ _ Hc).
        cbn [Thread.finish]. unfold bind.
        rewrite resume_CachedStatusCallback, Hid, finish_None. cbn [app].
        pose proof (with_entry_same _ _ _ Hid) as Hsame.
        unfold with_entry in Hsame. now rewrite Hsame.
      * destruct (RunningTransaction.status_waiters_ x) as [|w ws] eqn:Hw.
        -- rewrite (RequestStatusAt_start _ _ _ _ Hc Hw). cbv zeta.
           cbn [Thread.finish]. unfold bind.
           rewrite resume_StartGetTransactionStatus.
           unfold with_entry. cbn [Impl.transactions_ Impl.rpcs_ Impl.context_].
           rewrite lookup_insert_eq. cbv zeta. rewrite finish_None.
           cbn [app RunningTransaction.metadata_
                  RunningTransaction.set_status_waiters_].
           now rewrite insert_insert_eq.
        -- rewrite (RequestStatusAt_enqueue _ _ _ _ Hc) by congruence.
           rewrite Hw, finish_None. reflexivity.
      * now rewrite (RequestStatusAt_crash _ _ _ _ _ Hc).
    + rewrite (Impl_RequestStatusAt_absent _ _ _ _ Hid).
      cbn [Thread.finish Thread.resume]. unfold bind, emit, ret.
      now rewrite finish_None.
  - (* Abort *)
    destruct fuel as [|fuel]; [lia|]. unfold bind at 1.
    rewrite enter_Abort.
    destruct (Impl.transactions_ impl !! id) as [x|] eqn:Hid.
    + rewrite (Impl_Abort_present _ _ _ _ Hid), call_eq, Abort_eq.
      destruct (RunningTransaction.abort_waiters_ x) as [|w ws] eqn:Hw.
      * cbv zeta. cbn [Thread.finish]. unfold bind.
        rewrite resume_StartAbortTransaction.
        unfold with_entry. cbn [Impl.transactions_ Impl.rpcs_ Impl.context_].
        rewrite lookup_insert_eq. cbv zeta. rewrite finish_None.
        cbn [app RunningTransaction.metadata_
               RunningTransaction.set_abort_waiters_].
        now rewrite insert_insert_eq.
      * rewrite finish_None. reflexivity.
    + rewrite (Impl_Abort_absent _ _ _ Hid).
      cbn [Thread.finish Thread.resume]. unfold bind, emit, ret.
      now rewrite finish_None.
  - (* StatusReceived *)
    unfold bind at 1. rewrite enter_StatusReceived.
    destruct (Impl.transactions_ impl !! id) as [x|] eqn:Hid.
    + rewrite (Impl_StatusReceived_present _ _ _ _ _ Hid), call_eq.
      destruct fuel as [|fuel]; [lia|]. cbn [Thread.finish]. unfold bind at 1.
      rewrite resume_StatusReceivedLocked.
      cbn [Impl.transactions_ Impl.rpcs_ Impl.context_].
      rewrite lookup_insert_eq.
      destruct (ok rpc_status) eqn:Hok.
      * destruct (dcheck_is_on && negb (has_time_or_aborted response))
          eqn:Hcheck.
        -- now rewrite (StatusReceived_dcheck _ _ _ _ Hok Hcheck).
        -- rewrite (StatusReceived_prefix _ _ _ _ Hok (dcheck_passes _ Hcheck)).
           cbv zeta.
           cbn [RunningTransaction.status_waiters_
                  RunningTransaction.set_get_status_handle_
                  RunningTransaction.last_known_status_hybrid_time_].
           unfold snapshot, with_entry.
           cbn [RunningTransaction.last_known_status_hybrid_time_
                  RunningTransaction.last_known_status_
                  RunningTransaction.set_get_status_handle_
                  Impl.transactions_ Impl.rpcs_ Impl.context_].
           rewrite insert_insert_eq.
           destruct (RunningTransaction.last_known_status_hybrid_time_ x
                     <=? response_time response);
             cbn [fst snd RunningTransaction.last_known_status_hybrid_time_
                    RunningTransaction.last_known_status_
                    RunningTransaction.set_last_known
                    RunningTransaction.set_status_waiters_
                    RunningTransaction.set_get_status_handle_];
             lazymatch goal with
             | |- context [for_each ?ws ?body ?self] =>
                 rewrite (finish_AnswerStatusWaiters _ _ _ _ _ self) by lia;
                 destruct (for_each ws body self)
                   as [[[[] [rpcs1 x1]] l1]|] eqn:Hloop; [|reflexivity];
                 apply for_each_keeps_state in Hloop;
                   [|intros; apply answer_waiter_keeps_state];
                 injection Hloop as -> ->; reflexivity
             end.
      * rewrite (StatusReceived_failed _ _ _ _ Hok).
        unfold with_entry.
        cbn [RunningTransaction.status_waiters_
               RunningTransaction.set_get_status_handle_
               Impl.transactions_ Impl.rpcs_ Impl.context_].
        rewrite insert_insert_eq, finish_FailStatusWaiters by lia.
        reflexivity.
    + destruct fuel as [|fuel]; [lia|]. cbn [Thread.finish]. unfold bind at 1.
      rewrite resume_StatusReceivedLocked, Hid, finish_None.
      unfold Impl.StatusReceived, bind, Impl.find. now rewrite Hid.
  - (* AbortReceived *)
    unfold bind at 1. rewrite enter_AbortReceived.
    destruct (Impl.transactions_ impl !! id) as [x|] eqn:Hid.
    + rewrite (Impl_AbortReceived_present _ _ _ _ _ Hid), call_eq,
        AbortReceived_eq.
      rewrite finish_AnswerAbortWaiters by lia. reflexivity.
    + rewrite finish_None.
      unfold Impl.AbortReceived, bind, Impl.find. now rewrite Hid.
Qed.

End Alone.

(** ** What every interleaving keeps *)

Section Accounting.
Context `{E : External}.

Lemma count_nil {A} (p : A -> bool) : count p [] = 0%nat.
Proof. reflexivity. Qed.

Lemma new_accounted context : accounted (Concurrent.new context).
Proof.
  intros k. unfold Concurrent.new, Impl.new. cbn. rewrite lookup_empty.
  split; reflexivity.
Qed.

(** A move that changes neither the owners nor the queues and handles. *)
Lemma accounted_frame (c c' : Concurrent.t) :
  accounted c ->
  (forall k,
      status_owners k c' = status_owners k c /\
      count (status_rpc k) (Concurrent.in_flight c')
      = count (status_rpc k) (Concurrent.in_flight c) /\
      abort_owners k c' = abort_owners k c /\
      count (abort_rpc k) (Concurrent.in_flight c')
      = count (abort_rpc k) (Concurrent.in_flight c)) ->
  (forall k,
      match Impl.transactions_ (Concurrent.participant c') !! k,
            Impl.transactions_ (Concurrent.participant c) !! k with
      | Some x', Some x =>
          RunningTransaction.metadata_ x' = RunningTransaction.metadata_ x /\
          RunningTransaction.status_waiters_ x'
          = RunningTransaction.status_waiters_ x /\
          RunningTransaction.get_status_handle_ x'
          = RunningTransaction.get_status_handle_ x /\
          RunningTransaction.abort_waiters_ x'
          = RunningTransaction.abort_waiters_ x /\
          RunningTransaction.abort_handle_ x'
          = RunningTransaction.abort_handle_ x
      | Some x', None =>
          RunningTransaction.id x' = k /\
          RunningTransaction.status_waiters_ x' = [] /\
          RunningTransaction.get_status_handle_ x' = None /\
          RunningTransaction.abort_waiters_ x' = [] /\
          RunningTransaction.abort_handle_ x' = None
      | None, Some _ => False
      | None, None => True
      end) ->
  accounted c'.
Proof.
  intros Hacc Hcounts Hentries k.
  specialize (Hacc k). specialize (Hentries k).
  destruct (Hcounts k) as (Hs & Hsf & Ha & Haf).
  destruct (Impl.transactions_ (Concurrent.participant c') !! k) as [x'|],
    (Impl.transactions_ (Concurrent.participant c) !! k) as [x|];
    try contradiction.
  - destruct Hentries as (Hm & Hsw & Hsh & Haw & Hah).
    destruct Hacc as (Hk & H1 & H2 & H3 & H4).
    unfold RunningTransaction.id, entry_accounted in *.
    rewrite Hm, Hsw, Hsh, Haw, Hah, Hs, Hsf, Ha, Haf. auto.
  - destruct Hentries as (Hk & Hsw & Hsh & Haw & Hah).
    destruct Hacc as (H1 & H2).
    unfold entry_accounted. rewrite Hsw, Hsh, Haw, Hah, Hs, Hsf, Ha, Haf.
    unfold status_owners, abort_owners in *.
    split; [exact Hk|]. repeat split; lia.
  - rewrite Hs, Ha. exact Hacc.
Qed.

(** A move that writes the entry at [id] and is about it alone. *)
Lemma accounted_entry (c c' : Concurrent.t) id x x' :
  accounted c ->
  Impl.transactions_ (Concurrent.participant c) !! id = Some x ->
  Impl.transactions_ (Concurrent.participant c')
  = <[id := x']> (Impl.transactions_ (Concurrent.participant c)) ->
  RunningTransaction.metadata_ x' = RunningTransaction.metadata_ x ->
  (forall k,
      k <> id ->
      status_owners k c' = status_owners k c /\
      count (status_rpc k) (Concurrent.in_flight c')
      = count (status_rpc k) (Concurrent.in_flight c) /\
      abort_owners k c' = abort_owners k c /\
      count (abort_rpc k) (Concurrent.in_flight c')
      = count (abort_rpc k) (Concurrent.in_flight c)) ->
  entry_accounted c' id x' ->
  accounted c'.
Proof.
  intros Hacc Hid Ht Hm Hcounts Hentry k. rewrite Ht.
  destruct (decide (k = id)) as [->|Hne].
  - rewrite lookup_insert_eq. split; [|exact Hentry].
    specialize (Hacc id). rewrite Hid in Hacc.
    unfold RunningTransaction.id in *. rewrite Hm. apply Hacc.
  - rewrite lookup_insert_ne by congruence.
    specialize (Hacc k). destruct (Hcounts k Hne) as (Hs & Hsf & Ha & Haf).
    destruct (Impl.transactions_ (Concurrent.participant c) !! k) as [e|].
    + destruct Hacc as (Hk & H1 & H2 & H3 & H4). split; [exact Hk|].
      unfold entry_accounted. now rewrite Hs, Hsf, Ha, Haf.
    + now rewrite Hs, Ha.
Qed.

Lemma status_rpc_inv id r :
  status_rpc id r = true ->
  exists handle tablet, r = (handle, GetTransactionStatus tablet id).
Proof.
  destruct r as [handle [tablet txn|tablet txn|tablet txn st tablets]];
    cbn; try discriminate.
  intros ->%bool_decide_eq_true. eauto.
Qed.

Lemma abort_rpc_inv id r :
  abort_rpc id r = true ->
  exists handle tablet, r = (handle, AbortTransaction tablet id).
Proof.
  destruct r as [handle [tablet txn|tablet txn|tablet txn st tablets]];
    cbn; try discriminate.
  intros ->%bool_decide_eq_true. eauto.
Qed.

Lemma landing_atomic op c flying k :
  is_atomic op = true ->
  Concurrent.landing op c = Some flying ->
  count (status_rpc k) flying = count (status_rpc k) (Concurrent.in_flight c) /\
  count (abort_rpc k) flying = count (abort_rpc k) (Concurrent.in_flight c).
Proof.
  unfold Concurrent.landing.
  destruct op; try discriminate; intros _; cbn [is_completion];
    try (intros [= <-]; split; reflexivity).
  intros (r & Hr & Hq)%count_remove_first. rewrite !Hq.
  destruct r as [h [tablet txn|tablet txn|tablet txn st tablets]];
    try discriminate Hr.
  split; reflexivity.
Qed.

Lemma entry_after_atomic op k x x' :
  is_atomic op = true ->
  entry_after op k x x' ->
  RunningTransaction.metadata_ x' = RunningTransaction.metadata_ x /\
  RunningTransaction.status_waiters_ x' = RunningTransaction.status_waiters_ x /\
  RunningTransaction.get_status_handle_ x'
  = RunningTransaction.get_status_handle_ x /\
  RunningTransaction.abort_waiters_ x' = RunningTransaction.abort_waiters_ x /\
  RunningTransaction.abort_handle_ x' = RunningTransaction.abort_handle_ x.
Proof.
  destruct op; try discriminate; intros _; cbn [entry_after];
    try (intros ->; repeat split).
  destruct (decide _); intros ->; repeat split.
Qed.

Lemma enter_atomic_accounted op c flying thread impl' l :
  is_atomic op = true ->
  accounted c ->
  Concurrent.landing op c = Some flying ->
  Thread.enter op (Concurrent.participant c) = Done (thread, impl', l) ->
  accounted
    {| Concurrent.participant := impl';
       Concurrent.threads := Concurrent.threads c ++ option_list thread;
       Concurrent.in_flight := flying ++ started l |}.
Proof.
  intros Hop Hacc Hland Henter. rewrite (enter_atomic _ _ Hop) in Henter.
  destruct (step op (Concurrent.participant c)) as [[[[] impl1] l1]|] eqn:Hstep;
    [|discriminate].
  injection Henter as <- <- <-.
  apply (accounted_frame c); [exact Hacc| |].
  - intros k. destruct (landing_atomic _ _ _ k Hop Hland) as [Hs Ha].
    destruct (atomic_started _ _ _ _ _ k Hop Hstep) as [Hs' Ha'].
    unfold status_owners, abort_owners.
    cbn [Concurrent.threads Concurrent.in_flight option_list option_rect].
    rewrite !count_app, !count_nil, Hs, Ha, Hs', Ha'. repeat split; lia.
  - intros k. cbn [Concurrent.participant].
    destruct (Impl.transactions_ (Concurrent.participant c) !! k) as [x|] eqn:Hk.
    + destruct (step_entry _ _ _ _ _ _ _ Hstep Hk) as (x' & -> & Hafter).
      now apply entry_after_atomic in Hafter.
    + destruct (Impl.transactions_ impl1 !! k) as [x'|] eqn:Hk'; [|exact I].
      destruct (step_new_entry _ _ _ _ _ _ _ Hstep Hk Hk') as [metadata ->].
      split; [|repeat split].
      eapply step_new_key; eassumption.
Qed.

Ltac count_simpl :=
  unfold status_owners, abort_owners;
  cbn [Concurrent.threads Concurrent.in_flight option_list option_rect
         started flat_map app];
  rewrite ?count_app, ?count_option_list, ?count_cons, ?count_nil;
  cbn [starts_status swaps_status starts_abort status_rpc abort_rpc snd].

Ltac count_done :=
  intros; repeat split; try lia;
  repeat match goal with
         | H : context [match ?t with _ => _ end] |- _ => destruct t
         | |- context [match ?t with _ => _ end] => destruct t
         end;
  lia.

Lemma enter_accounted op c flying thread impl' l :
  accounted c ->
  Concurrent.landing op c = Some flying ->
  Thread.enter op (Concurrent.participant c) = Done (thread, impl', l) ->
  accounted
    {| Concurrent.participant := impl';
       Concurrent.threads := Concurrent.threads c ++ option_list thread;
       Concurrent.in_flight := flying ++ started l |}.
Proof.
  intros Hacc Hland Henter.
  destruct (is_atomic op) eqn:Hop;
    [now apply (enter_atomic_accounted op)|].
  destruct op; try discriminate Hop; clear Hop.
  - (* RequestStatusAt *)
    injection Hland as <-. rewrite enter_RequestStatusAt in Henter.
    destruct (Impl.transactions_ (Concurrent.participant c) !! id)
      as [x|] eqn:Hid.
    + destruct (cached_status time x) as [[st|]|]; [| |discriminate].
      * injection Henter as <- <- <-.
        apply (accounted_frame c); [exact Hacc| |].
        -- intros k. count_simpl. repeat split; lia.
        -- intros k. cbn [Concurrent.participant]. destruct (_ !! k); repeat split. 
      * injection Henter as <- <- <-.
        eapply accounted_entry with (c := c) (id := id) (x := x);
          [exact Hacc | exact Hid | reflexivity | reflexivity | |].
        -- intros k Hne. count_simpl.
           destruct (RunningTransaction.status_waiters_ x); count_simpl;
             repeat case_bool_decide; try congruence; repeat split; lia.
        -- specialize (Hacc id). rewrite Hid in Hacc.
           destruct Hacc as (Hk & H1 & H2 & H3 & H4).
           unfold entry_accounted in *. revert H1 H2 H3 H4. count_simpl.
           cbn.
           destruct (RunningTransaction.status_waiters_ x); count_simpl;
             repeat case_bool_decide; try congruence; cbn; intros; repeat split; lia.
    + injection Henter as <- <- <-.
        apply (accounted_frame c); [exact Hacc| |].
        -- intros k. count_simpl. repeat split; lia.
        -- intros k. cbn [Concurrent.participant]. destruct (_ !! k); repeat split. 
  - (* Abort *)
    injection Hland as <-. rewrite enter_Abort in Henter.
    destruct (Impl.transactions_ (Concurrent.participant c) !! id)
      as [x|] eqn:Hid.
    + injection Henter as <- <- <-.
        eapply accounted_entry with (c := c) (id := id) (x := x);
          [exact Hacc | exact Hid | reflexivity | reflexivity | |].
        -- intros k Hne. count_simpl.
           destruct (RunningTransaction.abort_waiters_ x); count_simpl;
             repeat case_bool_decide; try congruence; repeat split; lia.
        -- specialize (Hacc id). rewrite Hid in Hacc.
           destruct Hacc as (Hk & H1 & H2 & H3 & H4).
           unfold entry_accounted in *. revert H1 H2 H3 H4. count_simpl.
           cbn.
           destruct (RunningTransaction.abort_waiters_ x); count_simpl;
             repeat case_bool_decide; try congruence; cbn; intros; repeat split; lia.
    + injection Henter as <- <- <-.
        apply (accounted_frame c); [exact Hacc| |].
        -- intros k. count_simpl. repeat split; lia.
        -- intros k. cbn [Concurrent.participant]. destruct (_ !! k); repeat split. 
  - (* StatusReceived *)
    unfold Concurrent.landing in Hland. cbn [is_completion completes] in Hland.
    apply count_remove_first in Hland as (r & Hr & Hq).
    apply status_rpc_inv in Hr as (handle & tablet & ->).
    rewrite enter_StatusReceived in Henter. injection Henter as <- <- <-.
    pose proof (Hacc id) as Hacc_id.
    destruct (Impl.transactions_ (Concurrent.participant c) !! id)
      as [x|] eqn:Hid.
    + eapply accounted_entry with (c := c) (id := id) (x := x);
          [exact Hacc | exact Hid | reflexivity | reflexivity | |].
      -- intros k Hne. count_simpl. rewrite !Hq. count_simpl.
             repeat case_bool_decide; try congruence; repeat split; lia.
      -- destruct Hacc_id as (Hk & H1 & H2 & H3 & H4).
           unfold entry_accounted in *. revert H1 H2 H3 H4. count_simpl.
           rewrite !Hq. count_simpl. cbn.
             repeat case_bool_decide; try congruence; cbn. count_done.
    + exfalso. destruct Hacc_id as [H1 _]. revert H1. count_simpl. rewrite !Hq. count_simpl.
      repeat case_bool_decide; try congruence. lia.
  - (* AbortReceived *)
    unfold Concurrent.landing in Hland. cbn [is_completion completes] in Hland.
    apply count_remove_first in Hland as (r & Hr & Hq).
    apply abort_rpc_inv in Hr as (handle & tablet & ->).
    rewrite enter_AbortReceived in Henter. 
    pose proof (Hacc id) as Hacc_id.
    destruct (Impl.transactions_ (Concurrent.participant c) !! id)
      as [x|] eqn:Hid.
    + injection Henter as <- <- <-.
      eapply accounted_entry with (c := c) (id := id) (x := x);
          [exact Hacc | exact Hid | reflexivity | reflexivity | |].
      -- intros k Hne. count_simpl. rewrite !Hq. count_simpl.
             repeat case_bool_decide; try congruence; repeat split; lia.
      -- destruct Hacc_id as (Hk & H1 & H2 & H3 & H4).
           unfold entry_accounted in *. revert H1 H2 H3 H4. count_simpl.
           rewrite !Hq. count_simpl. cbn.
             repeat case_bool_decide; try congruence; cbn. count_done.
    + exfalso. destruct Hacc_id as [_ H1]. revert H1. count_simpl. rewrite !Hq. count_simpl.
      repeat case_bool_decide; try congruence. lia.
Qed.

Lemma resume_accounted n c thread thread' impl' l :
  accounted c ->
  Concurrent.threads c !! n = Some thread ->
  Thread.resume thread (Concurrent.participant c) = Done (thread', impl', l) ->
  accounted
    {| Concurrent.participant := impl';
       Concurrent.threads := delete n (Concurrent.threads c) ++ option_list thread';
       Concurrent.in_flight := Concurrent.in_flight c ++ started l |}.
Proof.
  intros Hacc Hn Hresume.
  pose proof (fun p => count_delete p _ _ _ Hn) as Hd.
  destruct (is_loop thread) eqn:Hloop.
  { destruct (resume_loop _ _ _ _ _ Hloop Hresume) as (-> & Hl & Hloop').
    apply (accounted_frame c); [exact Hacc| |].
    - intros k. count_simpl. rewrite Hl, !Hd. count_simpl.
      destruct thread; try discriminate Hloop;
        destruct thread' as [[]|]; try discriminate Hloop';
        count_simpl; repeat split; lia.
    - intros k. cbn [Concurrent.participant]. destruct (_ !! k); repeat split. }
  destruct thread as [| it callback st | it | it | it status response | | | ];
    try discriminate Hloop; clear Hloop.
  - rewrite resume_CachedStatusCallback in Hresume.
    injection Hresume as <- <- <-.
    apply (accounted_frame c); [exact Hacc| |].
    + intros k. count_simpl. rewrite !Hd. count_simpl.
      destruct (_ !! it); count_simpl; repeat split; lia.
    + intros k. cbn [Concurrent.participant]. destruct (_ !! k); repeat split.
  - rewrite resume_StartGetTransactionStatus in Hresume.
    pose proof (Hacc it) as Hacc_it.
    destruct (Impl.transactions_ (Concurrent.participant c) !! it)
      as [x|] eqn:Hid.
    + cbv zeta in Hresume. injection Hresume as <- <- <-.
      destruct Hacc_it as (Hk & H1 & H2 & H3 & H4).
      unfold RunningTransaction.id in Hk.
      eapply accounted_entry with (c := c) (id := it) (x := x);
          [exact Hacc | exact Hid | reflexivity | reflexivity | |].
      * intros k Hne. count_simpl. rewrite !Hd. count_simpl. rewrite Hk.
        repeat case_bool_decide; try congruence; repeat split; lia.
      * unfold entry_accounted in *. revert H1 H2 H3 H4. count_simpl.
        rewrite !Hd. count_simpl. rewrite Hk. cbn.
        repeat case_bool_decide; try congruence; cbn. count_done.
    + exfalso. destruct Hacc_it as [H1 _]. revert H1. count_simpl.
      rewrite !Hd. count_simpl.
      repeat case_bool_decide; try congruence. lia.
  - rewrite resume_StartAbortTransaction in Hresume.
    pose proof (Hacc it) as Hacc_it.
    destruct (Impl.transactions_ (Concurrent.participant c) !! it)
      as [x|] eqn:Hid.
    + cbv zeta in Hresume. injection Hresume as <- <- <-.
      destruct Hacc_it as (Hk & H1 & H2 & H3 & H4).
      unfold RunningTransaction.id in Hk.
      eapply accounted_entry with (c := c) (id := it) (x := x);
          [exact Hacc | exact Hid | reflexivity | reflexivity | |].
      * intros k Hne. count_simpl. rewrite !Hd. count_simpl. rewrite Hk.
        repeat case_bool_decide; try congruence; repeat split; lia.
      * unfold entry_accounted in *. revert H1 H2 H3 H4. count_simpl.
        rewrite !Hd. count_simpl. rewrite Hk. cbn.
        repeat case_bool_decide; try congruence; cbn. count_done.
    + exfalso. destruct Hacc_it as [_ H1]. revert H1. count_simpl.
      rewrite !Hd. count_simpl.
      repeat case_bool_decide; try congruence. lia.
  - rewrite resume_StatusReceivedLocked in Hresume.
    pose proof (Hacc it) as Hacc_it.
    destruct (Impl.transactions_ (Concurrent.participant c) !! it)
      as [x|] eqn:Hid.
    + destruct Hacc_it as (Hk & H1 & H2 & H3 & H4).
      assert (exists x',
                 impl' = with_entry it x' (Concurrent.participant c) /\
                 RunningTransaction.metadata_ x' = RunningTransaction.metadata_ x /\
                 RunningTransaction.status_waiters_ x' = [] /\
                 RunningTransaction.get_status_handle_ x'
                 = RunningTransaction.get_status_handle_ x /\
                 RunningTransaction.abort_waiters_ x'
                 = RunningTransaction.abort_waiters_ x /\
                 RunningTransaction.abort_handle_ x'
                 = RunningTransaction.abort_handle_ x /\
                 started l = [] /\
                 match thread' with
                 | Some t' => is_loop t' = true
                 | None => True
                 end)
        as (x' & -> & Hm & Hw & Hh & Haw & Hah & Hl & Hloop').
      { destruct (ok status).
        - destruct (dcheck_is_on && negb _); [discriminate|].
          injection Hresume as <- <- <-. eexists. split; [reflexivity|].
          cbv zeta. destruct (_ <=? _); repeat split.
        - injection Hresume as <- <- <-. eexists. split; [reflexivity|].
          repeat split. }
      eapply accounted_entry with (c := c) (id := it) (x := x);
          [exact Hacc | exact Hid | reflexivity | exact Hm | |].
      * intros k Hne. count_simpl. rewrite Hl, !Hd. count_simpl.
        destruct thread' as [[]|]; try discriminate Hloop'; count_simpl;
        repeat case_bool_decide; try congruence; repeat split; lia.
      * unfold entry_accounted in *. rewrite Hw, Hh, Haw, Hah.
        revert H1 H2 H3 H4. count_simpl.
        rewrite Hl, !Hd. count_simpl.
        destruct thread' as [[]|]; try discriminate Hloop'; count_simpl;
        repeat case_bool_decide; try congruence; cbn; count_done.
    + exfalso. destruct Hacc_it as [H1 _]. revert H1. count_simpl.
      rewrite !Hd. count_simpl.
      repeat case_bool_decide; try congruence. lia.
Qed.

Lemma step_accounted move c c' l :
  accounted c ->
  Concurrent.step move c = Some (Done (c', l)) ->
  accounted c'.
Proof.
  intros Hacc Hstep. destruct move as [op|n]; cbn [Concurrent.step] in Hstep.
  - destruct (Concurrent.landing op c) as [flying|] eqn:Hland; [|discriminate].
    destruct (Thread.enter op (Concurrent.participant c))
      as [[[thread impl'] l']|] eqn:Henter; [|discriminate].
    injection Hstep as <- <-. eauto using enter_accounted.
  - destruct (Concurrent.threads c !! n) as [thread|] eqn:Hn; [|discriminate].
    destruct (Thread.resume thread (Concurrent.participant c))
      as [[[thread' impl'] l']|] eqn:Hresume; [|discriminate].
    injection Hstep as <- <-. eauto using resume_accounted.
Qed.

Lemma run_cons_Done move moves c c' l :
  Concurrent.run (move :: moves) c = Some (Done (c', l)) ->
  exists c1 l1 l2,
    Concurrent.step move c = Some (Done (c1, l1)) /\
    Concurrent.run moves c1 = Some (Done (c', l2)) /\
    l = l1 ++ l2.
Proof.
  cbn [Concurrent.run].
  destruct (Concurrent.step move c) as [[[c1 l1]|]|]; try discriminate.
  destruct (Concurrent.run moves c1) as [[[c2 l2]|]|] eqn:Hrest;
    try discriminate.
  intros [= <- <-]. exists c1, l1, l2. auto.
Qed.

Lemma run_accounted moves :
  forall c c' l,
    accounted c ->
    Concurrent.run moves c = Some (Done (c', l)) ->
    accounted c'.
Proof.
  induction moves as [|move moves IH]; intros c c' l Hacc Hrun.
  - now injection Hrun as <- _.
  - apply run_cons_Done in Hrun as (c1 & l1 & l2 & Hstep & Hrest & _).
    eauto using step_accounted.
Qed.

Lemma started_app l1 l2 : started (l1 ++ l2) = started l1 ++ started l2.
Proof. unfold started. apply flat_map_app. Qed.

(** The status RPCs of [id] in flight grow by the ones a move starts, as
    long as the move is not the completion of one. *)
Lemma step_status_in_flight id move c c' l :
  not_status_completion id move = true ->
  Concurrent.step move c = Some (Done (c', l)) ->
  count (status_rpc id) (Concurrent.in_flight c')
  = (count (status_rpc id) (Concurrent.in_flight c)
     + sent_get_status_of id l)%nat.
Proof.
  intros Hmove Hstep. unfold sent_get_status_of.
  destruct move as [op|n]; cbn [Concurrent.step] in Hstep.
  - destruct (Concurrent.landing op c) as [flying|] eqn:Hland; [|discriminate].
    destruct (Thread.enter op (Concurrent.participant c))
      as [[[thread impl'] l']|] eqn:Henter; [|discriminate].
    injection Hstep as <- <-. cbn [Concurrent.in_flight].
    rewrite count_app. f_equal.
    unfold Concurrent.landing in Hland.
    destruct (is_completion op) eqn:Hop; [|now injection Hland as <-].
    apply count_remove_first in Hland as (r & Hr & Hq). rewrite Hq.
    destruct op; try discriminate Hop; cbn [completes] in Hr.
    + apply status_rpc_inv in Hr as (handle & tablet & ->).
      cbn [not_status_completion] in Hmove. cbn.
      now destruct (bool_decide (id0 = id)).
    + apply abort_rpc_inv in Hr as (handle & tablet & ->). reflexivity.
    + destruct r as [h [tablet txn|tablet txn|tablet txn st tablets]];
        try discriminate Hr.
      reflexivity.
  - destruct (Concurrent.threads c !! n) as [thread|] eqn:Hn; [|discriminate].
    destruct (Thread.resume thread (Concurrent.participant c))
      as [[[thread' impl'] l']|] eqn:Hresume; [|discriminate].
    injection Hstep as <- <-. cbn [Concurrent.in_flight].
    now rewrite count_app.
Qed.

Lemma run_status_in_flight id moves :
  forall c c' l,
    forallb (not_status_completion id) moves = true ->
    Concurrent.run moves c = Some (Done (c', l)) ->
    count (status_rpc id) (Concurrent.in_flight c')
    = (count (status_rpc id) (Concurrent.in_flight c)
       + sent_get_status_of id l)%nat.
Proof.
  induction moves as [|move moves IH]; intros c c' l Hmoves Hrun.
  - injection Hrun as <- <-. unfold sent_get_status_of. cbn. lia.
  - cbn [forallb] in Hmoves. apply andb_true_iff in Hmoves as [Hmove Hmoves].
    apply run_cons_Done in Hrun as (c1 & l1 & l2 & Hstep & Hrest & ->).
    rewrite (IH _ _ _ Hmoves Hrest), (step_status_in_flight _ _ _ _ _ Hmove Hstep).
    unfold sent_get_status_of. rewrite started_app, count_app. lia.
Qed.

(** At most one status RPC of an entry is in flight. *)
Lemma accounted_one_in_flight c id :
  accounted c ->
  (count (status_rpc id) (Concurrent.in_flight c) <= 1)%nat.
Proof.
  intros Hacc. specialize (Hacc id).
  destruct (Impl.transactions_ (Concurrent.participant c) !! id) as [x|].
  - destruct Hacc as (_ & _ & H2 & _).
    destruct (RunningTransaction.get_status_handle_ x); lia.
  - destruct Hacc as [H1 _]. unfold status_owners in H1. lia.
Qed.

End Accounting.

(** ** One status RPC between two completions *)

(** C2: in every interleaving of calls and completions, from a new
    participant on, exactly one [GetTransactionStatus] RPC for a
    transaction is started between the beginning of one completion of its
    status RPC and the beginning of the next: the first call of
    [RequestStatusAt] that the cache does not answer and that finds no
    waiter queued starts it, whatever else goes on.  The section of
    [RequestStatusAt] that holds the lock does this: it stops the process
    on a cached status [GetStatusAt] has no case for; if the cache answers,
    it leaves the participant as it is and what is left of the call is the
    callback; otherwise it queues its waiter, and what is left of the call
    is the start of the RPC if it found the queue empty, and nothing if it
    found waiters queued.  The callback of a call the cache answered starts
    no RPC; the call that found the queue empty starts the one RPC.  And a
    call or a completion that runs alone, its sections one after the other
    with nothing in between, does what it does as one step. *)
Theorem one_status_rpc_between_completions `{E : External}
    (context : TransactionParticipantContext)
    (before between : list Concurrent.Move)
    (id : TransactionId) (status1 status2 : Status)
    (response1 response2 : GetTransactionStatusResponsePB)
    (c0 c1 c2 : Concurrent.t) (l0 l1 l2 : list Event)
    (next : Outcome (Concurrent.t * list Event)) :
  Concurrent.run before (Concurrent.new context) = Some (Done (c0, l0)) ->
  Concurrent.step (Concurrent.Enter (OpStatusReceived id status1 response1)) c0
  = Some (Done (c1, l1)) ->
  forallb (not_status_completion id) between = true ->
  Concurrent.run between c1 = Some (Done (c2, l2)) ->
  Concurrent.step (Concurrent.Enter (OpStatusReceived id status2 response2)) c2
  = Some next ->
  sent_get_status_of id l2 = 1%nat /\
  (forall (c : Concurrent.t) (x : RunningTransaction.t) time callback,
      Impl.transactions_ (Concurrent.participant c) !! id = Some x ->
      Concurrent.step (Concurrent.Enter (OpRequestStatusAt id time callback)) c
      = Some
          match cached_status time x with
          | Crash why => Crash why
          | Done (Some st) =>
              Done ({| Concurrent.participant := Concurrent.participant c;
                       Concurrent.threads :=
                         Concurrent.threads c ++
                         [Thread.CachedStatusCallback id callback st];
                       Concurrent.in_flight := Concurrent.in_flight c |}, [])
          | Done None =>
              Done ({| Concurrent.participant :=
                         with_entry id
                           (RunningTransaction.set_status_waiters_
                              (RunningTransaction.status_waiters_ x ++
                               [{| RunningTransaction.callback := callback;
                                   RunningTransaction.time := time |}]) x)
                           (Concurrent.participant c);
                       Concurrent.threads :=
                         Concurrent.threads c ++
                         match RunningTransaction.status_waiters_ x with
                         | [] => [Thread.StartGetTransactionStatus id]
                         | _ => []
                         end;
                       Concurrent.in_flight := Concurrent.in_flight c |}, [])
          end) /\
  (forall (impl : Impl.t) (x : RunningTransaction.t) callback st,
      Impl.transactions_ impl !! id = Some x ->
      Thread.resume (Thread.CachedStatusCallback id callback st) impl
      = Done (None, impl,
              [Invoke callback
                 (Value
                    {| status := st;
                       status_time :=
                         RunningTransaction.last_known_status_hybrid_time_ x
                    |})])) /\
  (forall (impl : Impl.t) (x : RunningTransaction.t),
      Impl.transactions_ impl !! id = Some x ->
      exists impl',
        Thread.resume (Thread.StartGetTransactionStatus id) impl
        = Done (None, impl',
                [RpcSent (Rpcs.next (Impl.rpcs_ impl))
                   (GetTransactionStatus
                      (TransactionMetadata.status_tablet
                         (RunningTransaction.metadata_ x))
                      (TransactionMetadata.transaction_id
                         (RunningTransaction.metadata_ x)))]) /\
        Impl.transactions_ impl'
        = <[id := RunningTransaction.set_get_status_handle_
                    (Some (Rpcs.next (Impl.rpcs_ impl))) x]>
            (Impl.transactions_ impl)) /\
  (forall (op : Op) (impl : Impl.t) (fuel : nat),
      (Thread.sections op impl <= fuel)%nat ->
      Thread.alone fuel op impl = step op impl).
Proof.
  intros Hbefore Hfirst Hbetween Hrun Hsecond.
  split; [|split; [|split; [|split; [|exact alone_is_step]]]].
  - pose proof (run_accounted _ _ _ _ (new_accounted context) Hbefore) as Hacc0.
    pose proof (step_accounted _ _ _ _ Hacc0 Hfirst) as Hacc1.
    pose proof (run_accounted _ _ _ _ Hacc1 Hrun) as Hacc2.
    pose proof (accounted_one_in_flight _ id Hacc0) as Hone0.
    pose proof (accounted_one_in_flight _ id Hacc2) as Hone2.
    pose proof (run_status_in_flight _ _ _ _ _ Hbetween Hrun) as Hsent.
    cbn [Concurrent.step] in Hfirst, Hsecond.
    unfold Concurrent.landing in Hfirst, Hsecond.
    cbn [is_completion completes] in Hfirst, Hsecond.
    destruct (remove_first _ (Concurrent.in_flight c0)) as [flying0|] eqn:H0;
      [|discriminate].
    destruct (remove_first _ (Concurrent.in_flight c2)) as [flying2|] eqn:H2;
      [|discriminate].
    apply count_remove_first in H0 as (r0 & Hr0 & Hq0).
    apply count_remove_first in H2 as (r2 & Hr2 & Hq2).
    specialize (Hq0 (status_rpc id)). specialize (Hq2 (status_rpc id)).
    cbn [completes] in Hr0, Hr2. rewrite Hr0 in Hq0. rewrite Hr2 in Hq2.
    rewrite enter_StatusReceived in Hfirst. injection Hfirst as <- _.
    cbn [Concurrent.in_flight started flat_map] in Hsent.
    rewrite count_app, count_nil in Hsent. lia.
  - intros c x time callback Hid. cbn [Concurrent.step Concurrent.landing].
    unfold Concurrent.landing. cbn [is_completion].
    rewrite enter_RequestStatusAt, Hid.
    destruct (cached_status time x) as [[st|]|]; [| |reflexivity];
      cbn [started flat_map]; rewrite app_nil_r; [reflexivity|].
    destruct (RunningTransaction.status_waiters_ x); reflexivity.
  - intros impl x callback st Hid.
    now rewrite resume_CachedStatusCallback, Hid.
  - intros impl x Hid. rewrite resume_StartGetTransactionStatus, Hid.
    eexists. split; reflexivity.
Qed.

(** The sample transaction: the RPC that two interleaved requests started
    completes with PENDING at 15, and before the next completion begins
    five more calls and sections run; one RPC is started among them. *)
Lemma one_status_rpc_between_completions_witness :
  sent_get_status_of sample_id
    (events_during (E := sample_external) sample_next_requests sample_landed)
  = 1%nat.
Proof.
  refine (proj1
    (one_status_rpc_between_completions (E := sample_external)
       {| tablet_id := "this-tablet" |}
       sample_first_requests sample_next_requests sample_id OK OK
       sample_response sample_response
       sample_flying sample_landed
       (state_after (E := sample_external) sample_next_requests sample_landed)
       (events_during (E := sample_external) sample_first_requests
          (Concurrent.new {| tablet_id := "this-tablet" |}))
       []
       (events_during (E := sample_external) sample_next_requests
          sample_landed)
       (Done
          (state_after (E := sample_external)
             (sample_next_requests ++
              [Concurrent.Enter (OpStatusReceived sample_id OK sample_response)])
             sample_landed,
           []))
       _ _ _ _ _)).
  - vm_compute. reflexivity.
  - vm_compute. reflexivity.
  - reflexivity.
  - vm_compute. reflexivity.
  - vm_compute. reflexivity.
Defined.

(** ** Queues, handles and the RPCs in flight *)

(** X12: in every state the interleaved calls and completions reach from
    a new participant, for each entry: status waiters are queued exactly
    while one owner answers for them, and never more than one, the owner
    being the call that queued the first waiter until it has started the
    RPC, then the RPC while it is in flight, then its completion until it
    has swapped the queue; the entry holds the status handle exactly while
    the RPC is in flight.  The same holds of the abort waiters, whose owner
    is the call that queued the first of them and then the RPC.  So an
    entry that holds a handle has waiters queued; an entry can have
    waiters queued and hold no handle, between the unlock of the call and
    the start of the RPC and between the [Unregister] of the completion
    and its lock; and when no call or completion is under way, waiters are
    queued exactly when the handle is held.  A call or a completion that
    runs alone, its sections one after the other, does what it does as one
    step, so the states between calls that run one after the other are
    states where nothing is under way. *)
Theorem queues_match_handles_reachable `{E : External}
    (context : TransactionParticipantContext) (moves : list Concurrent.Move)
    (c : Concurrent.t) (l : list Event)
    (id : TransactionId) (x : RunningTransaction.t) :
  Concurrent.run moves (Concurrent.new context) = Some (Done (c, l)) ->
  Impl.transactions_ (Concurrent.participant c) !! id = Some x ->
  status_owners id c
  = match RunningTransaction.status_waiters_ x with [] => 0 | _ => 1 end%nat /\
  count (status_rpc id) (Concurrent.in_flight c)
  = match RunningTransaction.get_status_handle_ x with
    | Some _ => 1
    | None => 0
    end%nat /\
  abort_owners id c
  = match RunningTransaction.abort_waiters_ x with [] => 0 | _ => 1 end%nat /\
  count (abort_rpc id) (Concurrent.in_flight c)
  = match RunningTransaction.abort_handle_ x with
    | Some _ => 1
    | None => 0
    end%nat /\
  (RunningTransaction.get_status_handle_ x <> Rpcs.InvalidHandle ->
   RunningTransaction.status_waiters_ x <> []) /\
  (RunningTransaction.abort_handle_ x <> Rpcs.InvalidHandle ->
   RunningTransaction.abort_waiters_ x <> []) /\
  (Concurrent.threads c = [] -> queues_match_handles x) /\
  (forall (op : Op) (impl : Impl.t) (fuel : nat),
      (Thread.sections op impl <= fuel)%nat ->
      Thread.alone fuel op impl = step op impl).
Proof.
  intros Hrun Hid.
  pose proof (run_accounted _ _ _ _ (new_accounted context) Hrun id) as Hacc.
  rewrite Hid in Hacc. destruct Hacc as (_ & H1 & H2 & H3 & H4).
  split; [exact H1|]. split; [exact H2|]. split; [exact H3|].
  split; [exact H4|].
  unfold status_owners, abort_owners in *.
  unfold queues_match_handles, Rpcs.InvalidHandle.
  split; [|split; [|split; [|exact alone_is_step]]].
  - destruct (RunningTransaction.get_status_handle_ x),
      (RunningTransaction.status_waiters_ x); try congruence. lia.
  - destruct (RunningTransaction.abort_handle_ x),
      (RunningTransaction.abort_waiters_ x); try congruence. lia.
  - intros Hquiet. rewrite Hquiet in H1, H3.
    repeat rewrite count_nil in H1. repeat rewrite count_nil in H3.
    destruct (RunningTransaction.get_status_handle_ x),
      (RunningTransaction.status_waiters_ x),
      (RunningTransaction.abort_handle_ x),
      (RunningTransaction.abort_waiters_ x);
      repeat split; intros; try congruence; exfalso; lia.
Qed.

(** A call of [RequestStatusAt] and a call of [Abort] for the sample
    transaction have released the lock and not started their RPCs: each
    queue has its waiter and one owner, no RPC is in flight, the entry
    holds no handle. *)
Lemma queues_match_handles_reachable_witness :
  status_owners sample_id
    (state_after (E := sample_external) sample_between_unlock_and_start
       (Concurrent.new {| tablet_id := "this-tablet" |})) = 1%nat /\
  count (status_rpc sample_id)
    (Concurrent.in_flight
       (state_after (E := sample_external) sample_between_unlock_and_start
          (Concurrent.new {| tablet_id := "this-tablet" |}))) = 0%nat /\
  abort_owners sample_id
    (state_after (E := sample_external) sample_between_unlock_and_start
       (Concurrent.new {| tablet_id := "this-tablet" |})) = 1%nat.
Proof.
  destruct (queues_match_handles_reachable (E := sample_external)
              {| tablet_id := "this-tablet" |}
              sample_between_unlock_and_start
              (state_after (E := sample_external)
                 sample_between_unlock_and_start
                 (Concurrent.new {| tablet_id := "this-tablet" |}))
              (events_during (E := sample_external)
                 sample_between_unlock_and_start
                 (Concurrent.new {| tablet_id := "this-tablet" |}))
              sample_id
              (RunningTransaction.set_abort_waiters_ [2%nat]
                 (RunningTransaction.set_status_waiters_
                    [{| RunningTransaction.callback := 1%nat;
                        RunningTransaction.time := 10 |}]
                    (RunningTransaction.new (E := sample_external)
                       sample_metadata))))
    as (Hs & Hf & Ha & _).
  - vm_compute. reflexivity.
  - vm_compute. reflexivity.
  - exact (conj Hs (conj Hf Ha)).
Defined.
